(** * Cave-ice survey reduction: station resolution and shot projection

    A shallow embedding of the survey engine of [ice_process.py] and
    [ice2dat.py]: the polar-to-Cartesian shot of [Point.shot], the tie-in
    propagation of [excel_tiein], and the two survey readers
    ([ice_process.excel_survey], which yields points, and
    [ice2dat.ice2survey], which adds Compass shots).

    Numbers.  Python's [float] is read in two ways.  In the modules
    [ice_process] and [ice2dat] it is a real number: [math.sin], [math.cos]
    are the real sine and cosine and [math.radians x] is [x * PI / 180]; a
    statement over these modules is a statement of exact arithmetic, and
    says so.  The module [doubles] repeats [Point.shot] and the tie-in
    resolver over IEEE binary64 numbers, every operation rounded as Python
    rounds it; there [cos (radians 90)] is [6.1e-17], not [0], and a sum
    can overflow. *)

From Stdlib Require Import Reals Lra Lia ZArith Ascii String List DecimalString.
From Stdlib Require Import Decimal DecimalFacts DecimalPos DecimalZ.
From Stdlib Require Import Floats.
From stdpp Require Import gmap strings.
Import ListNotations.

(** ** Python values, truthiness and exceptions *)

Module Py.

(** A cell of a worksheet row as [xlrd] hands it over: text (the empty
    string for an empty cell) or a number. *)
Inductive value : Type :=
| VStr (s : string)
| VNum (r : R).

Inductive exn : Type :=
| KeyError (key : string)
| ValueError
| TypeError
| NameError (name : string).

Inductive result (A : Type) : Type :=
| Ok (a : A)
| Raise (e : exn).
Arguments Ok {A} a.
Arguments Raise {A} e.

Definition bind {A B : Type} (m : result A) (k : A -> result B) : result B :=
  match m with
  | Ok a => k a
  | Raise e => Raise e
  end.

Notation "x <- m ;; k" := (bind m (fun x => k))
  (at level 100, m at next level, right associativity).

(** [bool(v)]: the empty string and the number zero are false. *)
Definition truthy (v : value) : bool :=
  match v with
  | VStr s => negb (String.eqb s "")
  | VNum r => if Req_dec_T r 0 then false else true
  end.

(** Truthiness of [row.get(key, None)] and of an optional argument. *)
Definition truthy_opt (o : option value) : bool :=
  match o with
  | Some v => truthy v
  | None => false
  end.

(** A value used as an operand of float arithmetic. *)
Definition number (v : value) : result R :=
  match v with
  | VNum r => Ok r
  | VStr _ => Raise TypeError
  end.

(** [row[key]]. *)
Definition getitem (key : string) (o : option value) : result value :=
  match o with
  | Some v => Ok v
  | None => Raise (KeyError key)
  end.

(** [math.radians]. *)
Definition radians (deg : R) : R := (deg * (PI / 180))%R.

(** [x % m] on floats: the remainder has the sign of [m]. *)
Definition pymod (x m : R) : R := (x - m * IZR (Int_part (x / m)))%R.

(** [int(x)] on a float truncates towards zero. *)
Definition trunc (r : R) : Z :=
  if Rle_dec 0 r then Int_part r else (- Int_part (- r))%Z.

(** ['%02d' % n]: decimal, zero-padded to two characters (a minus sign
    counts as one of them). *)
Definition fmt_02d (n : Z) : string :=
  let s := NilZero.string_of_int (Z.to_int n) in
  if (String.length s <? 2)%nat then String.append "0" s else s.

Section Conversions.

(** The text-to-number readers behind [float(s)] and [int(s)] on a text
    cell; [None] is their [ValueError]. *)
Variable float_of_text : string -> option R.
Variable int_of_text : string -> option Z.

Definition float (v : value) : result R :=
  match v with
  | VNum r => Ok r
  | VStr s =>
      match float_of_text s with
      | Some r => Ok r
      | None => Raise ValueError
      end
  end.

Definition int (v : value) : result Z :=
  match v with
  | VNum r => Ok (trunc r)
  | VStr s =>
      match int_of_text s with
      | Some n => Ok n
      | None => Raise ValueError
      end
  end.

End Conversions.

(** One row of a survey worksheet, as the [dict] that
    [ExcelWorksheetReader] yields, restricted to the keys the code reads;
    [None] is a key the sheet has no column for. *)
Record survey_row : Type := mkRow {
  row_Point : option value;
  row_Azm : option value;
  row_Dist_m : option value;
  row_Inc : option value;
  row_Down_m : option value;
  row_Back_m : option value
}.

(** The test both survey readers open their loop body with,
    [row.get('Dist m', None)] taken as a condition. *)
Definition has_distance (row : survey_row) : bool :=
  truthy_opt (row_Dist_m row).

(** A numeric cell of the tie-in sheet: empty (['']) or a number. *)
Inductive numcell : Type :=
| Empty
| Num (r : R).

(** One row of the tie-in worksheet.  The sheet is taken as well typed:
    [Dist m], [Azm], [Inc] hold numbers, and so do [UTM East] and
    [UTM North] where they are read; for the three optional columns [None]
    is a column the sheet does not have. *)
Record tiein_row : Type := mkTie {
  tie_From : string;
  tie_To : string;
  tie_Dist_m : R;
  tie_Azm : R;
  tie_Inc : R;
  tie_UTM_East : option R;
  tie_UTM_North : option R;
  tie_Alt_m : option numcell
}.

End Py.

Import Py.

(** ** [ice_process.py]: points and shots *)

Module ice_process.

Local Open Scope R_scope.

(** [class Point], slots [x], [y], [z], [name]. *)
Record Point : Type := mkPoint {
  x : R;
  y : R;
  z : R;
  name : option value
}.

Definition coords (p : Point) : R * R * R := (x p, y p, z p).

Definition set_name (p : Point) (n : option value) : Point :=
  mkPoint (x p) (y p) (z p) n.

(** [Point.shot(dist, azm, inc)] with [down], [back] and [name] left at
    their defaults [0.0], [0.0], [None]: the three guarded statements are
    not run and the freshly built point is returned.  This is what the
    nested calls [p.shot(down, 0, -90)] and [p.shot(back, azm, 0)] and the
    tie-in resolver execute. *)
Definition shot0 (self : Point) (dist azm inc : R) : Point :=
  let hd := dist * cos (radians inc) in
  let x2 := hd * sin (radians azm) in
  let y2 := hd * cos (radians azm) in
  let z2 := dist * sin (radians inc) in
  mkPoint (x self + x2) (y self + y2) (z self + z2) None.

(** [Point.shot(dist, azm, inc, down, back, name)].  [down] and [back]
    arrive as raw cells; a non-empty text there is truthy and then fails in
    the multiplication of the nested call. *)
Definition shot (self : Point) (dist azm inc : R)
    (down back : value) (nm : option value) : result Point :=
  let p := shot0 self dist azm inc in
  p <- (if truthy down
        then d <- number down ;; Ok (shot0 p d 0 (-90))
        else Ok p) ;;
  p <- (if truthy back
        then b <- number back ;; Ok (shot0 p b azm 0)
        else Ok p) ;;
  Ok (if truthy_opt nm then set_name p nm else p).

(** *** The tie-in resolver *)

(** The [stations] dict: a name is absent, present and unresolved
    ([Some None]), or present with its point. *)
Abbreviation stations := (gmap string (option Point)).

(** [stations.get(name, None)]. *)
Definition get (st : stations) (nm : string) : option Point :=
  default None (st !! nm).

(** Body of the first loop of [excel_tiein]: enter both ends of the row; a
    row whose [Alt m] is filled in fixes its [To] station. *)
Definition enter (st : stations) (row : tiein_row) : stations :=
  let st := <[tie_From row := get st (tie_From row)]> st in
  match tie_Alt_m row with
  | Some (Num alt) =>
      <[tie_To row :=
          Some (mkPoint (default 0 (tie_UTM_East row))
                        (default 0 (tie_UTM_North row)) alt None)]> st
  | Some Empty | None =>
      <[tie_To row := get st (tie_To row)]> st
  end.

Definition init (rows : list tiein_row) : stations :=
  fold_left enter rows ∅.

(** Body of the inner [for] loop: one tie-in row against the table. *)
Definition visit (st : stations) (row : tiein_row) : stations :=
  let azm := tie_Azm row in
  let inc := tie_Inc row in
  let dist := tie_Dist_m row in
  match get st (tie_From row), get st (tie_To row) with
  | Some _, Some _ => st
  | Some from_p, None =>
      <[tie_To row := Some (shot0 from_p dist azm inc)]> st
  | None, Some to_p =>
      <[tie_From row :=
          Some (shot0 to_p dist (pymod (azm + 180) 360) (-1 * inc))]> st
  | None, None => st
  end.

(** One sweep over the sheet. *)
Definition one_pass (rows : list tiein_row) (st : stations) : stations :=
  fold_left visit rows st.

(** [None in stations.values()]. *)
Definition none_in_values (st : stations) : bool :=
  bool_decide (map_Exists (fun _ v => v = None) st).

(** How a call of [excel_tiein] ends: it returns the table, or raises its
    [Exception], whose message is built from [passes] and the table. *)
Inductive outcome : Type :=
| Returned (st : stations)
| Failed (passes : nat) (st : stations)
| OutOfFuel.

(** The [while] loop, with [fuel] bounding the number of iterations. *)
Fixpoint while_loop (fuel : nat) (rows : list tiein_row)
    (passes : nat) (st : stations) : outcome :=
  if none_in_values st then
    match fuel with
    | O => OutOfFuel
    | S fuel' =>
        let st' := one_pass rows st in
        let passes' := S passes in
        if (5 <? passes')%nat then Failed passes' st'
        else while_loop fuel' rows passes' st'
    end
  else Returned st.

Definition excel_tiein_fuel (fuel : nat) (rows : list tiein_row) : outcome :=
  while_loop fuel rows 0 (init rows).

(** Six iterations always suffice (see [while_loop_fuel]). *)
Definition excel_tiein (rows : list tiein_row) : outcome :=
  excel_tiein_fuel 6 rows.

(** The table after [n] whole sweeps, and after [n] sweeps and the first
    [j] rows of the next one: every table the [while] loop goes through is
    one of these. *)
Definition after (n : nat) (rows : list tiein_row) : stations :=
  Nat.iter n (one_pass rows) (init rows).

Definition table_at (rows : list tiein_row) (n j : nat) : stations :=
  fold_left visit (firstn j rows) (after n rows).

(** *** The survey reader *)

Section Survey.

Variable float_of_text : string -> option R.

(** Body of the loop of [excel_survey]: [Ok None] is a skipped row,
    [Ok (Some p)] a yielded point. *)
Definition survey_row_point (origin : Point) (row : survey_row)
    : result (option Point) :=
  if negb (has_distance row) then Ok None
  else
    let nm := default (VStr "") (row_Point row) in
    dv <- getitem "Dist m" (row_Dist_m row) ;;
    dist <- float float_of_text dv ;;
    av <- getitem "Azm" (row_Azm row) ;;
    azm <- float float_of_text av ;;
    iv <- getitem "Inc" (row_Inc row) ;;
    inc <- float float_of_text iv ;;
    let down := default (VNum 0) (row_Down_m row) in
    let back := default (VNum 0) (row_Back_m row) in
    p <- shot origin dist azm inc down back (Some nm) ;;
    Ok (Some p).

(** The generator [excel_survey]: the points it yields, and the exception
    that ends it if one is raised. *)
Fixpoint excel_survey (rows : list survey_row) (origin : Point)
    : list Point * option exn :=
  match rows with
  | [] => ([], None)
  | row :: rest =>
      match survey_row_point origin row with
      | Ok None => excel_survey rest origin
      | Ok (Some p) =>
          let '(ps, e) := excel_survey rest origin in (p :: ps, e)
      | Raise e => ([], Some e)
      end
  end.

End Survey.

End ice_process.

(** ** [ice_process.py] in double precision *)

Module doubles.

Local Open Scope float_scope.

(** A Python [float]: an IEEE binary64 number. *)
Abbreviation double := PrimFloat.float.

(** [math.pi], the double nearest to pi. *)
Definition pi : double := 0x1.921fb54442d18p+1.

(** [math.radians]: the argument times the constant [pi / 180]. *)
Definition radians (deg : double) : double := deg * (pi / 180).

(** [x % m] on floats: the exact remainder of [fmod], moved by [m] when
    its sign is not the sign of [m]; a zero remainder takes the sign of
    [m].  A divisor that is zero (Python raises [ZeroDivisionError]) does
    not arise, the divisor in the source being the literal [360]; [nan]
    stands in for it. *)
Definition pymod (x m : double) : double :=
  match Prim2SF x, Prim2SF m with
  | S754_zero _, S754_finite sm _ _
  | S754_zero _, S754_infinity sm => if sm then neg_zero else zero
  | S754_finite sx mx ex, S754_finite sm mm em =>
      let e := Z.min ex em in
      let r := ((Z.pos mx * 2 ^ (ex - e)) mod (Z.pos mm * 2 ^ (em - e)))%Z in
      match r with
      | Z.pos p =>
          let f := SF2Prim (S754_finite sx p e) in
          if Bool.eqb sx sm then f else f + m
      | _ => if sm then neg_zero else zero
      end
  | S754_finite sx _ _, S754_infinity sm => if Bool.eqb sx sm then x else m
  | _, _ => nan
  end.

(** [class Point] with coordinates in doubles.  The [name] slot is not
    carried: [shot] with [down], [back] and [name] at their defaults and
    the resolver leave it at [None]. *)
Record Point : Type := mkPoint {
  x : double;
  y : double;
  z : double
}.

(** A numeric cell of the tie-in sheet, and a row of it (see
    [Py.tiein_row]). *)
Inductive numcell : Type :=
| Empty
| Num (f : double).

Record tiein_row : Type := mkTie {
  tie_From : string;
  tie_To : string;
  tie_Dist_m : double;
  tie_Azm : double;
  tie_Inc : double;
  tie_UTM_East : option double;
  tie_UTM_North : option double;
  tie_Alt_m : option numcell
}.

Abbreviation stations := (gmap string (option Point)).

Definition get (st : stations) (nm : string) : option Point :=
  default None (st !! nm).

Definition none_in_values (st : stations) : bool :=
  bool_decide (map_Exists (fun _ v => v = None) st).

Inductive outcome : Type :=
| Returned (st : stations)
| Failed (passes : nat) (st : stations)
| OutOfFuel.

Section Libm.

(** [math.sin] and [math.cos], the sine and cosine of the platform's C
    library. *)
Variable sin : double -> double.
Variable cos : double -> double.

(** [Point.shot(dist, azm, inc)], as [ice_process.shot0]. *)
Definition shot0 (self : Point) (dist azm inc : double) : Point :=
  let hd := dist * cos (radians inc) in
  let x2 := hd * sin (radians azm) in
  let y2 := hd * cos (radians azm) in
  let z2 := dist * sin (radians inc) in
  mkPoint (x self + x2) (y self + y2) (z self + z2).

(** The two loops of [excel_tiein], as in [ice_process]. *)
Definition enter (st : stations) (row : tiein_row) : stations :=
  let st := <[tie_From row := get st (tie_From row)]> st in
  match tie_Alt_m row with
  | Some (Num alt) =>
      <[tie_To row :=
          Some (mkPoint (default 0 (tie_UTM_East row))
                        (default 0 (tie_UTM_North row)) alt)]> st
  | Some Empty | None =>
      <[tie_To row := get st (tie_To row)]> st
  end.

Definition init (rows : list tiein_row) : stations :=
  fold_left enter rows ∅.

Definition visit (st : stations) (row : tiein_row) : stations :=
  let azm := tie_Azm row in
  let inc := tie_Inc row in
  let dist := tie_Dist_m row in
  match get st (tie_From row), get st (tie_To row) with
  | Some _, Some _ => st
  | Some from_p, None =>
      <[tie_To row := Some (shot0 from_p dist azm inc)]> st
  | None, Some to_p =>
      <[tie_From row :=
          Some (shot0 to_p dist (pymod (azm + 180) 360) (-1 * inc))]> st
  | None, None => st
  end.

Definition one_pass (rows : list tiein_row) (st : stations) : stations :=
  fold_left visit rows st.

Fixpoint while_loop (fuel : nat) (rows : list tiein_row)
    (passes : nat) (st : stations) : outcome :=
  if none_in_values st then
    match fuel with
    | O => OutOfFuel
    | S fuel' =>
        let st' := one_pass rows st in
        let passes' := S passes in
        if (5 <? passes')%nat then Failed passes' st'
        else while_loop fuel' rows passes' st'
    end
  else Returned st.

(** Six iterations suffice, as for [ice_process.excel_tiein]: the sixth
    sweep raises. *)
Definition excel_tiein (rows : list tiein_row) : outcome :=
  while_loop 6 rows 0 (init rows).

End Libm.

(** Equality of doubles bit for bit: [-0.0] is not [0.0]. *)
Definition same (a b : double) : bool :=
  match Prim2SF a, Prim2SF b with
  | S754_zero s, S754_zero s' => Bool.eqb s s'
  | S754_infinity s, S754_infinity s' => Bool.eqb s s'
  | S754_nan, S754_nan => true
  | S754_finite s m e, S754_finite s' m' e' =>
      Bool.eqb s s' && Pos.eqb m m' && Z.eqb e e'
  | _, _ => false
  end.

(** A function given by its table; [nan] where the table has no entry. *)
Definition tabulated (table : list (double * double)) (a : double) : double :=
  match List.find (fun e => same (fst e) a) table with
  | Some e => snd e
  | None => nan
  end.

(** What [math.sin] and [math.cos] return in CPython at the angles of the
    examples below: [0], [-0.0] (from [-1 * 0.0]), and [radians] of [90],
    [-90], [180] and [270].  At a quarter turn neither function returns
    a zero where the real one has it, the double [radians 90] not being
    pi/2. *)
Definition libm_sin : double -> double :=
  tabulated [(0, 0); (-0, -0);
             (radians 90, 1); (radians (-90), -1);
             (radians 180, 0x1.1a62633145c07p-53); (radians 270, -1)].

Definition libm_cos : double -> double :=
  tabulated [(0, 1); (-0, 1);
             (radians 90, 0x1.1a62633145c07p-54);
             (radians (-90), 0x1.1a62633145c07p-54);
             (radians 180, -1); (radians 270, -0x1.a79394c9e8a0ap-53)].


(** One sight from [A0] to the fixed station [B0 = (5.0, 0.0, 0.0)]. *)
Definition backward_sheet : list tiein_row :=
  [mkTie "A0" "B0" 5 90 0 (Some 5) (Some 0) (Some (Num 0))].

End doubles.

(** ** [ice2dat.py]: the Compass survey writer *)

Module ice2dat.

Local Open Scope string_scope.

(** [compass.Shot(FROM=, TO=, BEARING=, INC=, LENGTH=)]. *)
Record Shot : Type := mkShot {
  FROM : string;
  TO : string;
  BEARING : R;
  INC : R;
  LENGTH : R
}.

(** [survey.add_shot(shot)]; of the survey only its shots are kept. *)
Definition add_shot (survey : list Shot) (shot : Shot) : list Shot :=
  survey ++ [shot].

(** [survey_id.upper().startswith('S')]. *)
Definition upper_startswith_S (survey_id : string) : bool :=
  match survey_id with
  | String c _ => Ascii.eqb c "S"%char || Ascii.eqb c "s"%char
  | EmptyString => false
  end.

(** [enumerate(rows)]. *)
Definition enumerate {A : Type} (l : list A) : list (nat * A) :=
  imap (fun i a => (i, a)) l.

Section Ice2Survey.

Variable float_of_text : string -> option R.
Variable int_of_text : string -> option Z.
(** [davies.survey_math.m2ft], metres to feet. *)
Variable m2ft : R -> R.

Variable survey_id : string.
(** The station the shots leave from, after the default is applied. *)
Variable origin : string.

(** [int(row['Point'] or i+1)]. *)
Definition point_number (i : nat) (pv : value) : result Z :=
  if truthy pv then int int_of_text pv else Ok (Z.of_nat i + 1)%Z.

(** Body of the [for] loop of [ice2survey] for the [i]-th row. *)
Definition ice2survey_row (survey : list Shot) (i : nat) (row : survey_row)
    : result (list Shot) :=
  if negb (has_distance row) then Ok survey
  else
    pv <- getitem "Point" (row_Point row) ;;
    point <- point_number i pv ;;
    av <- getitem "Azm" (row_Azm row) ;;
    azm <- float float_of_text av ;;
    dv <- getitem "Dist m" (row_Dist_m row) ;;
    dist <- float float_of_text dv ;;
    iv <- getitem "Inc" (row_Inc row) ;;
    inc <- float float_of_text iv ;;
    let dist := m2ft dist in
    let base_to := survey_id ++ fmt_02d point in
    let has_down := truthy_opt (row_Down_m row) in
    let has_back := truthy_opt (row_Back_m row) in
    (* Main survey shot *)
    let to := if has_down || has_back then base_to else "S_" ++ base_to in
    let survey := add_shot survey (mkShot origin to azm inc dist) in
    (* Optional "down" shot *)
    let down_to := if negb has_back then "S_d" ++ base_to
                   else "d" ++ base_to in
    survey <- (if has_down then
                 wv <- getitem "Down m" (row_Down_m row) ;;
                 down <- float float_of_text wv ;;
                 Ok (add_shot survey
                       (mkShot to down_to azm (-90) (m2ft down)))
               else Ok survey) ;;
    (* Optional "back" shot *)
    if has_back then
      let from_ := if has_down then down_to else to in
      let back_to := "S_b" ++ base_to in
      bv <- getitem "Back m" (row_Back_m row) ;;
      back <- float float_of_text bv ;;
      Ok (add_shot survey (mkShot from_ back_to azm 0 (m2ft back)))
    else Ok survey.

Fixpoint ice2survey_loop (survey : list Shot)
    (irows : list (nat * survey_row)) : result (list Shot) :=
  match irows with
  | [] => Ok survey
  | (i, row) :: rest =>
      survey <- ice2survey_row survey i row ;;
      ice2survey_loop survey rest
  end.

End Ice2Survey.

(** [survey_id + '0' if not origin else origin]. *)
Definition origin_station (survey_id : string) (origin : option string)
    : string :=
  match origin with
  | None | Some "" => survey_id ++ "0"
  | Some o => o
  end.

(** [ice2survey(rows, survey_id=, origin=)]: the shots of the survey it
    returns.  The guard on the reserved letter raises
    [IllegalArgumentException], a name the module never defines. *)
Definition ice2survey (float_of_text : string -> option R)
    (int_of_text : string -> option Z) (m2ft : R -> R)
    (rows : list survey_row) (survey_id : string) (origin : option string)
    : result (list Shot) :=
  if upper_startswith_S survey_id
  then Raise (NameError "IllegalArgumentException")
  else
    let origin := origin_station survey_id origin in
    ice2survey_loop float_of_text int_of_text m2ft survey_id origin
      [] (enumerate rows).

End ice2dat.

(** ** The projection as the specification words it *)

Module Spec.

Import ice_process.
Local Open Scope R_scope.

(** "Always emit [P] itself, then the down point if present, then the back
    point if present, in that order": the points of one shot, an absent
    auxiliary measurement being [None].  The back point is chained "from
    the down point if one was taken, else from [P]". *)
Definition project_shot (origin : Point) (dist azm inc : R)
    (down back : option R) : list Point :=
  let P := shot0 origin dist azm inc in
  let D := (fun d => shot0 P d azm (-90)) <$> down in
  let B := (fun b => shot0 (default P D) b azm 0) <$> back in
  P :: option_list D ++ option_list B.

End Spec.

(** ** Sample worksheets *)

Module Samples.

Import ice_process.
Local Open Scope R_scope.

(** Readers for text cells that accept no text at all, and a conversion
    to feet. *)
Definition no_float : string -> option R := fun _ => None.
Definition no_int : string -> option Z := fun _ => None.
Definition feet : R -> R := fun m => m / 0.3048.

Definition zero_point : Point := mkPoint 0 0 0 None.

(** Survey rows: point 1, ten metres at bearing 90, level; without
    auxiliary measurements, with a drop of 2 m, and with a drop of 2 m and
    a back sight of 3 m. *)
Definition plain_row : survey_row :=
  mkRow (Some (VNum 1)) (Some (VNum 90)) (Some (VNum 10)) (Some (VNum 0))
        (Some (VStr "")) (Some (VStr "")).

Definition down_row : survey_row :=
  mkRow (Some (VNum 1)) (Some (VNum 90)) (Some (VNum 10)) (Some (VNum 0))
        (Some (VNum 2)) (Some (VStr "")).

Definition down_back_row : survey_row :=
  mkRow (Some (VNum 1)) (Some (VNum 90)) (Some (VNum 10)) (Some (VNum 0))
        (Some (VNum 2)) (Some (VNum 3)).

(** One sight from [A0] to the fixed station [B0 = (5, 0, 0)]. *)
Definition backward_sheet : list tiein_row :=
  [mkTie "A0" "B0" 5 90 0 (Some 5) (Some 0) (Some (Num 0))].

(** One sight between two stations, neither of them fixed. *)
Definition loose_sheet : list tiein_row :=
  [mkTie "X0" "Y0" 1 0 0 None None None].

(** Two sights to the station [F1], each row giving it coordinates. *)
Definition twice_fixed_sheet : list tiein_row :=
  [mkTie "A0" "F1" 1 0 0 (Some 1) (Some 2) (Some (Num 3));
   mkTie "B0" "F1" 1 0 0 (Some 4) (Some 5) (Some (Num 6))].

(** A table with both ends of [backward_sheet]'s row resolved, and one
    with only its [From] end resolved. *)
Definition both_known : stations :=
  <["B0" := Some (mkPoint 5 0 0 None)]>
    (<["A0" := Some (mkPoint 0 0 0 None)]> ∅).

Definition from_known : stations :=
  <["B0" := None]> (<["A0" := Some (mkPoint 0 0 0 None)]> ∅).

End Samples.

(** ** Text methods *)

Module Text.

(** Sheet names are taken as texts of characters below U+0100, one
    [ascii] per character. *)

(** One character of [s.lower()]: the letters [A] to [Z] and the capital
    letters of Latin-1, U+00C0 to U+00DE without the multiplication sign
    U+00D7, move up by 32. *)
Definition lower_char (c : ascii) : ascii :=
  let n := nat_of_ascii c in
  if (((65 <=? n) && (n <=? 90))
      || ((192 <=? n) && (n <=? 222) && negb (n =? 215)))%nat
  then ascii_of_nat (n + 32) else c.

(** [s.lower()]. *)
Fixpoint lower (s : string) : string :=
  match s with
  | EmptyString => EmptyString
  | String c s' => String (lower_char c) (lower s')
  end.

(** [s.replace(c, '')] for a one-character [c]. *)
Fixpoint remove_char (c : ascii) (s : string) : string :=
  match s with
  | EmptyString => EmptyString
  | String a s' =>
      if Ascii.eqb a c then remove_char c s' else String a (remove_char c s')
  end.

(** [needle in s]. *)
Fixpoint contains (needle s : string) : bool :=
  String.prefix needle s
  || match s with
     | EmptyString => false
     | String _ s' => contains needle s'
     end.

(** The characters [s.split()] splits at: tab to carriage return, the
    four separators, the space, and of Latin-1 the next-line control
    U+0085 and the no-break space U+00A0. *)
Definition is_space (c : ascii) : bool :=
  let n := nat_of_ascii c in
  (((9 <=? n) && (n <=? 13)) || ((28 <=? n) && (n <=? 32))
   || (n =? 133) || (n =? 160))%nat.

(** The characters of [s] up to its first whitespace. *)
Fixpoint take_word (s : string) : string :=
  match s with
  | EmptyString => EmptyString
  | String c s' => if is_space c then EmptyString else String c (take_word s')
  end.

(** [s.split()[0]]; [None] is the [IndexError] of a name without a
    word. *)
Fixpoint first_word (s : string) : option string :=
  match s with
  | EmptyString => None
  | String c s' => if is_space c then first_word s' else Some (take_word s)
  end.

(** [s.split(' ', 1)[0]]. *)
Fixpoint before_space (s : string) : string :=
  match s with
  | EmptyString => EmptyString
  | String c s' =>
      if Ascii.eqb c " "%char then EmptyString
      else String c (before_space s')
  end.

(** [chr(n)], which Python 2 refuses from 256 on. *)
Definition chr (n : nat) : result ascii :=
  if (n <? 256)%nat then Ok (ascii_of_nat n) else Raise ValueError.

End Text.

(** ** Worksheets *)

Module Sheets.

(** An [xlrd] worksheet: its name, the texts of its first row, and the
    cells of the rows below.  A sheet with no row at all is the record
    without headers; on it [worksheet.row(0)] raises [IndexError] in the
    constructor of the reader. *)
Record worksheet : Type := mkSheet {
  sheet_name : string;
  sheet_headers : list string;
  sheet_cells : list (list value)
}.

(** [dict(zip(keys, vals))]: the shorter list ends the pairing and a key
    met again takes the later value. *)
Definition dict_of_zip (keys : list string) (vals : list value)
    : gmap string value :=
  fold_left (fun d kv => <[fst kv := snd kv]> d) (zip keys vals) ∅.

(** [ExcelWorksheetReader(sheet)], iterated, for a sheet that has its
    header row: one [dict] per row below the headers. *)
Definition ExcelWorksheetReader (sheet : worksheet)
    : list (gmap string value) :=
  List.map (dict_of_zip (sheet_headers sheet)) (sheet_cells sheet).

(** A row [dict] as the survey readers look at it. *)
Definition survey_row_of (d : gmap string value) : survey_row :=
  mkRow (d !! "Point") (d !! "Azm") (d !! "Dist m") (d !! "Inc")
        (d !! "Down m") (d !! "Back m").

Definition survey_rows (sheet : worksheet) : list survey_row :=
  List.map survey_row_of (ExcelWorksheetReader sheet).

End Sheets.

(** ** [ice_process.py]: the workbook *)

Module ice_process_book.

Import Text Sheets ice_process.
Local Open Scope string_scope.

(** Is this worksheet a "tie-in survey"? *)
Definition is_tiein_survey (sheet : worksheet) : bool :=
  String.eqb (lower (remove_char "-"%char (sheet_name sheet))) "tiein".

(** Is this worksheet a secondary "transect survey"? *)
Definition is_transect_survey (sheet : worksheet) : bool :=
  contains "transect" (lower (sheet_name sheet)).

(** Is this worksheet a main "perimeter survey"? *)
Definition is_perimeter_survey (sheet : worksheet) : bool :=
  negb (is_transect_survey sheet) && negb (is_tiein_survey sheet).

(** [find_tiein_sheet]; [None] is its [Exception]. *)
Fixpoint find_tiein_sheet (workbook : list worksheet) : option worksheet :=
  match workbook with
  | [] => None
  | sheet :: rest =>
      if is_tiein_survey sheet then Some sheet else find_tiein_sheet rest
  end.

Definition find_survey_sheets (workbook : list worksheet) : list worksheet :=
  List.filter (fun s => negb (is_tiein_survey s)) workbook.

Definition find_perimeter_survey_sheets (workbook : list worksheet)
    : list worksheet :=
  List.filter is_perimeter_survey workbook.

Definition find_transect_survey_sheets (workbook : list worksheet)
    : list worksheet :=
  List.filter is_transect_survey workbook.

(** [tripod_station_name]; [None] is the [IndexError] of [split()[0]]. *)
Definition tripod_station_name (sheet : worksheet) : option string :=
  match first_word (sheet_name sheet) with
  | Some w => Some (w ++ "0")
  | None => None
  end.

(** How [process] can end before its files are saved. *)
Inductive failure : Type :=
| NoTieInSheet
| NotGeoreferenced (passes : nat) (st : stations)
| OutOfSweeps
| NoSheetWord (sheet : string)
| UnknownStation (station : string)
| UnplacedStation (station : string)
| RowError (e : exn).

(** What [process] has handed to its three writers: the records of the
    point layer (name, elevation, coordinates), the rows of the CSV file
    below its header, and the polygons of the perimeter layer. *)
Record outputs : Type := mkOut {
  out_points : list (option value * R * (R * R * R));
  out_csv : list (R * R * R);
  out_perimeter : list (string * list (R * R * R))
}.

Definition no_outputs : outputs := mkOut [] [] [].

(** The three statements both branches run for a point. *)
Definition write_point (out : outputs) (p : Point) : outputs :=
  mkOut (out_points out ++ [(name p, z p, coords p)])
        (out_csv out ++ [coords p])
        (out_perimeter out).

Section Process.

Variable float_of_text : string -> option R.
(** The rows of the tie-in sheet, read as the typed rows of the
    resolver. *)
Variable tiein_rows : worksheet -> list tiein_row.

(** [excel_survey(sheet, origin)]. *)
Definition excel_survey_sheet (sheet : worksheet) (origin : Point)
    : list Point * option exn :=
  excel_survey float_of_text (survey_rows sheet) origin.

(** Body of the loop of [process] over the survey sheets.  A perimeter
    sheet is read into a list first, so an exception leaves nothing of it
    written; a transect sheet is written point by point.  The [Some None]
    entry cannot be met: a returned table holds no [None]. *)
Definition process_sheet (fixed : stations) (out : outputs)
    (sheet : worksheet) : outputs * option failure :=
  match tripod_station_name sheet with
  | None => (out, Some (NoSheetWord (sheet_name sheet)))
  | Some k =>
      match fixed !! k with
      | None => (out, Some (UnknownStation k))
      | Some None => (out, Some (UnplacedStation k))
      | Some (Some origin) =>
          let '(points, e) := excel_survey_sheet sheet origin in
          if is_perimeter_survey sheet then
            match e with
            | Some e => (out, Some (RowError e))
            | None =>
                let out := fold_left write_point points out in
                (mkOut (out_points out) (out_csv out)
                       (out_perimeter out
                        ++ [(sheet_name sheet, List.map coords points)]),
                 None)
            end
          else if is_transect_survey sheet then
            (fold_left write_point points out, option_map RowError e)
          else (out, None)
      end
  end.

Fixpoint process_sheets (fixed : stations) (out : outputs)
    (sheets : list worksheet) : outputs * option failure :=
  match sheets with
  | [] => (out, None)
  | sheet :: rest =>
      match process_sheet fixed out sheet with
      | (out, None) => process_sheets fixed out rest
      | (out, Some f) => (out, Some f)
      end
  end.

(** [process], up to the point where the layers are saved. *)
Definition process (book : list worksheet) : outputs * option failure :=
  match find_tiein_sheet book with
  | None => (no_outputs, Some NoTieInSheet)
  | Some tie =>
      match excel_tiein (tiein_rows tie) with
      | Returned fixed =>
          process_sheets fixed no_outputs (find_survey_sheets book)
      | Failed passes st => (no_outputs, Some (NotGeoreferenced passes st))
      | OutOfFuel => (no_outputs, Some OutOfSweeps)
      end
  end.

End Process.

End ice_process_book.

(** ** [ice2dat.py]: the workbook *)

Module ice2dat_book.

Import Text Sheets ice2dat.
Local Open Scope string_scope.

(** Is this worksheet a "tie-in survey"? *)
Definition is_tiein (sheet : worksheet) : bool :=
  String.eqb (lower (remove_char "-"%char (sheet_name sheet))) "tiein".

Section Convert.

Variable float_of_text : string -> option R.
Variable int_of_text : string -> option Z.
Variable m2ft : R -> R.
Variable tiein_rows : worksheet -> list tiein_row.

(** [excel_survey(sheet, survey_id=...)]: the shots of the survey. *)
Definition excel_survey (sheet : worksheet) (survey_id : string)
    : result (list Shot) :=
  let origin := before_space (sheet_name sheet) ++ "0" in
  ice2survey float_of_text int_of_text m2ft (survey_rows sheet)
    survey_id (Some origin).

(** [excel_tiein(sheet, project)]: the shots of the survey ['Tie'], one
    per row (their comments are not kept), and the stations it links to
    coordinates. *)
Definition excel_tiein (sheet : worksheet)
    : list Shot * list (string * (R * R * R)) :=
  let rows := tiein_rows sheet in
  (List.map (fun row => mkShot (tie_From row) (tie_To row) (tie_Azm row)
                          (tie_Inc row) (m2ft (tie_Dist_m row))) rows,
   flat_map (fun row =>
               match tie_Alt_m row with
               | Some (Num alt) =>
                   [(tie_To row,
                     (default 0%R (tie_UTM_East row),
                      default 0%R (tie_UTM_North row), alt))]
               | Some Empty | None => []
               end) rows).

(** What [excel2datfile] has gathered: the surveys of the [.dat] file,
    by name, and the linked stations of the project. *)
Record datfile : Type := mkDat {
  surveys : list (string * list Shot);
  linked_stations : list (string * (R * R * R))
}.

(** The loop of [excel2datfile] over [enumerate(book.sheets())], from
    index [i] on. *)
Fixpoint excel2datfile_loop (i : nat) (sheets : list worksheet)
    (dat : datfile) : result datfile :=
  match sheets with
  | [] => Ok dat
  | sheet :: rest =>
      dat <- (if is_tiein sheet then
                let '(shots, linked) := excel_tiein sheet in
                Ok (mkDat (surveys dat ++ [("Tie", shots)])
                          (linked_stations dat ++ linked))
              else
                c <- chr (65 + i) ;;
                let survey_id := String c EmptyString in
                shots <- excel_survey sheet survey_id ;;
                Ok (mkDat (surveys dat ++ [(survey_id, shots)])
                          (linked_stations dat))) ;;
      excel2datfile_loop (S i) rest dat
  end.

Definition excel2datfile (sheets : list worksheet) : result datfile :=
  excel2datfile_loop 0 sheets (mkDat [] []).

End Convert.

End ice2dat_book.

(** ** Shapes of tie-in sheets *)

Module Layout.

(** A list of sights is laid out outward when each row leaves from a
    station already met: one of [seen], or the far end of an earlier row. *)
Fixpoint outward (seen : list string) (rows : list tiein_row) : Prop :=
  match rows with
  | [] => True
  | row :: rest =>
      In (tie_From row) seen /\ outward (tie_To row :: seen) rest
  end.

(** A row that fixes its [To] station. *)
Definition fixes (row : tiein_row) : Prop :=
  exists alt, tie_Alt_m row = Some (Num alt).

(** The station names of a list of rows. *)
Definition names (rows : list tiein_row) (k : string) : Prop :=
  exists row, In row rows /\ (k = tie_From row \/ k = tie_To row).

End Layout.

(** ** Shapes of survey output *)

Module Shape.

Import ice_process ice2dat.
Local Open Scope R_scope.

(** A point moved by a vector, its name kept. *)
Definition translate (dx dy dz : R) (p : Point) : Point :=
  mkPoint (x p + dx) (y p + dy) (z p + dz) (name p).

(** Shots that follow one another: the first leaves from [o], each next
    one from the station the previous one went to. *)
Fixpoint path_from (o : string) (shots : list Shot) : Prop :=
  match shots with
  | [] => True
  | s :: rest => FROM s = o /\ path_from (TO s) rest
  end.

(** The first character of a string is the given one. *)
Definition starts_with (c : ascii) (s : string) : Prop :=
  exists rest, s = String c rest.

(** The shots one row of a survey sheet can add, [base] being the
    station name built from the survey id and the point number: the primary
    shot alone, with a drop, with a back sight, or with both. *)
Definition row_group (sid o : string) (g : list Shot) : Prop :=
  exists (point : Z) (az inc l1 l2 l3 : R),
    let base := (sid ++ fmt_02d point)%string in
    g = [mkShot o ("S_" ++ base)%string az inc l1]
    \/ g = [mkShot o base az inc l1;
            mkShot base ("S_d" ++ base)%string az (-90) l2]
    \/ g = [mkShot o base az inc l1;
            mkShot base ("S_b" ++ base)%string az 0 l3]
    \/ g = [mkShot o base az inc l1;
            mkShot base ("d" ++ base)%string az (-90) l2;
            mkShot ("d" ++ base)%string ("S_b" ++ base)%string az 0 l3].

(** The CSV rows are the coordinates of the point records, in the same
    order, and every record gives as elevation the height of its point. *)
Definition written_alike (out : ice_process_book.outputs) : Prop :=
  List.map snd (ice_process_book.out_points out) = ice_process_book.out_csv out
  /\ Forall (fun r => snd (fst r) = snd (snd r))
        (ice_process_book.out_points out).

End Shape.

(** ** More sample worksheets *)

Module MoreSamples.

Import Sheets.
Local Open Scope R_scope.

(** A traverse [P0 -> P1 -> ... -> P6], written down from its far end
    back to the fixed station [P0]: each sweep places one more station. *)
Definition far_end_first_sheet : list tiein_row :=
  [mkTie "P5" "P6" 1 90 0 None None None;
   mkTie "P4" "P5" 1 90 0 None None None;
   mkTie "P3" "P4" 1 90 0 None None None;
   mkTie "P2" "P3" 1 90 0 None None None;
   mkTie "P1" "P2" 1 90 0 None None None;
   mkTie "P0" "P1" 1 90 0 None None None;
   mkTie "X0" "P0" 1 90 0 (Some 0) (Some 0) (Some (Num 0))].

(** The same traverse written down in walking order. *)
Definition walking_order_sheet : list tiein_row :=
  [mkTie "X0" "P0" 1 90 0 (Some 0) (Some 0) (Some (Num 0));
   mkTie "P0" "P1" 1 90 0 None None None;
   mkTie "P1" "P2" 1 90 0 None None None;
   mkTie "P2" "P3" 1 90 0 None None None;
   mkTie "P3" "P4" 1 90 0 None None None;
   mkTie "P4" "P5" 1 90 0 None None None;
   mkTie "P5" "P6" 1 90 0 None None None].

(** A survey row with a distance but no [Azm] column, and a row whose
    [Point] cell is empty. *)
Definition no_azimuth_row : survey_row :=
  mkRow (Some (VNum 2)) None (Some (VNum 10)) (Some (VNum 0)) None None.

Definition unnumbered_row : survey_row :=
  mkRow (Some (VStr "")) (Some (VNum 0)) (Some (VNum 4)) (Some (VNum 0))
        (Some (VNum 1)) None.

Definition blank_row : survey_row :=
  mkRow (Some (VStr "")) (Some (VStr "")) (Some (VStr "")) (Some (VStr ""))
        (Some (VStr "")) (Some (VStr "")).

(** A small workbook: the tie-in sheet of [backward_sheet], a perimeter
    sheet with one measured row, and a perimeter and a transect sheet whose
    only row is still empty. *)
Definition survey_headers : list string :=
  ["Point"; "Azm"; "Dist m"; "Inc"; "Down m"; "Back m"; "Comment"]%string.

Definition tie_sheet : worksheet :=
  mkSheet "Tie-In"
    ["From"; "To"; "Dist m"; "Azm"; "Inc"; "Comment";
     "UTM East"; "UTM North"; "Alt m"]%string
    [[VStr "A0"; VStr "B0"; VNum 5; VNum 90; VNum 0; VStr "";
      VNum 5; VNum 0; VNum 0]].

Definition front_room : worksheet :=
  mkSheet "A Front Room" survey_headers
    [[VNum 1; VNum 90; VNum 10; VNum 0; VStr ""; VStr ""; VStr ""]].

Definition empty_room : worksheet :=
  mkSheet "B Back Room" survey_headers
    [[VStr ""; VStr ""; VStr ""; VStr ""; VStr ""; VStr ""; VStr ""]].

Definition empty_transect : worksheet :=
  mkSheet "B Back Transect" survey_headers
    [[VStr ""; VStr ""; VStr ""; VStr ""; VStr ""; VStr ""; VStr ""]].

(** A sheet whose distance column goes by another name. *)
Definition misnamed_sheet : worksheet :=
  mkSheet "C Side Room"
    ["Point"; "Azm"; "Distance"; "Inc"]%string
    [[VNum 1; VNum 90; VNum 10; VNum 0]].

(** The tie-in sheet read as typed rows. *)
Definition read_tiein : worksheet -> list tiein_row :=
  fun _ => Samples.backward_sheet.

Definition small_book : list worksheet :=
  [tie_sheet; empty_room; empty_transect].

(** Nineteen sheets, the last of them a survey sheet. *)
Definition long_book : list worksheet :=
  repeat empty_room 18 ++ [misnamed_sheet].

End MoreSamples.

(** * Properties *)

Import ice_process ice2dat Samples Layout Shape MoreSamples.
Import Text Sheets.

(** ** Truthiness and angles *)

Lemma truthy_zero : truthy (VNum 0) = false.
Proof.
  simpl. destruct (Req_dec_T 0 0) as [_ | H]; [reflexivity | now elim H].
Qed.

Lemma truthy_nonzero (r : R) : r <> 0%R -> truthy (VNum r) = true.
Proof.
  intros H. simpl.
  destruct (Req_dec_T r 0) as [E | _]; [now elim H | reflexivity].
Qed.

Lemma truthy_empty : truthy (VStr "") = false.
Proof. reflexivity. Qed.

Section Angles.

Local Open Scope R_scope.

Lemma radians_0 : radians 0 = 0.
Proof. unfold radians. lra. Qed.

Lemma radians_90 : radians 90 = PI / 2.
Proof. unfold radians. lra. Qed.

Lemma radians_neg90 : radians (-90) = - (PI / 2).
Proof. unfold radians. lra. Qed.

Lemma radians_270 : radians 270 = 3 * (PI / 2).
Proof. unfold radians. lra. Qed.

Lemma radians_opp (a : R) : radians (- a) = - radians a.
Proof. unfold radians. lra. Qed.

Lemma radians_half_turn (a : R) : radians (a + 180) = radians a + PI.
Proof. unfold radians. lra. Qed.

(** Whole turns, counted by an integer of either sign, do not change
    sine and cosine. *)
Lemma sin_turns (t : R) (k : Z) : sin (t - 2 * IZR k * PI) = sin t.
Proof.
  destruct (Z_le_gt_dec 0 k) as [Hk | Hk].
  - rewrite <- (Z2Nat.id k Hk), <- INR_IZR_INZ.
    rewrite <- (sin_period (t - 2 * INR (Z.to_nat k) * PI) (Z.to_nat k)).
    f_equal. lra.
  - assert (Hk' : (0 <= - k)%Z) by lia.
    replace (t - 2 * IZR k * PI) with (t + 2 * IZR (- k) * PI)
      by (rewrite opp_IZR; lra).
    rewrite <- (Z2Nat.id (- k) Hk'), <- INR_IZR_INZ.
    apply sin_period.
Qed.

Lemma cos_turns (t : R) (k : Z) : cos (t - 2 * IZR k * PI) = cos t.
Proof.
  destruct (Z_le_gt_dec 0 k) as [Hk | Hk].
  - rewrite <- (Z2Nat.id k Hk), <- INR_IZR_INZ.
    rewrite <- (cos_period (t - 2 * INR (Z.to_nat k) * PI) (Z.to_nat k)).
    f_equal. lra.
  - assert (Hk' : (0 <= - k)%Z) by lia.
    replace (t - 2 * IZR k * PI) with (t + 2 * IZR (- k) * PI)
      by (rewrite opp_IZR; lra).
    rewrite <- (Z2Nat.id (- k) Hk'), <- INR_IZR_INZ.
    apply cos_period.
Qed.

Lemma radians_pymod_360 (a : R) :
  radians (pymod a 360) = radians a - 2 * IZR (Int_part (a / 360)) * PI.
Proof. unfold radians, pymod. lra. Qed.

(** The reversed azimuth [(azm + 180) % 360] points the opposite way. *)
Lemma sin_reversed (a : R) :
  sin (radians (pymod (a + 180) 360)) = - sin (radians a).
Proof.
  rewrite radians_pymod_360, sin_turns, radians_half_turn. apply neg_sin.
Qed.

Lemma cos_reversed (a : R) :
  cos (radians (pymod (a + 180) 360)) = - cos (radians a).
Proof.
  rewrite radians_pymod_360, cos_turns, radians_half_turn. apply neg_cos.
Qed.

(** A remainder that needs no reduction. *)
Lemma pymod_small (a m : R) : 0 <= a < m -> pymod a m = a.
Proof.
  intros [Ha Ham]. unfold pymod.
  assert (Hm : 0 < m) by lra.
  assert (Hi : 0 < / m) by now apply Rinv_0_lt_compat.
  assert (Hq0 : 0 <= a / m) by (apply Rmult_le_pos; lra).
  assert (Hq1 : a / m < 1).
  { replace 1 with (m * / m) by (apply Rinv_r; lra).
    now apply Rmult_lt_compat_r. }
  assert (H0 : Int_part (a / m) = 0%Z).
  { symmetry. apply Int_part_spec. simpl. lra. }
  rewrite H0. simpl. lra.
Qed.

End Angles.

(** ** Doubles *)

(** Two doubles that compare unequal are not the same double. *)
Lemma double_differs (a b : PrimFloat.float) :
  PrimFloat.eqb a b = false -> PrimFloat.eqb b b = true -> a <> b.
Proof. intros H Hb ->. rewrite Hb in H. discriminate H. Qed.

(** Six iterations end the resolver in doubles as well, whatever the sine
    and cosine: the sixth sweep raises. *)
Lemma doubles_while_loop_ends sin cos fuel rows passes st :
  (passes <= 5)%nat -> (6 <= passes + fuel)%nat ->
  doubles.while_loop sin cos fuel rows passes st <> doubles.OutOfFuel.
Proof.
  revert passes st. induction fuel as [| fuel IH]; intros passes st Hp Hf.
  - lia.
  - simpl. destruct (doubles.none_in_values st); [| discriminate].
    destruct (Nat.ltb_spec 5 (S passes)); [discriminate |].
    apply IH; lia.
Qed.

Lemma doubles_excel_tiein_ends sin cos rows :
  doubles.excel_tiein sin cos rows <> doubles.OutOfFuel.
Proof. apply doubles_while_loop_ends; lia. Qed.

(** ** The geometry of [Point.shot] *)

Section Geometry.

Local Open Scope R_scope.

Lemma shot_defaults (self : Point) (dist azm inc : R) :
  shot self dist azm inc (VNum 0) (VNum 0) None
  = Ok (shot0 self dist azm inc).
Proof. unfold shot. rewrite truthy_zero. reflexivity. Qed.

(** Equality of points built by the constructor, coordinate by
    coordinate. *)
Lemma point_eq (x1 y1 z1 x2 y2 z2 : R) (n : option value) :
  x1 = x2 -> y1 = y2 -> z1 = z2 -> mkPoint x1 y1 z1 n = mkPoint x2 y2 z2 n.
Proof. intros -> -> ->. reflexivity. Qed.

(** A shot straight up or straight down has no horizontal run. *)
Lemma shot0_up (p : Point) (d a : R) :
  shot0 p d a 90 = mkPoint (x p) (y p) (z p + d) None.
Proof.
  unfold shot0. rewrite radians_90, cos_PI2, sin_PI2.
  apply point_eq; lra.
Qed.

Lemma shot0_down (p : Point) (d a : R) :
  shot0 p d a (-90) = mkPoint (x p) (y p) (z p - d) None.
Proof.
  unfold shot0. rewrite radians_neg90, cos_neg, sin_neg, cos_PI2, sin_PI2.
  apply point_eq; lra.
Qed.

(** A level shot keeps the height. *)
Lemma shot0_level (p : Point) (d a : R) :
  shot0 p d a 0
  = mkPoint (x p + d * sin (radians a)) (y p + d * cos (radians a))
            (z p) None.
Proof.
  unfold shot0. rewrite radians_0, cos_0, sin_0.
  apply point_eq; lra.
Qed.

(** In exact arithmetic a shot with no auxiliary measurement returns the
    origin moved by [(h * sin azm, h * cos azm, dist * sin inc)], where
    [h = dist * cos inc]; ten metres at bearing 90 from the zero point land
    at [(10, 0, 0)], and at bearing 0 at [(0, 10, 0)]. *)
Lemma shot_translates_exactly :
  (forall (origin : Point) (dist azm inc : R),
      let h := dist * cos (radians inc) in
      shot origin dist azm inc (VNum 0) (VNum 0) None
      = Ok (mkPoint (x origin + h * sin (radians azm))
                    (y origin + h * cos (radians azm))
                    (z origin + dist * sin (radians inc)) None))
  /\ shot (mkPoint 0 0 0 None) 10 90 0 (VNum 0) (VNum 0) None
     = Ok (mkPoint 10 0 0 None)
  /\ shot (mkPoint 0 0 0 None) 10 0 0 (VNum 0) (VNum 0) None
     = Ok (mkPoint 0 10 0 None).
Proof.
  split; [| split].
  - intros origin dist azm inc h. rewrite shot_defaults. reflexivity.
  - rewrite shot_defaults, shot0_level, radians_90, sin_PI2, cos_PI2.
    simpl. f_equal. apply point_eq; lra.
  - rewrite shot_defaults, shot0_level, radians_0, sin_0, cos_0.
    simpl. f_equal. apply point_eq; lra.
Qed.

(** C4, as stated, fails in the arithmetic of the code: ten metres at
    bearing 90 from [(0.0, 0.0, 0.0)] do not land on [(10, 0, 0)]; the
    northing is [10 * cos (radians 90)], and that cosine is [6.1e-17]. *)
Lemma east_shot_is_off_the_axis :
  doubles.shot0 doubles.libm_sin doubles.libm_cos
    (doubles.mkPoint 0 0 0) 10 90 0
  <> doubles.mkPoint 10 0 0.
Proof.
  intros E. apply (f_equal doubles.y) in E. vm_compute in E.
  revert E. apply double_differs; reflexivity.
Qed.

(** C4, amended.  A shot with no auxiliary measurement returns the origin
    moved by [(h * sin azm, h * cos azm, dist * sin inc)], where
    [h = dist * cos inc] and the azimuth is a compass bearing, in exact
    arithmetic and, each operation rounded, in doubles.  Ten metres at
    bearing 90 from the zero point land at [(10, 0, 0)] in exact
    arithmetic and at [(10.0, 6.123233995736766e-16, 0.0)] in doubles; at
    bearing 0 they land at [(0, 10, 0)] in both. *)
Theorem shot_translates_origin :
  ((forall (origin : Point) (dist azm inc : R),
      let h := dist * cos (radians inc) in
      shot origin dist azm inc (VNum 0) (VNum 0) None
      = Ok (mkPoint (x origin + h * sin (radians azm))
                    (y origin + h * cos (radians azm))
                    (z origin + dist * sin (radians inc)) None))
   /\ shot (mkPoint 0 0 0 None) 10 90 0 (VNum 0) (VNum 0) None
      = Ok (mkPoint 10 0 0 None)
   /\ shot (mkPoint 0 0 0 None) 10 0 0 (VNum 0) (VNum 0) None
      = Ok (mkPoint 0 10 0 None))
  /\ (forall (sin cos : PrimFloat.float -> PrimFloat.float)
        (origin : doubles.Point) (dist azm inc : PrimFloat.float),
      let h := (dist * cos (doubles.radians inc))%float in
      doubles.shot0 sin cos origin dist azm inc
      = doubles.mkPoint
          (doubles.x origin + h * sin (doubles.radians azm))%float
          (doubles.y origin + h * cos (doubles.radians azm))%float
          (doubles.z origin + dist * sin (doubles.radians inc))%float)
  /\ doubles.shot0 doubles.libm_sin doubles.libm_cos
       (doubles.mkPoint 0 0 0) 10 90 0
     = doubles.mkPoint 10 0x1.60fafbfd97309p-51 0
  /\ doubles.shot0 doubles.libm_sin doubles.libm_cos
       (doubles.mkPoint 0 0 0) 10 0 0
     = doubles.mkPoint 0 10 0.
Proof.
  split; [exact shot_translates_exactly |].
  split; [intros; reflexivity |].
  split; vm_compute; reflexivity.
Qed.

(** In exact arithmetic a vertical shot does not depend on its azimuth,
    upwards or downwards. *)
Lemma vertical_shot_exactly :
  (forall (p : Point) (d a1 a2 : R),
      shot p d a1 90 (VNum 0) (VNum 0) None
      = shot p d a2 90 (VNum 0) (VNum 0) None)
  /\ (forall (p : Point) (d a1 a2 : R),
      shot p d a1 (-90) (VNum 0) (VNum 0) None
      = shot p d a2 (-90) (VNum 0) (VNum 0) None)
  /\ (forall a : R,
      shot (mkPoint 0 0 0 None) 5 a 90 (VNum 0) (VNum 0) None
      = Ok (mkPoint 0 0 5 None)).
Proof.
  split; [| split].
  - intros p d a1 a2. rewrite !shot_defaults, !shot0_up. reflexivity.
  - intros p d a1 a2. rewrite !shot_defaults, !shot0_down. reflexivity.
  - intros a. rewrite shot_defaults, shot0_up. simpl.
    f_equal. apply point_eq; lra.
Qed.

(** C7, as stated, fails in the arithmetic of the code: five metres
    straight up from [(0.0, 0.0, 0.0)] end at different points for the
    azimuths 0 and 90, and at [(0, 0, 5)] for neither. *)
Lemma vertical_shot_leans_with_the_azimuth :
  doubles.shot0 doubles.libm_sin doubles.libm_cos
    (doubles.mkPoint 0 0 0) 5 0 90
  <> doubles.shot0 doubles.libm_sin doubles.libm_cos
       (doubles.mkPoint 0 0 0) 5 90 90
  /\ doubles.shot0 doubles.libm_sin doubles.libm_cos
       (doubles.mkPoint 0 0 0) 5 0 90
     <> doubles.mkPoint 0 0 5
  /\ doubles.shot0 doubles.libm_sin doubles.libm_cos
       (doubles.mkPoint 0 0 0) 5 90 90
     <> doubles.mkPoint 0 0 5.
Proof.
  split; [| split]; intros E.
  - apply (f_equal doubles.x) in E. vm_compute in E.
    revert E. apply double_differs; reflexivity.
  - apply (f_equal doubles.y) in E. vm_compute in E.
    revert E. apply double_differs; reflexivity.
  - apply (f_equal doubles.x) in E. vm_compute in E.
    revert E. apply double_differs; reflexivity.
Qed.

(** C7, amended.  In exact arithmetic a vertical shot does not depend on
    its azimuth, upwards (inclination 90) or downwards (inclination -90),
    and five metres straight up from the zero point is [(0, 0, 5)]
    whatever the azimuth.  In doubles the height of a shot does not
    depend on the azimuth, at any inclination and with any sine and
    cosine, but a vertical shot keeps the horizontal run
    [d * cos (radians 90)], about [d * 6.1e-17]: five metres up from
    [(0.0, 0.0, 0.0)] end at [(0.0, 3.06e-16, 5.0)] for the azimuth 0 and
    at [(3.06e-16, 1.87e-32, 5.0)] for the azimuth 90. *)
Theorem vertical_shot_ignores_azimuth :
  ((forall (p : Point) (d a1 a2 : R),
      shot p d a1 90 (VNum 0) (VNum 0) None
      = shot p d a2 90 (VNum 0) (VNum 0) None)
   /\ (forall (p : Point) (d a1 a2 : R),
       shot p d a1 (-90) (VNum 0) (VNum 0) None
       = shot p d a2 (-90) (VNum 0) (VNum 0) None)
   /\ (forall a : R,
       shot (mkPoint 0 0 0 None) 5 a 90 (VNum 0) (VNum 0) None
       = Ok (mkPoint 0 0 5 None)))
  /\ (forall (sin cos : PrimFloat.float -> PrimFloat.float)
        (p : doubles.Point) (d a1 a2 inc : PrimFloat.float),
      doubles.z (doubles.shot0 sin cos p d a1 inc)
      = doubles.z (doubles.shot0 sin cos p d a2 inc))
  /\ (forall (sin cos : PrimFloat.float -> PrimFloat.float)
        (p : doubles.Point) (d a : PrimFloat.float),
      let run := (d * cos (doubles.radians 90))%float in
      doubles.shot0 sin cos p d a 90
      = doubles.mkPoint
          (doubles.x p + run * sin (doubles.radians a))%float
          (doubles.y p + run * cos (doubles.radians a))%float
          (doubles.z p + d * sin (doubles.radians 90))%float)
  /\ doubles.libm_cos (doubles.radians 90) = 0x1.1a62633145c07p-54%float
  /\ doubles.shot0 doubles.libm_sin doubles.libm_cos
       (doubles.mkPoint 0 0 0) 5 0 90
     = doubles.mkPoint 0 0x1.60fafbfd97309p-52 5
  /\ doubles.shot0 doubles.libm_sin doubles.libm_cos
       (doubles.mkPoint 0 0 0) 5 90 90
     = doubles.mkPoint 0x1.60fafbfd97309p-52 0x1.855c226ecf49bp-106 5.
Proof.
  split; [exact vertical_shot_exactly |].
  split; [intros; reflexivity |].
  split; [intros; reflexivity |].
  split; [| split]; vm_compute; reflexivity.
Qed.





End Geometry.

(** ** The tie-in resolver *)

Section Resolver.

Local Open Scope R_scope.

Implicit Types (st : stations) (row : tiein_row) (rows : list tiein_row).
Implicit Types (k : string) (p : Point).

Lemma get_insert_eq st k (v : option Point) : get (<[k := v]> st) k = v.
Proof. unfold get. rewrite lookup_insert_eq. reflexivity. Qed.

Lemma get_insert_ne st k k' (v : option Point) :
  k <> k' -> get (<[k := v]> st) k' = get st k'.
Proof. intros H. unfold get. rewrite lookup_insert_ne by exact H. reflexivity. Qed.

Lemma get_Some st k p : get st k = Some p <-> st !! k = Some (Some p).
Proof.
  unfold get. destruct (st !! k) as [[q |] |]; simpl; split; congruence.
Qed.

Lemma none_in_values_true st :
  none_in_values st = true <-> exists k, st !! k = Some None.
Proof.
  unfold none_in_values. rewrite bool_decide_eq_true, map_Exists_lookup.
  split.
  - intros (k & v & Hk & ->). now exists k.
  - intros (k & Hk). now exists k, None.
Qed.

Lemma none_in_values_false st :
  none_in_values st = false <-> forall k, st !! k <> Some None.
Proof.
  rewrite <- not_true_iff_false, none_in_values_true. split.
  - intros H k Hk. apply H. now exists k.
  - intros H (k & Hk). now apply (H k).
Qed.

(** *** What one row does to the table *)

Lemma visit_both st row p q :
  get st (tie_From row) = Some p -> get st (tie_To row) = Some q ->
  visit st row = st.
Proof. intros Hf Ht. unfold visit. rewrite Hf, Ht. reflexivity. Qed.

Lemma visit_forward st row p :
  get st (tie_From row) = Some p -> get st (tie_To row) = None ->
  visit st row
  = <[tie_To row := Some (shot0 p (tie_Dist_m row) (tie_Azm row)
                            (tie_Inc row))]> st.
Proof. intros Hf Ht. unfold visit. rewrite Hf, Ht. reflexivity. Qed.

Lemma visit_backward st row q :
  get st (tie_From row) = None -> get st (tie_To row) = Some q ->
  visit st row
  = <[tie_From row := Some (shot0 q (tie_Dist_m row)
                              (pymod (tie_Azm row + 180) 360)
                              (- tie_Inc row))]> st.
Proof.
  intros Hf Ht. unfold visit. rewrite Hf, Ht.
  replace (-1 * tie_Inc row) with (- tie_Inc row) by lra. reflexivity.
Qed.

Lemma visit_neither st row :
  get st (tie_From row) = None -> get st (tie_To row) = None ->
  visit st row = st.
Proof. intros Hf Ht. unfold visit. rewrite Hf, Ht. reflexivity. Qed.

Lemma one_pass_cons rows row st :
  one_pass (row :: rows) st = one_pass rows (visit st row).
Proof. reflexivity. Qed.

(** A resolved station keeps its point when a row is visited. *)
Lemma visit_keeps st row k p :
  get st k = Some p -> get (visit st row) k = Some p.
Proof.
  intros Hk. unfold visit.
  destruct (get st (tie_From row)) as [fp |] eqn:Hf;
    destruct (get st (tie_To row)) as [tp |] eqn:Ht; try exact Hk.
  - destruct (decide (tie_To row = k)) as [<- | Hne]; [congruence |].
    now rewrite get_insert_ne.
  - destruct (decide (tie_From row = k)) as [<- | Hne]; [congruence |].
    now rewrite get_insert_ne.
Qed.

Lemma visit_entry st row k :
  is_Some (st !! k) -> is_Some (visit st row !! k).
Proof.
  intros Hk. unfold visit.
  destruct (get st (tie_From row)), (get st (tie_To row)); try exact Hk;
    apply lookup_insert_is_Some';  now right.
Qed.

Lemma visits_keep (rs : list tiein_row) st k p :
  get st k = Some p -> get (fold_left visit rs st) k = Some p.
Proof.
  revert st. induction rs as [| r rs IH]; intros st Hk; [exact Hk |].
  simpl. apply IH. now apply visit_keeps.
Qed.

Lemma visits_entry (rs : list tiein_row) st k :
  is_Some (st !! k) -> is_Some (fold_left visit rs st !! k).
Proof.
  revert st. induction rs as [| r rs IH]; intros st Hk; [exact Hk |].
  simpl. apply IH. now apply visit_entry.
Qed.

(** *** Initialisation *)

Lemma enter_entry_from st row : is_Some (enter st row !! tie_From row).
Proof.
  unfold enter.
  destruct (tie_Alt_m row) as [[| alt] |];
    apply lookup_insert_is_Some'; right;
    apply lookup_insert_is_Some'; now left.
Qed.

Lemma enter_entry_to st row : is_Some (enter st row !! tie_To row).
Proof.
  unfold enter.
  destruct (tie_Alt_m row) as [[| alt] |];
    apply lookup_insert_is_Some'; now left.
Qed.

Lemma enter_entry st row k :
  is_Some (st !! k) -> is_Some (enter st row !! k).
Proof.
  intros Hk. unfold enter.
  destruct (tie_Alt_m row) as [[| alt] |];
    apply lookup_insert_is_Some'; right;
    apply lookup_insert_is_Some'; now right.
Qed.

Lemma enters_entry rows st k :
  is_Some (st !! k) -> is_Some (fold_left enter rows st !! k).
Proof.
  revert st. induction rows as [| r rows IH]; intros st Hk; [exact Hk |].
  simpl. apply IH. now apply enter_entry.
Qed.

Lemma enters_names rows st row :
  In row rows ->
  is_Some (fold_left enter rows st !! tie_From row)
  /\ is_Some (fold_left enter rows st !! tie_To row).
Proof.
  revert st. induction rows as [| r rows IH]; intros st Hin; [destruct Hin |].
  simpl. destruct Hin as [-> | Hin]; [| now apply IH].
  split; apply enters_entry; [apply enter_entry_from | apply enter_entry_to].
Qed.

Lemma init_names rows row :
  In row rows ->
  is_Some (init rows !! tie_From row) /\ is_Some (init rows !! tie_To row).
Proof. apply enters_names. Qed.

(** While the table is set up, a row changes the point of a station
    only by fixing that very station. *)
Lemma enter_keeps st row k p :
  get st k = Some p ->
  ~ (tie_To row = k /\ exists alt, tie_Alt_m row = Some (Num alt)) ->
  get (enter st row) k = Some p.
Proof.
  intros Hk Hfix. unfold enter.
  assert (Hfrom : get (<[tie_From row := get st (tie_From row)]> st) k
                  = Some p).
  { destruct (decide (tie_From row = k)) as [<- | Hne].
    - now rewrite get_insert_eq.
    - now rewrite get_insert_ne. }
  destruct (tie_Alt_m row) as [[| alt] |] eqn:Halt.
  - destruct (decide (tie_To row = k)) as [<- | Hne].
    + now rewrite get_insert_eq.
    + now rewrite get_insert_ne.
  - destruct (decide (tie_To row = k)) as [Heq | Hne].
    + elim Hfix. split; [exact Heq | now exists alt].
    + now rewrite get_insert_ne.
  - destruct (decide (tie_To row = k)) as [<- | Hne].
    + now rewrite get_insert_eq.
    + now rewrite get_insert_ne.
Qed.

End Resolver.

(** ** The bounded [while] loop *)

Section Passes.

Implicit Types (st : stations) (rows : list tiein_row).

Lemma after_S n rows : after (S n) rows = one_pass rows (after n rows).
Proof. reflexivity. Qed.

Lemma iter_shift {A : Type} (f : A -> A) (n : nat) (a : A) :
  Nat.iter n f (f a) = Nat.iter (S n) f a.
Proof. induction n as [| n IH]; simpl; [reflexivity | now rewrite IH]. Qed.

(** With [passes <= 5] on entry and enough fuel to reach the sixth
    sweep, the loop ends by [return] or by [raise]. *)
Lemma while_loop_ends fuel rows passes st :
  (passes <= 5)%nat -> (6 <= passes + fuel)%nat ->
  while_loop fuel rows passes st <> OutOfFuel.
Proof.
  revert passes st. induction fuel as [| fuel IH]; intros passes st Hp Hf.
  - lia.
  - simpl. destruct (none_in_values st); [| discriminate].
    destruct (Nat.ltb_spec 5 (S passes)); [discriminate |].
    apply IH; lia.
Qed.

Lemma while_loop_fuel fuel fuel' rows passes st :
  (passes <= 5)%nat -> (6 <= passes + fuel)%nat ->
  (6 <= passes + fuel')%nat ->
  while_loop fuel rows passes st = while_loop fuel' rows passes st.
Proof.
  revert fuel' passes st.
  induction fuel as [| fuel IH]; intros fuel' passes st Hp Hf Hf'; [lia |].
  destruct fuel' as [| fuel']; [lia |].
  simpl. destruct (none_in_values st); [| reflexivity].
  destruct (Nat.ltb_spec 5 (S passes)); [reflexivity |].
  apply IH; lia.
Qed.

(** The loop raises only out of its sixth sweep. *)
Lemma while_loop_failed fuel rows passes st n st' :
  (passes <= 5)%nat ->
  while_loop fuel rows passes st = Failed n st' ->
  n = 6%nat /\ st' = Nat.iter (6 - passes) (one_pass rows) st.
Proof.
  revert passes st. induction fuel as [| fuel IH]; intros passes st Hp.
  - simpl. destruct (none_in_values st); discriminate.
  - simpl. destruct (none_in_values st); [| discriminate].
    destruct (Nat.ltb_spec 5 (S passes)) as [Hlt | Hge].
    + intros [= <- <-]. assert (passes = 5%nat) as -> by lia.
      split; reflexivity.
    + intros H. apply IH in H; [| lia]. destruct H as [-> ->].
      split; [reflexivity |].
      rewrite iter_shift. f_equal. lia.
Qed.

(** If every table before the sixth sweep still holds a [None], the loop
    raises after the sixth sweep. *)
Lemma while_loop_stuck fuel rows passes st :
  (passes <= 5)%nat -> (6 <= passes + fuel)%nat ->
  (forall j, (j <= 5 - passes)%nat ->
             none_in_values (Nat.iter j (one_pass rows) st) = true) ->
  while_loop fuel rows passes st
  = Failed 6 (Nat.iter (6 - passes) (one_pass rows) st).
Proof.
  revert passes st. induction fuel as [| fuel IH]; intros passes st Hp Hf Hn.
  - lia.
  - assert (H0 : none_in_values st = true) by (apply (Hn 0%nat); lia).
    simpl. rewrite H0.
    destruct (Nat.ltb_spec 5 (S passes)) as [Hlt | Hge].
    + assert (passes = 5%nat) as -> by lia. reflexivity.
    + rewrite IH; [| lia | lia |].
      * rewrite iter_shift. do 2 f_equal. lia.
      * intros j Hj. rewrite iter_shift. apply Hn. lia.
Qed.

End Passes.

(** ** Invariants of a resolution run *)

Section Run.

Implicit Types (st : stations) (row : tiein_row) (rows : list tiein_row).
Implicit Types (k : string) (p : Point).

Lemma passes_keep rows (m : nat) st k p :
  get st k = Some p -> get (Nat.iter m (one_pass rows) st) k = Some p.
Proof.
  intros Hk. induction m as [| m IH]; [exact Hk |].
  simpl. now apply visits_keep.
Qed.

Lemma passes_entry rows (m : nat) st k :
  is_Some (st !! k) -> is_Some (Nat.iter m (one_pass rows) st !! k).
Proof.
  intros Hk. induction m as [| m IH]; [exact Hk |].
  simpl. now apply visits_entry.
Qed.

Lemma table_at_0 rows n : table_at rows n 0 = after n rows.
Proof. reflexivity. Qed.

Lemma table_at_all rows n : table_at rows n (length rows) = after (S n) rows.
Proof. unfold table_at. now rewrite firstn_all. Qed.

Lemma table_at_names rows n j row :
  In row rows ->
  is_Some (table_at rows n j !! tie_From row)
  /\ is_Some (table_at rows n j !! tie_To row).
Proof.
  intros Hin. destruct (init_names rows row Hin) as [Hf Ht].
  split; apply visits_entry, passes_entry; assumption.
Qed.

(** Later in the same sweep. *)
Lemma table_at_keeps_row rows n j j' k p :
  (j <= j')%nat ->
  get (table_at rows n j) k = Some p -> get (table_at rows n j') k = Some p.
Proof.
  intros Hj Hk. unfold table_at in *.
  rewrite <- (firstn_skipn j (firstn j' rows)), firstn_firstn.
  rewrite Nat.min_l by exact Hj.
  rewrite fold_left_app. now apply visits_keep.
Qed.

(** To the end of the sweep, and on to a later sweep. *)
Lemma table_at_keeps_pass rows n j n' j' k p :
  (n < n')%nat ->
  get (table_at rows n j) k = Some p -> get (table_at rows n' j') k = Some p.
Proof.
  intros Hn Hk.
  assert (Hend : get (after (S n) rows) k = Some p).
  { rewrite <- table_at_all.
    destruct (Nat.le_gt_cases j (length rows)) as [Hle | Hgt].
    - now apply (table_at_keeps_row rows n j).
    - unfold table_at in *. rewrite firstn_all.
      rewrite firstn_all2 in Hk by lia. exact Hk. }
  assert (Hn' : get (after n' rows) k = Some p).
  { replace n' with ((n' - S n) + S n)%nat by lia.
    unfold after. rewrite Nat.iter_add. now apply passes_keep. }
  unfold table_at. now apply visits_keep.
Qed.

(** Once no [None] is left, and every row has its two entries, a sweep
    changes nothing. *)
Lemma visit_settled st row :
  none_in_values st = false ->
  is_Some (st !! tie_From row) -> is_Some (st !! tie_To row) ->
  visit st row = st.
Proof.
  intros Hn [vf Hf] [vt Ht].
  rewrite none_in_values_false in Hn.
  destruct vf as [pf |]; [| now elim (Hn (tie_From row))].
  destruct vt as [pt |]; [| now elim (Hn (tie_To row))].
  apply (visit_both st row pf pt); now apply get_Some.
Qed.

Lemma visits_settled (rs : list tiein_row) st :
  none_in_values st = false ->
  (forall row, In row rs ->
               is_Some (st !! tie_From row) /\ is_Some (st !! tie_To row)) ->
  fold_left visit rs st = st.
Proof.
  intros Hn. induction rs as [| r rs IH]; intros Hrs; [reflexivity |].
  simpl. destruct (Hrs r (or_introl eq_refl)) as [Hf Ht].
  rewrite visit_settled by assumption.
  apply IH. intros row Hin. apply Hrs. now right.
Qed.

Lemma after_settled rows n m :
  none_in_values (after n rows) = false ->
  after (m + n) rows = after n rows.
Proof.
  intros Hn. induction m as [| m IH]; [reflexivity |].
  change (after (S m + n) rows) with (one_pass rows (after (m + n) rows)).
  rewrite IH.
  apply visits_settled; [exact Hn |].
  intros row Hin. apply (table_at_names rows n 0 row Hin).
Qed.

(** A [None] left after a sweep was there before every earlier one. *)
Lemma unresolved_before rows n j :
  (j <= n)%nat ->
  none_in_values (after n rows) = true ->
  none_in_values (after j rows) = true.
Proof.
  intros Hj Hn.
  destruct (none_in_values (after j rows)) eqn:E; [reflexivity |].
  pose proof (after_settled rows j (n - j) E) as Heq.
  replace (n - j + j)%nat with n in Heq by lia.
  rewrite Heq, E in Hn. discriminate.
Qed.

(** The table a call ends with is the table after some number of whole
    sweeps. *)
Lemma while_loop_table fuel rows passes st :
  forall st',
    (exists n, while_loop fuel rows passes st = Failed n st')
    \/ while_loop fuel rows passes st = Returned st' ->
    exists m, st' = Nat.iter m (one_pass rows) st.
Proof.
  revert passes st. induction fuel as [| fuel IH]; intros passes st st'.
  - simpl. destruct (none_in_values st).
    + intros [[n H] | H]; discriminate.
    + intros [[n H] | [= <-]]; [discriminate |]. now exists 0%nat.
  - simpl. destruct (none_in_values st).
    + destruct (Nat.ltb_spec 5 (S passes)).
      * intros [[n [= <- <-]] | E]; [| discriminate]. now exists 1%nat.
      * intros E. apply IH in E. destruct E as [m ->].
        exists (S m). now rewrite iter_shift.
    + intros [[n H] | [= <-]]; [discriminate |]. now exists 0%nat.
Qed.

End Run.

(** ** The resolver on the sample sheets *)

Section ResolverClaims.

Local Open Scope R_scope.

Lemma backward_point :
  shot0 (mkPoint 5 0 0 None) 5 (pymod (90 + 180) 360) (-1 * 0)
  = mkPoint 0 0 0 None.
Proof.
  replace (90 + 180) with 270 by lra.
  rewrite pymod_small by lra.
  replace (-1 * 0) with 0 by lra.
  rewrite shot0_level, radians_270, sin_3PI2, cos_3PI2. simpl.
  apply point_eq; lra.
Qed.

Lemma backward_sheet_outcome :
  excel_tiein backward_sheet
  = Returned (<["A0"%string := Some (mkPoint 0 0 0 None)]>
                (init backward_sheet)).
Proof. rewrite <- backward_point. reflexivity. Qed.

(** C6, as stated, fails in the arithmetic of the code: on the sheet with
    [B0 = (5.0, 0.0, 0.0)] fixed and the one row [A0 -> B0] (5 m, azimuth
    90, level) the call returns a table in which [A0] is not
    [(0, 0, 0)]. *)
Lemma backward_station_is_off_the_origin :
  exists st,
    doubles.excel_tiein doubles.libm_sin doubles.libm_cos
      doubles.backward_sheet
    = doubles.Returned st
    /\ doubles.get st "A0" <> Some (doubles.mkPoint 0 0 0).
Proof.
  eexists. split; [reflexivity |].
  intros E.
  apply (f_equal (fun o => match o with
                           | Some p => doubles.y p
                           | None => 0%float
                           end)) in E.
  vm_compute in E. revert E. apply double_differs; reflexivity.
Qed.

(** C6, amended.  A sweep takes the rows in sheet order.  A row with both
    ends resolved leaves the table as it is; with only [From] resolved it
    sets [To] to the shot from [From]; with only [To] resolved it sets
    [From] to the reversed sight from [To], azimuth [(azm + 180) % 360]
    and inclination [- inc].  With [B0 = (5, 0, 0)] fixed and the one row
    [A0 -> B0] (5 m, azimuth 90, level), [A0] comes out at [(0, 0, 0)] in
    exact arithmetic, and at [(0.0, -9.184850993605148e-16, 0.0)] in
    doubles. *)
Theorem pass_resolves_either_end :
  (forall rows row st,
      one_pass (row :: rows) st = one_pass rows (visit st row))
  /\ (forall st row p q,
      get st (tie_From row) = Some p -> get st (tie_To row) = Some q ->
      visit st row = st)
  /\ (forall st row p,
      get st (tie_From row) = Some p -> get st (tie_To row) = None ->
      visit st row
      = <[tie_To row := Some (shot0 p (tie_Dist_m row) (tie_Azm row)
                                (tie_Inc row))]> st)
  /\ (forall st row q,
      get st (tie_From row) = None -> get st (tie_To row) = Some q ->
      visit st row
      = <[tie_From row := Some (shot0 q (tie_Dist_m row)
                                  (pymod (tie_Azm row + 180) 360)
                                  (- tie_Inc row))]> st)
  /\ (exists st,
      excel_tiein backward_sheet = Returned st
      /\ get st "A0" = Some (mkPoint 0 0 0 None)
      /\ get st "B0" = Some (mkPoint 5 0 0 None))
  /\ (exists st,
      doubles.excel_tiein doubles.libm_sin doubles.libm_cos
        doubles.backward_sheet
      = doubles.Returned st
      /\ doubles.get st "A0"
         = Some (doubles.mkPoint 0 (-0x1.08bc3cfe31646p-50) 0)
      /\ doubles.get st "B0" = Some (doubles.mkPoint 5 0 0)).
Proof.
  split; [| split; [| split; [| split; [| split]]]].
  - intros rows row st. apply one_pass_cons.
  - intros st row p q. apply visit_both.
  - intros st row p. apply visit_forward.
  - intros st row q. apply visit_backward.
  - eexists. split; [apply backward_sheet_outcome |].
    split; reflexivity.
  - eexists. split; [reflexivity |].
    split; vm_compute; reflexivity.
Qed.

Lemma pass_resolves_either_end_witness :
  let row := mkTie "A0" "B0" 5 90 0 (Some 5) (Some 0) (Some (Num 0)) in
  visit both_known row = both_known
  /\ visit from_known row
     = <["B0"%string := Some (shot0 (mkPoint 0 0 0 None) 5 90 0)]> from_known
  /\ visit (init backward_sheet) row
     = <["A0"%string :=
           Some (shot0 (mkPoint 5 0 0 None) 5 (pymod (90 + 180) 360) (- 0))]>
         (init backward_sheet).
Proof.
  intros row.
  destruct pass_resolves_either_end as (_ & Hboth & Hfwd & Hbwd & _).
  split; [| split].
  - apply (Hboth both_known row (mkPoint 0 0 0 None) (mkPoint 5 0 0 None));
      reflexivity.
  - apply (Hfwd from_known row (mkPoint 0 0 0 None)); reflexivity.
  - apply (Hbwd (init backward_sheet) row (mkPoint 5 0 0 None)); reflexivity.
Defined.

Lemma loose_sheet_outcome :
  excel_tiein loose_sheet = Failed 6 (init loose_sheet).
Proof. reflexivity. Qed.

(** C2, as stated, fails on a sheet with no fixed station: the call does
    not fail within five sweeps, it raises out of the sixth. *)
Lemma loose_sheet_not_within_five :
  ~ (exists n st, (n <= 5)%nat /\ excel_tiein loose_sheet = Failed n st).
Proof.
  rewrite loose_sheet_outcome. intros (n & st & Hn & E).
  injection E as <- _. lia.
Qed.

(** C2, amended.  A call never runs more than six sweeps: six
    iterations of the [while] loop always end it, and more fuel changes
    nothing.  It raises only after exactly six sweeps, with the table of
    that moment in its message; and when a station is still unresolved
    after the sixth sweep it does raise, and that table holds a name
    mapped to [None]. *)
Theorem six_sweeps_then_raise (rows : list tiein_row) :
  excel_tiein rows <> OutOfFuel
  /\ (forall fuel, (6 <= fuel)%nat ->
                   excel_tiein_fuel fuel rows = excel_tiein rows)
  /\ (forall n st, excel_tiein rows = Failed n st ->
                   n = 6%nat /\ st = after 6 rows)
  /\ (none_in_values (after 6 rows) = true ->
      excel_tiein rows = Failed 6 (after 6 rows)
      /\ exists k, after 6 rows !! k = Some None).
Proof.
  split; [| split; [| split]].
  - apply while_loop_ends; lia.
  - intros fuel Hf. apply while_loop_fuel; lia.
  - intros n st H. apply while_loop_failed in H; [exact H | lia].
  - intros Hn. split.
    + apply (while_loop_stuck 6 rows 0 (init rows)); [lia | lia |].
      intros j Hj. apply (unresolved_before rows 6 j); [lia | exact Hn].
    + now apply none_in_values_true.
Qed.

Lemma six_sweeps_then_raise_witness :
  none_in_values (after 6 loose_sheet) = true
  /\ (excel_tiein loose_sheet = Failed 6 (after 6 loose_sheet)
      /\ exists k, after 6 loose_sheet !! k = Some None)
  /\ (6%nat = 6%nat /\ init loose_sheet = after 6 loose_sheet).
Proof.
  destruct (six_sweeps_then_raise loose_sheet) as (_ & _ & Hshape & Hstuck).
  split; [reflexivity |]. split.
  - apply Hstuck. reflexivity.
  - apply (Hshape 6%nat (init loose_sheet)). reflexivity.
Defined.

(** C8, as stated, fails while the table is being set up: a second row
    that fixes the same station replaces the coordinates the first row
    gave it. *)
Lemma second_fix_replaces_first :
  get (init (firstn 1 twice_fixed_sheet)) "F1" = Some (mkPoint 1 2 3 None)
  /\ get (init twice_fixed_sheet) "F1" = Some (mkPoint 4 5 6 None)
  /\ mkPoint 1 2 3 None <> mkPoint 4 5 6 None.
Proof.
  split; [reflexivity |]. split; [reflexivity |].
  intros E. injection E as E _ _. lra.
Qed.

(** C8, amended.  While the table is set up, a station that holds a
    point keeps it unless a later row fixes that same station again.  From
    the end of the first loop on: every name that is a [From] or a [To]
    of the sheet has its entry in every table of the run; a station that
    holds a point in one table holds the same point in every later table,
    so the stations fixed when the sweeps start, and every station
    resolved since, are never assigned again; and the table the call ends
    with still holds them. *)
Theorem resolved_stations_stay (rows : list tiein_row) :
  (forall st row k p,
      get st k = Some p ->
      ~ (tie_To row = k /\ exists alt, tie_Alt_m row = Some (Num alt)) ->
      get (enter st row) k = Some p)
  /\ (forall n j row,
      In row rows ->
      is_Some (table_at rows n j !! tie_From row)
      /\ is_Some (table_at rows n j !! tie_To row))
  /\ (forall n j n' j' k p,
      (n < n')%nat \/ (n = n' /\ (j <= j')%nat) ->
      get (table_at rows n j) k = Some p ->
      get (table_at rows n' j') k = Some p)
  /\ (forall k p st,
      get (init rows) k = Some p ->
      (exists n, excel_tiein rows = Failed n st)
      \/ excel_tiein rows = Returned st ->
      get st k = Some p).
Proof.
  split; [| split; [| split]].
  - intros st row k p. apply enter_keeps.
  - intros n j row. apply table_at_names.
  - intros n j n' j' k p [Hlt | [<- Hle]].
    + now apply table_at_keeps_pass.
    + now apply table_at_keeps_row.
  - intros k p st Hk Hend.
    apply while_loop_table in Hend. destruct Hend as [m ->].
    now apply passes_keep.
Qed.

Lemma resolved_stations_stay_witness :
  get (enter (init backward_sheet)
         (mkTie "C0" "D0" 1 0 0 (Some 7) (Some 8) (Some (Num 9)))) "B0"
  = Some (mkPoint 5 0 0 None)
  /\ (is_Some (table_at backward_sheet 1 0 !! "A0")
      /\ is_Some (table_at backward_sheet 1 0 !! "B0"))
  /\ get (table_at backward_sheet 3 1) "B0" = Some (mkPoint 5 0 0 None)
  /\ get (<["A0"%string := Some (mkPoint 0 0 0 None)]> (init backward_sheet))
       "B0" = Some (mkPoint 5 0 0 None).
Proof.
  destruct (resolved_stations_stay backward_sheet)
    as (Hsetup & Hnames & Hkeep & Hend).
  split; [| split; [| split]].
  - apply Hsetup; [reflexivity |].
    intros [Hto _]. discriminate Hto.
  - apply (Hnames 1%nat 0%nat
             (mkTie "A0" "B0" 5 90 0 (Some 5) (Some 0) (Some (Num 0)))).
    left. reflexivity.
  - apply (Hkeep 0%nat 0%nat 3%nat 1%nat "B0"%string (mkPoint 5 0 0 None)).
    + left. lia.
    + reflexivity.
  - apply (Hend "B0"%string (mkPoint 5 0 0 None)).
    + reflexivity.
    + right. apply backward_sheet_outcome.
Defined.

End ResolverClaims.

(** ** The survey readers *)

Section Readers.

Local Open Scope R_scope.

Variable float_of_text : string -> option R.
Variable int_of_text : string -> option Z.
Variable m2ft : R -> R.

Implicit Types (row : survey_row) (origin : Point).

(** The name a yielded point ends up with. *)
Lemma shot_name origin dist azm inc down back nm p :
  shot origin dist azm inc down back nm = Ok p ->
  name p = if truthy_opt nm then nm else None.
Proof.
  unfold shot.
  destruct (truthy down); [destruct (number down); simpl; [| discriminate] |];
    (destruct (truthy back);
     [destruct (number back); simpl; [| discriminate] |]);
    simpl; intros [= <-]; destruct (truthy_opt nm); reflexivity.
Qed.

(** [shot] when neither auxiliary measurement is truthy. *)
Lemma shot_plain origin dist azm inc down back nm :
  truthy down = false -> truthy back = false ->
  shot origin dist azm inc down back nm
  = Ok (let p := shot0 origin dist azm inc in
        if truthy_opt nm then set_name p nm else p).
Proof. intros Hd Hb. unfold shot. rewrite Hd, Hb. reflexivity. Qed.

(** [shot] on numeric auxiliary measurements: the drop, when it is not
    zero, is taken from the primary point, and the back sight, when it is
    not zero, from wherever the drop ended. *)
Lemma shot_chain origin dist azm inc (down back : R) nm :
  shot origin dist azm inc (VNum down) (VNum back) nm
  = Ok (let P := shot0 origin dist azm inc in
        let D := if truthy (VNum down) then shot0 P down 0 (-90) else P in
        let B := if truthy (VNum back) then shot0 D back azm 0 else D in
        if truthy_opt nm then set_name B nm else B).
Proof.
  unfold shot.
  destruct (truthy (VNum down)); destruct (truthy (VNum back)); reflexivity.
Qed.

(** A row is skipped by both readers exactly when its distance is
    falsy; nothing else of the row is looked at. *)
Lemma survey_row_point_blank origin row :
  has_distance row = false ->
  survey_row_point float_of_text origin row = Ok None.
Proof. intros H. unfold survey_row_point. rewrite H. reflexivity. Qed.

Lemma ice2survey_row_blank sid o survey i row :
  has_distance row = false ->
  ice2survey_row float_of_text int_of_text m2ft sid o survey i row
  = Ok survey.
Proof. intros H. unfold ice2survey_row. rewrite H. reflexivity. Qed.

Lemma excel_survey_filter (rows : list survey_row) origin :
  excel_survey float_of_text rows origin
  = excel_survey float_of_text (List.filter has_distance rows) origin.
Proof.
  induction rows as [| row rows IH]; [reflexivity |].
  simpl. destruct (has_distance row) eqn:E.
  - simpl. rewrite IH. reflexivity.
  - rewrite survey_row_point_blank by exact E. exact IH.
Qed.

Lemma ice2survey_loop_filter sid o (irows : list (nat * survey_row)) :
  forall survey,
    ice2survey_loop float_of_text int_of_text m2ft sid o survey irows
    = ice2survey_loop float_of_text int_of_text m2ft sid o survey
        (List.filter (fun ir => has_distance (snd ir)) irows).
Proof.
  induction irows as [| [i row] irows IH]; intros survey; [reflexivity |].
  simpl. destruct (has_distance row) eqn:E.
  - simpl. destruct (ice2survey_row _ _ _ _ _ survey i row); simpl;
      [apply IH | reflexivity].
  - rewrite ice2survey_row_blank by exact E. simpl. apply IH.
Qed.

(** One row yields at most one point. *)
Lemma excel_survey_one_row origin row :
  excel_survey float_of_text [row] origin
  = match survey_row_point float_of_text origin row with
    | Ok None => ([], None)
    | Ok (Some p) => ([p], None)
    | Raise e => ([], Some e)
    end.
Proof.
  simpl. destruct (survey_row_point float_of_text origin row) as [[p |] | e];
    reflexivity.
Qed.

(** A row with a distance is never passed over: it yields a point or
    raises. *)
Lemma survey_row_point_not_skipped (origin : Point) (row : survey_row) :
  has_distance row = true ->
  survey_row_point float_of_text origin row <> Ok None.
Proof.
  intros Hd. unfold survey_row_point. rewrite Hd. simpl.
  destruct (getitem "Dist m" (row_Dist_m row)); simpl; [| discriminate].
  destruct (float float_of_text a); simpl; [| discriminate].
  destruct (getitem "Azm" (row_Azm row)); simpl; [| discriminate].
  destruct (float float_of_text a1); simpl; [| discriminate].
  destruct (getitem "Inc" (row_Inc row)); simpl; [| discriminate].
  destruct (float float_of_text a3); simpl; [| discriminate].
  destruct (shot _ _ _ _ _ _ _); simpl; discriminate.
Qed.

(** The points of [excel_survey] are those of the rows with a distance,
    one by one and in sheet order, up to the first row that raises. *)
Lemma excel_survey_trace (rows : list survey_row) origin :
  exists done rest : list survey_row,
    List.filter has_distance rows = done ++ rest
    /\ Forall2 (fun row p =>
                  survey_row_point float_of_text origin row = Ok (Some p))
         done (fst (excel_survey float_of_text rows origin))
    /\ match snd (excel_survey float_of_text rows origin) with
       | None => rest = []
       | Some e =>
           exists row rest',
             rest = row :: rest'
             /\ survey_row_point float_of_text origin row = Raise e
       end.
Proof.
  induction rows as [| row rows IH].
  - exists [], []. simpl. repeat split; constructor.
  - destruct (has_distance row) eqn:E.
    + simpl List.filter. rewrite E. simpl excel_survey.
      destruct (survey_row_point float_of_text origin row)
        as [[p |] | e] eqn:Ep.
      * destruct IH as (done & rest & Hf & Hp & He).
        destruct (excel_survey float_of_text rows origin) as [ps e0].
        exists (row :: done), rest. simpl in *.
        split; [now rewrite Hf |].
        split; [now constructor | exact He].
      * now apply survey_row_point_not_skipped in Ep.
      * exists [], (row :: List.filter has_distance rows). simpl.
        split; [reflexivity |]. split; [constructor |].
        now exists row, (List.filter has_distance rows).
    + simpl List.filter. rewrite E. simpl excel_survey.
      rewrite survey_row_point_blank by exact E. exact IH.
Qed.

(** The shots a row adds do not depend on the shots added before it. *)
Lemma ice2survey_row_appends sid o survey i row :
  ice2survey_row float_of_text int_of_text m2ft sid o survey i row
  = (g <- ice2survey_row float_of_text int_of_text m2ft sid o [] i row ;;
     Ok (survey ++ g)).
Proof.
  unfold ice2survey_row.
  destruct (has_distance row); simpl; [| now rewrite app_nil_r].
  destruct (getitem "Point" (row_Point row)) as [pv |]; simpl;
    [| reflexivity].
  destruct (point_number int_of_text i pv) as [point |]; simpl;
    [| reflexivity].
  destruct (getitem "Azm" (row_Azm row)) as [av |]; simpl; [| reflexivity].
  destruct (float float_of_text av) as [az |]; simpl; [| reflexivity].
  destruct (getitem "Dist m" (row_Dist_m row)) as [dv |]; simpl;
    [| reflexivity].
  destruct (float float_of_text dv) as [d |]; simpl; [| reflexivity].
  destruct (getitem "Inc" (row_Inc row)) as [iv |]; simpl; [| reflexivity].
  destruct (float float_of_text iv) as [inc |]; simpl; [| reflexivity].
  destruct (truthy_opt (row_Down_m row)); simpl;
    [destruct (getitem "Down m" (row_Down_m row)) as [wv |]; simpl;
       [| reflexivity];
     destruct (float float_of_text wv) as [w |]; simpl; [| reflexivity] |];
    (destruct (truthy_opt (row_Back_m row)); simpl;
     [destruct (getitem "Back m" (row_Back_m row)) as [bv |]; simpl;
        [| reflexivity];
      destruct (float float_of_text bv) as [b |]; simpl; [| reflexivity] |]);
    unfold add_shot; simpl; rewrite <- ?app_assoc; reflexivity.
Qed.

(** The shots of [ice2survey] are those of the rows with a distance, row
    by row and in sheet order, each row under the number [enumerate] gave
    it. *)
Lemma ice2survey_loop_trace sid o (irows : list (nat * survey_row)) :
  forall survey shots,
    ice2survey_loop float_of_text int_of_text m2ft sid o survey irows
    = Ok shots ->
    exists groups : list (list Shot),
      shots = survey ++ concat groups
      /\ Forall2 (fun ir g =>
                    ice2survey_row float_of_text int_of_text m2ft sid o
                      [] (fst ir) (snd ir) = Ok g)
           (List.filter (fun ir => has_distance (snd ir)) irows) groups.
Proof.
  induction irows as [| [i row] irows IH]; intros survey shots H.
  - injection H as <-. exists []. simpl. rewrite app_nil_r.
    split; [reflexivity | constructor].
  - simpl in H. rewrite ice2survey_row_appends in H.
    destruct (ice2survey_row float_of_text int_of_text m2ft sid o [] i row)
      as [g | e] eqn:Eg; simpl in H; [| discriminate H].
    destruct (IH _ _ H) as (groups & -> & Hg).
    simpl List.filter. destruct (has_distance row) eqn:E.
    + exists (g :: groups). simpl. rewrite app_assoc.
      split; [reflexivity |]. now constructor.
    + rewrite ice2survey_row_blank in Eg by exact E.
      injection Eg as <-. exists groups. rewrite app_nil_r.
      split; [reflexivity | exact Hg].
Qed.

(** [enumerate] numbers the rows from zero, blank rows included. *)
Lemma enumerate_lookup {A : Type} (l : list A) (i : nat) :
  enumerate l !! i = pair i <$> l !! i.
Proof. unfold enumerate. apply list_lookup_imap. Qed.

End Readers.

(** ** Rows with numeric cells *)

Section NumericRows.

Local Open Scope R_scope.

Variable float_of_text : string -> option R.
Variable int_of_text : string -> option Z.
Variable m2ft : R -> R.

Lemma trunc_IZR (n : Z) : trunc (IZR n) = n.
Proof.
  unfold trunc. destruct (Rle_dec 0 (IZR n)) as [H | H].
  - symmetry. apply Int_part_spec. lra.
  - rewrite <- opp_IZR. rewrite <- (Z.opp_involutive n) at 2.
    f_equal. symmetry. apply Int_part_spec. lra.
Qed.

Lemma point_number_IZR (i : nat) (n : Z) :
  n <> 0%Z -> point_number int_of_text i (VNum (IZR n)) = Ok n.
Proof.
  intros Hn. unfold point_number.
  rewrite truthy_nonzero by (now apply not_0_IZR).
  simpl. now rewrite trunc_IZR.
Qed.

Lemma survey_row_point_numeric origin pt az d inc dn bk :
  d <> 0 ->
  survey_row_point float_of_text origin
    (mkRow pt (Some (VNum az)) (Some (VNum d)) (Some (VNum inc)) dn bk)
  = (p <- shot origin d az inc (default (VNum 0) dn) (default (VNum 0) bk)
             (Some (default (VStr "") pt)) ;;
     Ok (Some p)).
Proof.
  intros Hd. unfold survey_row_point, has_distance. simpl.
  destruct (Req_dec_T d 0) as [E | _]; [contradiction |]. reflexivity.
Qed.

Lemma ice2survey_row_numeric sid o survey i pv az d inc down back point :
  d <> 0 -> point_number int_of_text i pv = Ok point ->
  ice2survey_row float_of_text int_of_text m2ft sid o survey i
    (mkRow (Some pv) (Some (VNum az)) (Some (VNum d)) (Some (VNum inc))
           (Some (VNum down)) (Some (VNum back)))
  = Ok (let base := (sid ++ fmt_02d point)%string in
        let has_down := truthy (VNum down) in
        let has_back := truthy (VNum back) in
        let to := if has_down || has_back then base
                  else ("S_" ++ base)%string in
        let down_to := if negb has_back then ("S_d" ++ base)%string
                       else ("d" ++ base)%string in
        survey
        ++ [mkShot o to az inc (m2ft d)]
        ++ (if has_down then [mkShot to down_to az (-90) (m2ft down)]
            else [])
        ++ (if has_back
            then [mkShot (if has_down then down_to else to)
                    ("S_b" ++ base)%string az 0 (m2ft back)]
            else [])).
Proof.
  intros Hd Hp. unfold ice2survey_row, has_distance. simpl.
  destruct (Req_dec_T d 0) as [E | _]; [contradiction |].
  simpl. rewrite Hp. simpl.
  destruct (Req_dec_T down 0); destruct (Req_dec_T back 0); simpl;
    unfold add_shot; rewrite <- ?app_assoc; reflexivity.
Qed.

Lemma ice2survey_row_plain sid o survey i pv az d inc dn bk point :
  d <> 0 -> point_number int_of_text i pv = Ok point ->
  truthy_opt dn = false -> truthy_opt bk = false ->
  ice2survey_row float_of_text int_of_text m2ft sid o survey i
    (mkRow (Some pv) (Some (VNum az)) (Some (VNum d)) (Some (VNum inc))
           dn bk)
  = Ok (survey ++ [mkShot o ("S_" ++ sid ++ fmt_02d point)%string
                     az inc (m2ft d)]).
Proof.
  intros Hd Hp Hdn Hbk. unfold ice2survey_row, has_distance. simpl.
  destruct (Req_dec_T d 0) as [E | _]; [contradiction |].
  simpl. rewrite Hp. simpl.
  rewrite Hdn, Hbk. reflexivity.
Qed.

Lemma ice2survey_one_row sid org row :
  upper_startswith_S sid = false ->
  ice2survey float_of_text int_of_text m2ft [row] sid org
  = ice2survey_row float_of_text int_of_text m2ft sid
      (origin_station sid org) [] 0 row.
Proof.
  intros Hs. unfold ice2survey. rewrite Hs. simpl.
  destruct (ice2survey_row _ _ _ _ _ [] 0%nat row); reflexivity.
Qed.

End NumericRows.

(** ** Falsy cells *)

Section FalsyCells.

Local Open Scope R_scope.

Variable float_of_text : string -> option R.
Variable int_of_text : string -> option Z.
Variable m2ft : R -> R.

Lemma truthy_default_zero (c : option value) :
  truthy (default (VNum 0) c) = truthy_opt c.
Proof. destruct c; [reflexivity | apply truthy_zero]. Qed.

Lemma shot_falsy_down origin dist azm inc dn dn' bk nm :
  truthy dn = false -> truthy dn' = false ->
  shot origin dist azm inc dn bk nm = shot origin dist azm inc dn' bk nm.
Proof. intros H H'. unfold shot. rewrite H, H'. reflexivity. Qed.

Lemma shot_falsy_back origin dist azm inc dn bk bk' nm :
  truthy bk = false -> truthy bk' = false ->
  shot origin dist azm inc dn bk nm = shot origin dist azm inc dn bk' nm.
Proof. intros H H'. unfold shot. rewrite H, H'. reflexivity. Qed.

(** Two falsy [Down m] cells, or two falsy [Back m] cells, make the same
    row for both readers. *)
Lemma survey_row_point_falsy_down origin pt az d inc c c' bk :
  truthy_opt c = false -> truthy_opt c' = false ->
  survey_row_point float_of_text origin (mkRow pt az d inc c bk)
  = survey_row_point float_of_text origin (mkRow pt az d inc c' bk).
Proof.
  intros H H'. unfold survey_row_point, has_distance. simpl.
  destruct (truthy_opt d); simpl; [| reflexivity].
  destruct (getitem "Dist m" d) as [dv |]; simpl; [| reflexivity].
  destruct (float float_of_text dv) as [dist |]; simpl; [| reflexivity].
  destruct (getitem "Azm" az) as [av |]; simpl; [| reflexivity].
  destruct (float float_of_text av) as [azm |]; simpl; [| reflexivity].
  destruct (getitem "Inc" inc) as [iv |]; simpl; [| reflexivity].
  destruct (float float_of_text iv) as [incl |]; simpl; [| reflexivity].
  rewrite (shot_falsy_down _ _ _ _ (default (VNum 0) c) (default (VNum 0) c'));
    [reflexivity | |]; now rewrite truthy_default_zero.
Qed.

Lemma survey_row_point_falsy_back origin pt az d inc dn c c' :
  truthy_opt c = false -> truthy_opt c' = false ->
  survey_row_point float_of_text origin (mkRow pt az d inc dn c)
  = survey_row_point float_of_text origin (mkRow pt az d inc dn c').
Proof.
  intros H H'. unfold survey_row_point, has_distance. simpl.
  destruct (truthy_opt d); simpl; [| reflexivity].
  destruct (getitem "Dist m" d) as [dv |]; simpl; [| reflexivity].
  destruct (float float_of_text dv) as [dist |]; simpl; [| reflexivity].
  destruct (getitem "Azm" az) as [av |]; simpl; [| reflexivity].
  destruct (float float_of_text av) as [azm |]; simpl; [| reflexivity].
  destruct (getitem "Inc" inc) as [iv |]; simpl; [| reflexivity].
  destruct (float float_of_text iv) as [incl |]; simpl; [| reflexivity].
  rewrite (shot_falsy_back _ _ _ _ _ (default (VNum 0) c) (default (VNum 0) c'));
    [reflexivity | |]; now rewrite truthy_default_zero.
Qed.

Lemma ice2survey_row_falsy_down sid o survey i pt az d inc c c' bk :
  truthy_opt c = false -> truthy_opt c' = false ->
  ice2survey_row float_of_text int_of_text m2ft sid o survey i
    (mkRow pt az d inc c bk)
  = ice2survey_row float_of_text int_of_text m2ft sid o survey i
      (mkRow pt az d inc c' bk).
Proof.
  intros H H'. unfold ice2survey_row, has_distance. simpl.
  rewrite H, H'. reflexivity.
Qed.

Lemma ice2survey_row_falsy_back sid o survey i pt az d inc dn c c' :
  truthy_opt c = false -> truthy_opt c' = false ->
  ice2survey_row float_of_text int_of_text m2ft sid o survey i
    (mkRow pt az d inc dn c)
  = ice2survey_row float_of_text int_of_text m2ft sid o survey i
      (mkRow pt az d inc dn c').
Proof.
  intros H H'. unfold ice2survey_row, has_distance. simpl.
  rewrite H, H'. reflexivity.
Qed.

(** Rows that the loop bodies cannot tell apart can replace one another
    anywhere in a sheet. *)
Lemma excel_survey_congr origin (r r' : survey_row) pre post :
  survey_row_point float_of_text origin r
  = survey_row_point float_of_text origin r' ->
  excel_survey float_of_text (pre ++ r :: post) origin
  = excel_survey float_of_text (pre ++ r' :: post) origin.
Proof.
  intros H. induction pre as [| a pre IH]; simpl.
  - rewrite H. reflexivity.
  - rewrite IH. reflexivity.
Qed.

Lemma ice2survey_loop_congr sid o (r r' : survey_row) :
  (forall survey i,
      ice2survey_row float_of_text int_of_text m2ft sid o survey i r
      = ice2survey_row float_of_text int_of_text m2ft sid o survey i r') ->
  forall pre post (g : nat -> nat) survey,
    ice2survey_loop float_of_text int_of_text m2ft sid o survey
      (imap (fun i a => (g i, a)) (pre ++ r :: post))
    = ice2survey_loop float_of_text int_of_text m2ft sid o survey
        (imap (fun i a => (g i, a)) (pre ++ r' :: post)).
Proof.
  intros H pre post. induction pre as [| a pre IH]; intros g survey.
  - simpl. rewrite H. reflexivity.
  - simpl.
    destruct (ice2survey_row _ _ _ _ _ survey (g 0%nat) a) as [s |];
      simpl; [| reflexivity].
    apply (IH (fun i => g (S i))).
Qed.

Lemma ice2survey_congr sid org (r r' : survey_row) pre post :
  (forall o survey i,
      ice2survey_row float_of_text int_of_text m2ft sid o survey i r
      = ice2survey_row float_of_text int_of_text m2ft sid o survey i r') ->
  ice2survey float_of_text int_of_text m2ft (pre ++ r :: post) sid org
  = ice2survey float_of_text int_of_text m2ft (pre ++ r' :: post) sid org.
Proof.
  intros H. unfold ice2survey, enumerate.
  destruct (upper_startswith_S sid); [reflexivity |].
  apply (ice2survey_loop_congr sid _ r r' (H _) pre post (fun i => i)).
Qed.

End FalsyCells.

(** ** What the survey readers emit *)

Section ReaderClaims.

Local Open Scope R_scope.

Variable float_of_text : string -> option R.
Variable int_of_text : string -> option Z.
Variable m2ft : R -> R.

(** C9.  Rows whose distance is missing, empty or zero contribute
    nothing and raise nothing, whatever their other cells hold: both
    readers give on a sheet what they give on the sheet with those rows
    taken out.  The other rows are processed in their sheet order:
    [excel_survey] yields the point of the first row with a distance, then
    that of the second, and so on up to the first row that raises;
    [ice2survey] adds the shots of the first row with a distance, then
    those of the second, and so on, each row under the number [enumerate]
    gave it in the whole sheet. *)
Theorem rows_without_distance_are_skipped :
  (forall (rows : list survey_row) (origin : Point),
      excel_survey float_of_text rows origin
      = excel_survey float_of_text (List.filter has_distance rows) origin)
  /\ (forall sid o survey (rows : list survey_row),
      ice2survey_loop float_of_text int_of_text m2ft sid o survey
        (enumerate rows)
      = ice2survey_loop float_of_text int_of_text m2ft sid o survey
          (List.filter (fun ir => has_distance (snd ir)) (enumerate rows)))
  /\ (forall pt az inc dn bk origin sid o survey i,
      Forall (fun d =>
                excel_survey float_of_text [mkRow pt az d inc dn bk] origin
                = ([], None)
                /\ ice2survey_row float_of_text int_of_text m2ft sid o
                     survey i (mkRow pt az d inc dn bk)
                   = Ok survey)
             [None; Some (VStr ""); Some (VNum 0)])
  /\ (forall (rows : list survey_row) (origin : Point),
      exists done rest : list survey_row,
        List.filter has_distance rows = done ++ rest
        /\ Forall2 (fun row p =>
                      survey_row_point float_of_text origin row
                      = Ok (Some p))
             done (fst (excel_survey float_of_text rows origin))
        /\ match snd (excel_survey float_of_text rows origin) with
           | None => rest = []
           | Some e =>
               exists row rest',
                 rest = row :: rest'
                 /\ survey_row_point float_of_text origin row = Raise e
           end)
  /\ (forall (rows : list survey_row) sid org shots,
      ice2survey float_of_text int_of_text m2ft rows sid org = Ok shots ->
      exists groups : list (list Shot),
        shots = concat groups
        /\ Forall2 (fun ir g =>
                      ice2survey_row float_of_text int_of_text m2ft sid
                        (origin_station sid org) [] (fst ir) (snd ir)
                      = Ok g)
             (List.filter (fun ir => has_distance (snd ir))
                (enumerate rows))
             groups)
  /\ (forall (rows : list survey_row) (i : nat),
      enumerate rows !! i = pair i <$> rows !! i).
Proof.
  split; [| split; [| split; [| split; [| split]]]].
  - intros rows origin. apply excel_survey_filter.
  - intros sid o survey rows. apply ice2survey_loop_filter.
  - intros pt az inc dn bk origin sid o survey i.
    assert (Hblank : forall d, truthy_opt d = false ->
              excel_survey float_of_text [mkRow pt az d inc dn bk] origin
              = ([], None)
              /\ ice2survey_row float_of_text int_of_text m2ft sid o
                   survey i (mkRow pt az d inc dn bk)
                 = Ok survey).
    { intros d Hd. split.
      - rewrite excel_survey_one_row, survey_row_point_blank; [reflexivity |].
        exact Hd.
      - apply ice2survey_row_blank. exact Hd. }
    constructor; [apply Hblank; reflexivity |].
    constructor; [apply Hblank; reflexivity |].
    constructor; [apply Hblank, truthy_zero |].
    constructor.
  - intros rows origin. apply excel_survey_trace.
  - intros rows sid org shots H. unfold ice2survey in H.
    destruct (upper_startswith_S sid); [discriminate H |].
    apply ice2survey_loop_trace in H.
    destruct H as (groups & -> & Hg). now exists groups.
  - intros rows i. apply enumerate_lookup.
Qed.

(** C10.  A [Down m] or [Back m] cell holding [0.0] is the same to both
    readers as a missing column and as an empty cell: anywhere in a
    sheet, the points yielded and the shots added, their names included,
    are equal. *)
Theorem zero_measurement_is_absent :
  forall pt az d inc other (pre post : list survey_row) origin sid org,
    Forall (fun absent =>
              excel_survey float_of_text
                (pre ++ mkRow pt az d inc (Some (VNum 0)) other :: post)
                origin
              = excel_survey float_of_text
                  (pre ++ mkRow pt az d inc absent other :: post) origin
              /\ excel_survey float_of_text
                   (pre ++ mkRow pt az d inc other (Some (VNum 0)) :: post)
                   origin
                 = excel_survey float_of_text
                     (pre ++ mkRow pt az d inc other absent :: post) origin
              /\ ice2survey float_of_text int_of_text m2ft
                   (pre ++ mkRow pt az d inc (Some (VNum 0)) other :: post)
                   sid org
                 = ice2survey float_of_text int_of_text m2ft
                     (pre ++ mkRow pt az d inc absent other :: post)
                     sid org
              /\ ice2survey float_of_text int_of_text m2ft
                   (pre ++ mkRow pt az d inc other (Some (VNum 0)) :: post)
                   sid org
                 = ice2survey float_of_text int_of_text m2ft
                     (pre ++ mkRow pt az d inc other absent :: post)
                     sid org)
           [None; Some (VStr "")].
Proof.
  intros pt az d inc other pre post origin sid org.
  pose proof truthy_zero as Hz.
  change (truthy (VNum 0)) with (truthy_opt (Some (VNum 0))) in Hz.
  assert (Hall : forall absent, truthy_opt absent = false ->
    excel_survey float_of_text
      (pre ++ mkRow pt az d inc (Some (VNum 0)) other :: post) origin
    = excel_survey float_of_text
        (pre ++ mkRow pt az d inc absent other :: post) origin
    /\ excel_survey float_of_text
         (pre ++ mkRow pt az d inc other (Some (VNum 0)) :: post) origin
       = excel_survey float_of_text
           (pre ++ mkRow pt az d inc other absent :: post) origin
    /\ ice2survey float_of_text int_of_text m2ft
         (pre ++ mkRow pt az d inc (Some (VNum 0)) other :: post) sid org
       = ice2survey float_of_text int_of_text m2ft
           (pre ++ mkRow pt az d inc absent other :: post) sid org
    /\ ice2survey float_of_text int_of_text m2ft
         (pre ++ mkRow pt az d inc other (Some (VNum 0)) :: post) sid org
       = ice2survey float_of_text int_of_text m2ft
           (pre ++ mkRow pt az d inc other absent :: post) sid org).
  { intros absent Ha. split; [| split; [| split]].
    - apply excel_survey_congr.
      now apply survey_row_point_falsy_down.
    - apply excel_survey_congr.
      now apply survey_row_point_falsy_back.
    - apply ice2survey_congr. intros o survey i.
      now apply ice2survey_row_falsy_down.
    - apply ice2survey_congr. intros o survey i.
      now apply ice2survey_row_falsy_back. }
  constructor; [apply Hall; reflexivity |].
  constructor; [apply Hall; reflexivity |].
  constructor.
Qed.

End ReaderClaims.

(** ** Points and shots of one survey row *)

Section OneRow.

Local Open Scope R_scope.

Variable float_of_text : string -> option R.
Variable int_of_text : string -> option Z.
Variable m2ft : R -> R.

(** The point [excel_survey] yields for a row with numeric cells. *)
Lemma excel_survey_numeric_row origin pt az d inc (down back : R) :
  d <> 0 ->
  exists p,
    excel_survey float_of_text
      [mkRow pt (Some (VNum az)) (Some (VNum d)) (Some (VNum inc))
             (Some (VNum down)) (Some (VNum back))] origin
    = ([p], None)
    /\ coords p
       = coords (let P := shot0 origin d az inc in
                 let D := if truthy (VNum down)
                          then shot0 P down 0 (-90) else P in
                 if truthy (VNum back) then shot0 D back az 0 else D)
    /\ name p = (let nm := default (VStr "") pt in
                 if truthy nm then Some nm else None).
Proof.
  intros Hd. eexists.
  rewrite excel_survey_one_row, survey_row_point_numeric by exact Hd.
  change (default (VNum 0) (Some (VNum down))) with (VNum down).
  change (default (VNum 0) (Some (VNum back))) with (VNum back).
  rewrite shot_chain. cbv beta iota delta [bind].
  split; [reflexivity |]. cbv zeta. unfold truthy_opt.
  destruct (truthy (default (VStr "") pt));
    destruct (truthy (VNum down)); destruct (truthy (VNum back));
    split; reflexivity.
Qed.

(** C1, amended.  For a row with a recorded distance and numeric cells:
    [ice_process.excel_survey] yields exactly one point, the end of the
    chain that starts at the primary point, drops by the down measurement
    if there is one and then runs back by the back measurement if there is
    one (and no row at all yields more than one point);
    [ice2dat.ice2survey] adds the primary shot first, then the down shot
    if there is a down measurement, then the back shot if there is a back
    measurement: between one and three shots. *)
Theorem one_point_and_up_to_three_shots (az d inc down back : R) :
  d <> 0 ->
  (forall origin pt,
      exists p,
        excel_survey float_of_text
          [mkRow pt (Some (VNum az)) (Some (VNum d)) (Some (VNum inc))
                 (Some (VNum down)) (Some (VNum back))] origin
        = ([p], None)
        /\ coords p
           = coords (let P := shot0 origin d az inc in
                     let D := if truthy (VNum down)
                              then shot0 P down 0 (-90) else P in
                     if truthy (VNum back) then shot0 D back az 0 else D))
  /\ (forall origin row,
      (length (fst (excel_survey float_of_text [row] origin)) <= 1)%nat)
  /\ (forall sid org pv point,
      upper_startswith_S sid = false ->
      point_number int_of_text 0 pv = Ok point ->
      exists shots,
        ice2survey float_of_text int_of_text m2ft
          [mkRow (Some pv) (Some (VNum az)) (Some (VNum d))
                 (Some (VNum inc)) (Some (VNum down)) (Some (VNum back))]
          sid org
        = Ok shots
        /\ List.map (fun s => (BEARING s, INC s, LENGTH s)) shots
           = (az, inc, m2ft d)
             :: (if truthy (VNum down) then [(az, -90, m2ft down)] else [])
             ++ (if truthy (VNum back) then [(az, 0, m2ft back)] else [])
        /\ (1 <= length shots <= 3)%nat).
Proof.
  intros Hd. split; [| split].
  - intros origin pt.
    destruct (excel_survey_numeric_row origin pt az d inc down back Hd)
      as (p & Hp & Hc & _).
    now exists p.
  - intros origin row. rewrite excel_survey_one_row.
    destruct (survey_row_point float_of_text origin row) as [[p |] | e];
      simpl; lia.
  - intros sid org pv point Hs Hp. eexists.
    rewrite ice2survey_one_row by exact Hs.
    rewrite ice2survey_row_numeric with (point := point) by assumption.
    split; [reflexivity |]. cbv zeta.
    destruct (truthy (VNum down)); destruct (truthy (VNum back));
      simpl; (split; [reflexivity | lia]).
Qed.

(** The point [excel_survey] yields for a row with numeric sights and no
    truthy auxiliary measurement. *)
Lemma excel_survey_plain_row origin pt az d inc dn bk :
  d <> 0 -> truthy_opt dn = false -> truthy_opt bk = false ->
  excel_survey float_of_text
    [mkRow pt (Some (VNum az)) (Some (VNum d)) (Some (VNum inc)) dn bk]
    origin
  = ([let P := shot0 origin d az inc in
      let nm := default (VStr "") pt in
      if truthy nm then set_name P (Some nm) else P], None).
Proof.
  intros Hd Hdn Hbk.
  rewrite excel_survey_one_row, survey_row_point_numeric by exact Hd.
  rewrite shot_plain by (now rewrite truthy_default_zero).
  reflexivity.
Qed.

(** C5, amended.  With [base] the survey id followed by the two-digit
    point number, in [ice2survey]: a row with neither a down nor a back
    measurement gives one shot, to the station ["S_" ++ base]; a row with
    both gives three, to [base], to ["d" ++ base] and to ["S_b" ++ base],
    the last one leaving from ["d" ++ base], the down station, not from
    [base].  In [ice_process], [excel_survey] yields one point for either
    row, named by the raw [Point] cell of the row, without any prefix, and
    unnamed if that cell is empty; for a row with both measurements it is
    the back sight taken from the foot of the drop, [down] below the
    primary point. *)
Theorem station_names_of_a_row (sid : string) (org : option string)
    (pv : value) (point : Z) (az d inc : R) :
  upper_startswith_S sid = false ->
  d <> 0 ->
  point_number int_of_text 0 pv = Ok point ->
  let base := (sid ++ fmt_02d point)%string in
  let o := origin_station sid org in
  (forall dn bk,
      truthy_opt dn = false -> truthy_opt bk = false ->
      ice2survey float_of_text int_of_text m2ft
        [mkRow (Some pv) (Some (VNum az)) (Some (VNum d)) (Some (VNum inc))
               dn bk] sid org
      = Ok [mkShot o ("S_" ++ base)%string az inc (m2ft d)])
  /\ (forall down back,
      down <> 0 -> back <> 0 ->
      ice2survey float_of_text int_of_text m2ft
        [mkRow (Some pv) (Some (VNum az)) (Some (VNum d)) (Some (VNum inc))
               (Some (VNum down)) (Some (VNum back))] sid org
      = Ok [mkShot o base az inc (m2ft d);
            mkShot base ("d" ++ base)%string az (-90) (m2ft down);
            mkShot ("d" ++ base)%string ("S_b" ++ base)%string az 0
                   (m2ft back)])
  /\ (forall origin dn bk,
      truthy_opt dn = false -> truthy_opt bk = false ->
      exists p,
        excel_survey float_of_text
          [mkRow (Some pv) (Some (VNum az)) (Some (VNum d))
                 (Some (VNum inc)) dn bk] origin
        = ([p], None)
        /\ name p = (if truthy pv then Some pv else None)
        /\ coords p = coords (shot0 origin d az inc))
  /\ (forall origin down back,
      down <> 0 -> back <> 0 ->
      exists p,
        excel_survey float_of_text
          [mkRow (Some pv) (Some (VNum az)) (Some (VNum d))
                 (Some (VNum inc)) (Some (VNum down)) (Some (VNum back))]
          origin
        = ([p], None)
        /\ name p = (if truthy pv then Some pv else None)
        /\ coords p
           = coords (shot0 (shot0 (shot0 origin d az inc) down 0 (-90))
                       back az 0)
        /\ z p = z (shot0 origin d az inc) - down).
Proof.
  intros Hs Hd Hp base o. split; [| split; [| split]].
  - intros dn bk Hdn Hbk.
    rewrite ice2survey_one_row by exact Hs.
    now rewrite ice2survey_row_plain with (point := point) by assumption.
  - intros down back Hdown Hback.
    rewrite ice2survey_one_row by exact Hs.
    rewrite ice2survey_row_numeric with (point := point) by assumption.
    rewrite (truthy_nonzero down Hdown), (truthy_nonzero back Hback).
    reflexivity.
  - intros origin dn bk Hdn Hbk. eexists.
    split; [now apply excel_survey_plain_row |].
    cbv zeta. simpl default. destruct (truthy pv); split; reflexivity.
  - intros origin down back Hdown Hback.
    destruct (excel_survey_numeric_row origin (Some pv) az d inc down back Hd)
      as (p & Hy & Hc & Hn).
    rewrite (truthy_nonzero down Hdown), (truthy_nonzero back Hback) in Hc.
    exists p. split; [exact Hy |]. split; [exact Hn |]. split; [exact Hc |].
    change (z p) with (snd (coords p)). rewrite Hc.
    rewrite shot0_level, shot0_down. reflexivity.
Qed.

End OneRow.

(** ** The readers on the sample rows *)

Section SampleRows.

Local Open Scope R_scope.

Lemma sample_point_number : point_number no_int 0 (VNum 1) = Ok 1%Z.
Proof. apply (point_number_IZR no_int 0 1). lia. Qed.

Lemma ten_nonzero : 10 <> 0.
Proof. lra. Qed.

(** C1, as stated, fails on a row with a drop: the specification's
    projection has two points for it, the primary point and the down
    point, and [excel_survey] yields one. *)
Lemma down_row_yields_one_point :
  List.map coords (fst (excel_survey no_float [down_row] zero_point))
  <> List.map coords (Spec.project_shot zero_point 10 90 0 (Some 2) None).
Proof.
  rewrite excel_survey_one_row. unfold down_row.
  rewrite survey_row_point_numeric by lra.
  unfold shot. simpl.
  destruct (Req_dec_T 2 0) as [E | _]; [lra |]. simpl.
  intros E. apply (f_equal (@length _)) in E. discriminate E.
Qed.

Lemma one_point_and_up_to_three_shots_witness :
  (exists p,
      excel_survey no_float [down_back_row] zero_point = ([p], None)
      /\ coords p
         = coords (let P := shot0 zero_point 10 90 0 in
                   let D := if truthy (VNum 2)
                            then shot0 P 2 0 (-90) else P in
                   if truthy (VNum 3) then shot0 D 3 90 0 else D))
  /\ (exists shots,
      ice2survey no_float no_int feet [down_back_row] "A" None = Ok shots
      /\ List.map (fun s => (BEARING s, INC s, LENGTH s)) shots
         = (90, 0, feet 10)
           :: (if truthy (VNum 2) then [(90, -90, feet 2)] else [])
           ++ (if truthy (VNum 3) then [(90, 0, feet 3)] else [])
      /\ (1 <= length shots <= 3)%nat).
Proof.
  destruct (one_point_and_up_to_three_shots no_float no_int feet
              90 10 0 2 3 ten_nonzero) as (Hpoint & _ & Hshots).
  split.
  - apply (Hpoint zero_point (Some (VNum 1))).
  - apply (Hshots "A"%string None (VNum 1) 1%Z).
    + reflexivity.
    + exact sample_point_number.
Defined.

Lemma station_names_of_a_row_witness :
  ice2survey no_float no_int feet [plain_row] "A" None
  = Ok [mkShot "A0" "S_A01" 90 0 (feet 10)]
  /\ ice2survey no_float no_int feet [down_back_row] "A" None
     = Ok [mkShot "A0" "A01" 90 0 (feet 10);
           mkShot "A01" "dA01" 90 (-90) (feet 2);
           mkShot "dA01" "S_bA01" 90 0 (feet 3)]
  /\ (exists p,
      excel_survey no_float [plain_row] zero_point = ([p], None)
      /\ name p = (if truthy (VNum 1) then Some (VNum 1) else None)
      /\ coords p = coords (shot0 zero_point 10 90 0))
  /\ (exists p,
      excel_survey no_float [down_back_row] zero_point = ([p], None)
      /\ name p = (if truthy (VNum 1) then Some (VNum 1) else None)
      /\ coords p
         = coords (shot0 (shot0 (shot0 zero_point 10 90 0) 2 0 (-90))
                     3 90 0)
      /\ z p = z (shot0 zero_point 10 90 0) - 2).
Proof.
  destruct (station_names_of_a_row no_float no_int feet "A" None (VNum 1)
              1%Z 90 10 0 eq_refl ten_nonzero sample_point_number)
    as (Hplain & Hboth & Hpoint & Hchain).
  split; [| split; [| split]].
  - apply (Hplain (Some (VStr "")) (Some (VStr ""))); reflexivity.
  - apply (Hboth 2 3); lra.
  - apply (Hpoint zero_point (Some (VStr "")) (Some (VStr ""))); reflexivity.
  - apply (Hchain zero_point 2 3); lra.
Defined.

(** C5, as stated, fails on [ice_process.excel_survey]: the point of a
    row with neither a down nor a back measurement is named by the number
    in its [Point] cell, not by a text with the surface prefix, and a row
    with both measurements yields one point, not three. *)
Lemma yielded_point_has_no_prefix :
  (exists p,
      excel_survey no_float [plain_row] zero_point = ([p], None)
      /\ name p = Some (VNum 1)
      /\ forall rest : string, name p <> Some (VStr ("S_" ++ rest)))
  /\ length (fst (excel_survey no_float [down_back_row] zero_point))
     <> 3%nat.
Proof.
  split.
  - eexists. split.
    + unfold plain_row. apply excel_survey_plain_row; [lra | |]; reflexivity.
    + cbv zeta. simpl default. rewrite truthy_nonzero by lra.
      split; [reflexivity |]. intros rest. discriminate.
  - destruct (excel_survey_numeric_row no_float zero_point (Some (VNum 1))
                90 10 0 2 3 ten_nonzero) as (p & Hy & _).
    unfold down_back_row. rewrite Hy. simpl. lia.
Qed.

End SampleRows.

(** ** Further geometry of [Point.shot] *)

Section MoreGeometry.

Local Open Scope R_scope.

(** The shot lands exactly [dist] away from where it was taken. *)
Theorem shot_covers_its_distance (p : Point) (d az inc : R) :
  let q := shot0 p d az inc in
  (x q - x p) * (x q - x p) + (y q - y p) * (y q - y p)
  + (z q - z p) * (z q - z p) = d * d.
Proof.
  unfold shot0. simpl.
  pose proof (sin2_cos2 (radians az)) as Ha.
  pose proof (sin2_cos2 (radians inc)) as Hi.
  unfold Rsqr in Ha, Hi.
  set (sa := sin (radians az)) in *. set (ca := cos (radians az)) in *.
  set (si := sin (radians inc)) in *. set (ci := cos (radians inc)) in *.
  replace ((x p + d * ci * sa - x p) * (x p + d * ci * sa - x p)
           + (y p + d * ci * ca - y p) * (y p + d * ci * ca - y p)
           + (z p + d * si - z p) * (z p + d * si - z p))
    with (d * d * (ci * ci * (sa * sa + ca * ca) + si * si)) by ring.
  rewrite Ha. replace (ci * ci * 1 + si * si) with (si * si + ci * ci) by ring.
  rewrite Hi. ring.
Qed.

(** In exact arithmetic, two shots along the same sight add up to one
    shot over the sum of their distances. *)
Theorem shots_along_a_sight_add (p : Point) (d1 d2 az inc : R) :
  shot0 (shot0 p d1 az inc) d2 az inc = shot0 p (d1 + d2) az inc.
Proof. unfold shot0. simpl. apply point_eq; ring. Qed.

(** In exact arithmetic, a negative distance walks the reversed sight:
    it lands where the positive distance lands with the azimuth turned by
    half a circle and the inclination negated. *)
Theorem negative_distance_is_reversed_sight (p : Point) (d az inc : R) :
  shot0 p (- d) az inc = shot0 p d (pymod (az + 180) 360) (- inc).
Proof.
  unfold shot0.
  rewrite sin_reversed, cos_reversed, radians_opp, cos_neg, sin_neg.
  apply point_eq; ring.
Qed.

(** In exact arithmetic, only the azimuth modulo 360 matters, whatever
    its sign or size. *)
Theorem azimuth_counts_modulo_360 (p : Point) (d az inc : R) :
  shot0 p d (pymod az 360) inc = shot0 p d az inc
  /\ shot0 p d (az + 360) inc = shot0 p d az inc
  /\ shot0 p d (az - 360) inc = shot0 p d az inc.
Proof.
  assert (Hmod : forall a (k : Z),
             shot0 p d (a - 360 * IZR k) inc = shot0 p d a inc).
  { intros a k. unfold shot0.
    replace (radians (a - 360 * IZR k))
      with (radians a - 2 * IZR k * PI) by (unfold radians; lra).
    rewrite sin_turns, cos_turns. reflexivity. }
  split; [| split].
  - unfold pymod. apply Hmod.
  - replace (az + 360) with (az - 360 * IZR (-1)) by (simpl; lra).
    apply Hmod.
  - replace (az - 360) with (az - 360 * IZR 1) by (simpl; lra).
    apply Hmod.
Qed.

(** With numeric cells [shot] always returns, and in exact arithmetic
    the two guards [if down] and [if back] do not show in the result: the
    point returned is the primary point, moved [back] further along the
    azimuth and [down] lower, zero or not. *)
Theorem shot_with_numeric_cells (origin : Point) (d az inc down back : R)
    (nm : option value) :
  exists p,
    shot origin d az inc (VNum down) (VNum back) nm = Ok p
    /\ x p = x origin + (d * cos (radians inc) + back) * sin (radians az)
    /\ y p = y origin + (d * cos (radians inc) + back) * cos (radians az)
    /\ z p = z origin + d * sin (radians inc) - down
    /\ name p = (if truthy_opt nm then nm else None).
Proof.
  eexists. split; [apply shot_chain |].
  cbv zeta. simpl truthy.
  destruct (Req_dec_T down 0) as [-> | Hdn];
    destruct (Req_dec_T back 0) as [-> | Hbk];
    rewrite ?shot0_level, ?shot0_down;
    destruct (truthy_opt nm); unfold shot0; simpl;
    (split; [| split; [| split]]); try reflexivity; ring.
Qed.

(** [Point.shot] raises exactly when [down] or [back] holds a non-empty
    text, and what it raises is then a [TypeError]. *)
Theorem shot_raises_on_text_only (origin : Point) (d az inc : R)
    (down back : value) (nm : option value) :
  (forall e, shot origin d az inc down back nm = Raise e -> e = TypeError)
  /\ ((exists e, shot origin d az inc down back nm = Raise e)
      <-> (exists s, (down = VStr s \/ back = VStr s) /\ s <> ""%string)).
Proof.
  assert (Htext : forall s, truthy (VStr s) = true <-> s <> ""%string).
  { intros s. simpl. destruct (String.eqb_spec s ""); simpl; split;
      congruence. }
  unfold shot. split.
  - intros e.
    destruct down as [sd | rd]; destruct back as [sb | rb];
      repeat match goal with
             | |- context [truthy ?v] => destruct (truthy v)
             end; simpl; congruence.
  - split.
    + intros [e He]. revert He.
      destruct down as [sd | rd]; destruct back as [sb | rb].
      * destruct (truthy (VStr sd)) eqn:Ed.
        -- intros _. exists sd. split; [now left | now apply Htext].
        -- destruct (truthy (VStr sb)) eqn:Eb; [| discriminate].
           intros _. exists sb. split; [now right | now apply Htext].
      * destruct (truthy (VStr sd)) eqn:Ed.
        -- intros _. exists sd. split; [now left | now apply Htext].
        -- destruct (truthy (VNum rb)); discriminate.
      * destruct (truthy (VStr sb)) eqn:Eb.
        -- intros _. exists sb. split; [now right | now apply Htext].
        -- destruct (truthy (VNum rd)); discriminate.
      * destruct (truthy (VNum rd)); destruct (truthy (VNum rb));
          discriminate.
    + intros (s & [-> | ->] & Hs); apply Htext in Hs.
      * rewrite Hs. simpl. now exists TypeError.
      * rewrite Hs.
        destruct (truthy down); [destruct (number down) |]; simpl;
          eexists; reflexivity.
Qed.

End MoreGeometry.

Section MoreGeometryWitness.

Local Open Scope R_scope.

Lemma shot_raises_on_text_only_witness :
  TypeError = TypeError
  /\ (exists s, (VStr "n/a" = VStr s \/ VNum 0 = VStr s) /\ s <> ""%string).
Proof.
  destruct (shot_raises_on_text_only zero_point 10 90 0 (VStr "n/a") (VNum 0)
              None) as (Hkind & Hiff).
  assert (Hraise : shot zero_point 10 90 0 (VStr "n/a") (VNum 0) None
                   = Raise TypeError) by reflexivity.
  split.
  - apply (Hkind TypeError Hraise).
  - apply Hiff. exists TypeError. exact Hraise.
Defined.

End MoreGeometryWitness.

(** ** When the resolver returns and when it raises *)

Section Outcome.

Local Open Scope R_scope.

Implicit Types (st : stations) (row : tiein_row) (rows : list tiein_row).
Implicit Types (k : string) (p : Point).

Lemma while_loop_returned fuel rows passes st0 st :
  (passes <= 5)%nat ->
  while_loop fuel rows passes st0 = Returned st <->
  exists m, (m <= fuel)%nat /\ (passes + m <= 5)%nat
            /\ st = Nat.iter m (one_pass rows) st0
            /\ none_in_values (Nat.iter m (one_pass rows) st0) = false
            /\ forall j, (j < m)%nat ->
                 none_in_values (Nat.iter j (one_pass rows) st0) = true.
Proof.
  revert passes st0. induction fuel as [| fuel IH]; intros passes st0 Hp5.
  - simpl. destruct (none_in_values st0) eqn:E0; split.
    + discriminate.
    + intros (m & Hm & _ & _ & Hc & _).
      assert (m = 0%nat) as -> by lia. simpl in Hc. congruence.
    + intros [= <-]. exists 0%nat. simpl.
      repeat split; try lia. exact E0.
    + intros (m & Hm & _ & -> & _ & _).
      assert (m = 0%nat) as -> by lia. reflexivity.
  - simpl. destruct (none_in_values st0) eqn:E0.
    + destruct (Nat.ltb_spec 5 (S passes)) as [Hlt | Hge]; split.
      * discriminate.
      * intros (m & _ & Hp & _ & Hc & _).
        assert (m = 0%nat) as -> by lia. simpl in Hc. congruence.
      * intros H. apply IH in H; [| lia].
        destruct H as (m & Hm & Hp & -> & Hc & Hb).
        exists (S m). rewrite <- !iter_shift.
        repeat split; try lia; try assumption.
        intros [| j] Hj; [exact E0 |].
        rewrite <- iter_shift. apply Hb. lia.
      * intros (m & Hm & Hp & -> & Hc & Hb).
        destruct m as [| m]; [simpl in Hc; congruence |].
        apply IH; [lia |]. exists m. rewrite !iter_shift.
        repeat split; try lia; try assumption.
        intros j Hj. rewrite iter_shift. apply Hb. lia.
    + split.
      * intros [= <-]. exists 0%nat. simpl.
        repeat split; try lia. exact E0.
      * intros (m & Hm & _ & -> & _ & Hb).
        destruct m as [| m]; [reflexivity |].
        specialize (Hb 0%nat ltac:(lia)). simpl in Hb. congruence.
Qed.

Lemma excel_tiein_returned rows st :
  excel_tiein rows = Returned st <->
  exists n, (n <= 5)%nat
            /\ st = after n rows
            /\ none_in_values (after n rows) = false
            /\ forall j, (j < n)%nat -> none_in_values (after j rows) = true.
Proof.
  unfold excel_tiein, excel_tiein_fuel.
  rewrite while_loop_returned by lia.
  split.
  - intros (m & Hm & Hp & Hst & Hc & Hb). exists m.
    repeat split; try assumption; lia.
  - intros (n & Hn & Hst & Hc & Hb). exists n.
    repeat split; try assumption; lia.
Qed.

(** The first index at which a test fails. *)
Lemma first_false (f : nat -> bool) (n : nat) :
  f n = false ->
  exists m, (m <= n)%nat /\ f m = false
            /\ forall j, (j < m)%nat -> f j = true.
Proof.
  assert (Hscan : forall i,
             (forall j, (j < i)%nat -> f j = true)
             \/ exists m, (m < i)%nat /\ f m = false
                          /\ forall j, (j < m)%nat -> f j = true).
  { induction i as [| i [Hall | Hex]].
    - left. intros j Hj. lia.
    - destruct (f i) eqn:Ei.
      + left. intros j Hj.
        destruct (Nat.eq_dec j i) as [-> | Hne]; [exact Ei | apply Hall; lia].
      + right. exists i. repeat split; [lia | exact Ei | exact Hall].
    - right. destruct Hex as (m & Hm & Hf & Hb).
      exists m. repeat split; [lia | exact Hf | exact Hb]. }
  intros Hn. destruct (Hscan n) as [Hall | (m & Hm & Hf & Hb)].
  - exists n. repeat split; [lia | exact Hn | exact Hall].
  - exists m. repeat split; [lia | exact Hf | exact Hb].
Qed.

(** The call returns exactly when some table up to the fifth sweep holds
    no [None]; what it returns is the first such table. *)
Theorem returns_first_complete_table (rows : list tiein_row) (st : stations) :
  excel_tiein rows = Returned st <->
  exists n, (n <= 5)%nat
            /\ st = after n rows
            /\ none_in_values (after n rows) = false
            /\ forall j, (j < n)%nat -> none_in_values (after j rows) = true.
Proof. apply excel_tiein_returned. Qed.

(** The call raises exactly when a station is still unresolved after the
    fifth sweep.  It then runs a sixth sweep and raises with the table that
    sweep leaves, whether or not that table is complete. *)
Theorem raises_iff_unresolved_after_five (rows : list tiein_row) :
  (none_in_values (after 5 rows) = true ->
   excel_tiein rows = Failed 6 (after 6 rows))
  /\ ((exists n st, excel_tiein rows = Failed n st) ->
      none_in_values (after 5 rows) = true).
Proof.
  split.
  - intros H5.
    apply (while_loop_stuck 6 rows 0 (init rows)); [lia | lia |].
    intros j Hj. apply (unresolved_before rows 5 j); [lia | exact H5].
  - intros (n & st & Hf).
    destruct (none_in_values (after 5 rows)) eqn:E5; [reflexivity |].
    destruct (first_false (fun j => none_in_values (after j rows)) 5 E5)
      as (m & Hm & Hc & Hb).
    assert (Hret : excel_tiein rows = Returned (after m rows)).
    { apply excel_tiein_returned. exists m. repeat split; assumption. }
    congruence.
Qed.

End Outcome.

(** ** Sheets the resolver can and cannot place *)

Section Placing.

Local Open Scope R_scope.

Implicit Types (st : stations) (row : tiein_row) (rows : list tiein_row).
Implicit Types (k : string) (p : Point).

Lemma entry_resolved st k :
  none_in_values st = false -> is_Some (st !! k) -> exists p, get st k = Some p.
Proof.
  intros Hn [v Hv]. rewrite none_in_values_false in Hn.
  destruct v as [p |]; [| now elim (Hn k)].
  exists p. now apply get_Some.
Qed.

(** What the call returns has a point for every station the sheet
    names, so looking up any of them in the returned table succeeds. *)
Theorem returned_table_places_every_station (rows : list tiein_row)
    (st : stations) :
  excel_tiein rows = Returned st ->
  forall row, In row rows ->
    (exists p, get st (tie_From row) = Some p)
    /\ (exists q, get st (tie_To row) = Some q).
Proof.
  intros Hret row Hin.
  apply excel_tiein_returned in Hret.
  destruct Hret as (n & _ & -> & Hc & _).
  destruct (table_at_names rows n 0 row Hin) as [Hf Ht].
  rewrite table_at_0 in Hf, Ht.
  split; now apply entry_resolved.
Qed.

(** Once a table holds no [None], further sweeps leave it as it is. *)
Theorem complete_table_is_stable (rows : list tiein_row) (n m : nat) :
  none_in_values (after n rows) = false ->
  after (m + n) rows = after n rows.
Proof. apply after_settled. Qed.

(** *** Sheets without a fixed station *)

Lemma enter_unfixed_blank st row :
  ~ fixes row -> (forall k, get st k = None) ->
  forall k, get (enter st row) k = None.
Proof.
  intros Hfix Hst.
  assert (H1 : forall k,
             get (<[tie_From row := get st (tie_From row)]> st) k = None).
  { intros k. destruct (decide (tie_From row = k)) as [<- | Hne].
    - rewrite get_insert_eq. apply Hst.
    - rewrite get_insert_ne by exact Hne. apply Hst. }
  intros k. unfold enter.
  destruct (tie_Alt_m row) as [[| alt] |] eqn:Halt.
  - destruct (decide (tie_To row = k)) as [<- | Hne].
    + rewrite get_insert_eq. apply H1.
    + rewrite get_insert_ne by exact Hne. apply H1.
  - elim Hfix. now exists alt.
  - destruct (decide (tie_To row = k)) as [<- | Hne].
    + rewrite get_insert_eq. apply H1.
    + rewrite get_insert_ne by exact Hne. apply H1.
Qed.

Lemma enters_unfixed_blank rows st :
  (forall row, In row rows -> ~ fixes row) -> (forall k, get st k = None) ->
  forall k, get (fold_left enter rows st) k = None.
Proof.
  revert st. induction rows as [| r rows IH]; intros st Hfix Hst; [exact Hst |].
  simpl. apply IH.
  - intros row Hin. apply Hfix. now right.
  - apply enter_unfixed_blank; [apply Hfix; now left | exact Hst].
Qed.

Lemma visits_blank (rs : list tiein_row) st :
  (forall k, get st k = None) -> fold_left visit rs st = st.
Proof.
  intros Hst. induction rs as [| r rs IH]; [reflexivity |].
  simpl. rewrite visit_neither by apply Hst. exact IH.
Qed.

Lemma sweeps_blank rows st (n : nat) :
  (forall k, get st k = None) -> Nat.iter n (one_pass rows) st = st.
Proof.
  intros Hst. induction n as [| n IH]; [reflexivity |].
  simpl. rewrite IH. now apply visits_blank.
Qed.

(** A sheet in which no row gives coordinates can never be placed: with
    no rows the call returns the empty table, and with at least one row it
    raises after six sweeps that change nothing, every station still
    [None]. *)
Theorem no_fixed_station_no_coordinates (rows : list tiein_row) :
  (forall row, In row rows -> ~ fixes row) ->
  (rows = [] -> excel_tiein rows = Returned ∅)
  /\ (rows <> [] ->
      excel_tiein rows = Failed 6 (init rows)
      /\ forall k, get (init rows) k = None).
Proof.
  intros Hfix. split.
  - intros ->. reflexivity.
  - intros Hne.
    assert (Hblank : forall k, get (init rows) k = None).
    { apply enters_unfixed_blank; [exact Hfix |].
      intros k. unfold get. now rewrite lookup_empty. }
    split; [| exact Hblank].
    assert (Hnone : none_in_values (init rows) = true).
    { destruct rows as [| r rows]; [now elim Hne |].
      apply none_in_values_true. exists (tie_From r).
      destruct (init_names (r :: rows) r (or_introl eq_refl)) as [[v Hv] _].
      specialize (Hblank (tie_From r)). unfold get in Hblank.
      rewrite Hv in Hblank. simpl in Hblank. now rewrite Hv, Hblank. }
    unfold excel_tiein, excel_tiein_fuel.
    rewrite (while_loop_stuck 6 rows 0 (init rows)); [| lia | lia |].
    + now rewrite sweeps_blank.
    + intros j _. now rewrite sweeps_blank.
Qed.

(** *** A station placed by the reversed sight *)

Lemma shot0_back_and_forth (q : Point) (d az inc : R) :
  shot0 (shot0 q d (pymod (az + 180) 360) (- inc)) d az inc
  = mkPoint (x q) (y q) (z q) None.
Proof.
  unfold shot0. simpl.
  rewrite sin_reversed, cos_reversed, radians_opp, cos_neg, sin_neg.
  apply point_eq; ring.
Qed.

(** When a row places its [From] station from its [To] station, the
    sight of the row taken from the new point lands, in exact arithmetic,
    on the [To] station. *)
Theorem backward_placement_fits_the_sight (st : stations) (row : tiein_row)
    (q : Point) :
  get st (tie_From row) = None -> get st (tie_To row) = Some q ->
  exists p,
    get (visit st row) (tie_From row) = Some p
    /\ get (visit st row) (tie_To row) = Some q
    /\ coords (shot0 p (tie_Dist_m row) (tie_Azm row) (tie_Inc row))
       = coords q.
Proof.
  intros Hf Ht. rewrite (visit_backward st row q Hf Ht).
  eexists. split; [apply get_insert_eq |]. split.
  - rewrite get_insert_ne; [exact Ht |]. congruence.
  - rewrite shot0_back_and_forth. reflexivity.
Qed.

End Placing.

(** ** Sheets written down in walking order *)

Section WalkingOrder.

Local Open Scope R_scope.

Implicit Types (st : stations) (row : tiein_row) (rows : list tiein_row).
Implicit Types (k : string) (p : Point).

Lemma visit_resolved st row k :
  get st k <> None -> get (visit st row) k <> None.
Proof.
  intros Hk. destruct (get st k) as [p |] eqn:E; [| now elim Hk].
  now rewrite (visit_keeps st row k p E).
Qed.

Lemma visits_resolved (rs : list tiein_row) st k :
  get st k <> None -> get (fold_left visit rs st) k <> None.
Proof.
  revert st. induction rs as [| r rs IH]; intros st Hk; [exact Hk |].
  simpl. apply IH. now apply visit_resolved.
Qed.

Lemma visit_places_to st row :
  get st (tie_From row) <> None -> get (visit st row) (tie_To row) <> None.
Proof.
  intros Hf. unfold visit.
  destruct (get st (tie_From row)) as [fp |] eqn:Ef; [| now elim Hf].
  destruct (get st (tie_To row)) as [tp |] eqn:Et.
  - now rewrite Et.
  - now rewrite get_insert_eq.
Qed.

Lemma visit_places_from st row :
  get st (tie_To row) <> None -> get (visit st row) (tie_From row) <> None.
Proof.
  intros Ht. unfold visit.
  destruct (get st (tie_To row)) as [tp |] eqn:Et; [| now elim Ht].
  destruct (get st (tie_From row)) as [fp |] eqn:Ef.
  - now rewrite Ef.
  - now rewrite get_insert_eq.
Qed.

Lemma outward_sweep rows :
  forall seen st,
    (forall k, In k seen -> get st k <> None) ->
    outward seen rows ->
    forall k, In k seen \/ (exists r, In r rows /\ k = tie_To r) ->
              get (fold_left visit rows st) k <> None.
Proof.
  induction rows as [| r rows IH]; intros seen st Hseen Hout k Hk.
  - destruct Hk as [Hk | (r & [] & _)]. now apply Hseen.
  - destruct Hout as [Hfrom Hout]. simpl.
    apply (IH (tie_To r :: seen)); [| exact Hout |].
    + intros k' [<- | Hk'].
      * apply visit_places_to. now apply Hseen.
      * apply visit_resolved. now apply Hseen.
    + destruct Hk as [Hk | (r' & [<- | Hr'] & ->)].
      * left. now right.
      * left. now left.
      * right. now exists r'.
Qed.

Lemma outward_from_met rows :
  forall seen, outward seen rows ->
    forall r, In r rows ->
      In (tie_From r) seen \/ exists r', In r' rows /\ tie_From r = tie_To r'.
Proof.
  induction rows as [| r0 rows IH]; intros seen Hout r Hin; [destruct Hin |].
  destruct Hout as [Hfrom Hout]. destruct Hin as [<- | Hin].
  - now left.
  - destruct (IH _ Hout r Hin) as [[Heq | Hs] | (r' & Hr' & Heq)].
    + right. exists r0. split; [now left | now symmetry].
    + now left.
    + right. exists r'. split; [now right | exact Heq].
Qed.

(** *** The names a table can hold *)

Lemma enter_keys st row k :
  is_Some (enter st row !! k) ->
  is_Some (st !! k) \/ k = tie_From row \/ k = tie_To row.
Proof.
  unfold enter. intros H.
  destruct (tie_Alt_m row) as [[| alt] |];
    apply lookup_insert_is_Some in H;
    (destruct H as [<- | [_ H]]; [now right; right |]);
    apply lookup_insert_is_Some in H;
    (destruct H as [<- | [_ H]]; [now right; left | now left]).
Qed.

Lemma enters_keys rows st k :
  is_Some (fold_left enter rows st !! k) -> is_Some (st !! k) \/ names rows k.
Proof.
  revert st. induction rows as [| r rows IH]; intros st H; [now left |].
  simpl in H. apply IH in H. destruct H as [H | (row & Hin & Hk)].
  - apply enter_keys in H. destruct H as [H | H]; [now left |].
    right. exists r. split; [now left | exact H].
  - right. exists row. split; [now right | exact Hk].
Qed.

Lemma visit_keys st row k :
  is_Some (visit st row !! k) ->
  is_Some (st !! k) \/ k = tie_From row \/ k = tie_To row.
Proof.
  unfold visit. intros H.
  destruct (get st (tie_From row)), (get st (tie_To row)); try (now left);
    apply lookup_insert_is_Some in H;
    (destruct H as [<- | [_ H]]; [| now left]).
  - now right; right.
  - now right; left.
Qed.

Lemma visits_keys (rs : list tiein_row) st k :
  is_Some (fold_left visit rs st !! k) -> is_Some (st !! k) \/ names rs k.
Proof.
  revert st. induction rs as [| r rs IH]; intros st H; [now left |].
  simpl in H. apply IH in H. destruct H as [H | (row & Hin & Hk)].
  - apply visit_keys in H. destruct H as [H | H]; [now left |].
    right. exists r. split; [now left | exact H].
  - right. exists row. split; [now right | exact Hk].
Qed.

Lemma after_keys rows (n : nat) k :
  is_Some (after n rows !! k) -> names rows k.
Proof.
  induction n as [| n IH]; intros H.
  - apply enters_keys in H. destruct H as [H | H]; [| exact H].
    rewrite lookup_empty in H. now destruct H.
  - rewrite after_S in H. apply visits_keys in H.
    destruct H as [H | H]; [now apply IH | exact H].
Qed.

(** *** The fixed row *)

Lemma enter_resolved st row k :
  get st k <> None -> get (enter st row) k <> None.
Proof.
  intros Hk. unfold enter.
  assert (H1 : get (<[tie_From row := get st (tie_From row)]> st) k <> None).
  { destruct (decide (tie_From row = k)) as [<- | Hne].
    - now rewrite get_insert_eq.
    - now rewrite get_insert_ne. }
  destruct (tie_Alt_m row) as [[| alt] |];
    (destruct (decide (tie_To row = k)) as [<- | Hne];
     [rewrite get_insert_eq | rewrite get_insert_ne by exact Hne]);
    try exact H1; discriminate.
Qed.

Lemma enters_resolved rows st k :
  get st k <> None -> get (fold_left enter rows st) k <> None.
Proof.
  revert st. induction rows as [| r rows IH]; intros st Hk; [exact Hk |].
  simpl. apply IH. now apply enter_resolved.
Qed.

Lemma enter_fixed st row :
  fixes row -> get (enter st row) (tie_To row) <> None.
Proof.
  intros [alt Halt]. unfold enter. rewrite Halt, get_insert_eq. discriminate.
Qed.

(** A sheet that opens with a row giving coordinates, and then lists
    every sight outward (from a station of the first row or the far end of
    an earlier row) is placed by the first sweep, however long it is: the
    call returns the table of that sweep. *)
Theorem outward_sheet_placed_in_one_sweep (r0 : tiein_row)
    (rest : list tiein_row) :
  fixes r0 ->
  outward [tie_To r0; tie_From r0] rest ->
  excel_tiein (r0 :: rest) = Returned (after 1 (r0 :: rest))
  /\ forall row, In row (r0 :: rest) ->
       get (after 1 (r0 :: rest)) (tie_From row) <> None
       /\ get (after 1 (r0 :: rest)) (tie_To row) <> None.
Proof.
  intros Hfix Hout. set (rows := r0 :: rest).
  assert (Hinit : get (init rows) (tie_To r0) <> None).
  { unfold init, rows. simpl. apply enters_resolved. now apply enter_fixed. }
  assert (Hmet : forall k, In k [tie_To r0; tie_From r0] ->
                           get (visit (init rows) r0) k <> None).
  { intros k [<- | [<- | []]].
    - now apply visit_resolved.
    - now apply visit_places_from. }
  assert (Hsweep : forall k,
             In k [tie_To r0; tie_From r0]
             \/ (exists r, In r rest /\ k = tie_To r) ->
             get (after 1 rows) k <> None).
  { intros k Hk. rewrite after_S. unfold one_pass, rows. simpl.
    now apply (outward_sweep rest [tie_To r0; tie_From r0]). }
  assert (Hall : forall k, names rows k -> get (after 1 rows) k <> None).
  { intros k (row & [<- | Hin] & [-> | ->]).
    - apply Hsweep. left. right. now left.
    - apply Hsweep. left. now left.
    - destruct (outward_from_met rest _ Hout row Hin) as [Hs | (r' & Hr' & ->)].
      + apply Hsweep. now left.
      + apply Hsweep. right. now exists r'.
    - apply Hsweep. right. now exists row. }
  assert (Hdone : none_in_values (after 1 rows) = false).
  { apply none_in_values_false. intros k Hk.
    apply (Hall k).
    - apply (after_keys rows 1). rewrite Hk. now eexists.
    - unfold get. now rewrite Hk. }
  split.
  - destruct (first_false (fun j => none_in_values (after j rows)) 1 Hdone)
      as (m & Hm & Hc & Hb).
    assert (Heq : after 1 rows = after m rows).
    { destruct m as [| [| m]]; [| reflexivity | lia].
      apply (after_settled rows 0 1 Hc). }
    rewrite Heq. apply excel_tiein_returned. exists m.
    repeat split; try assumption. lia.
  - intros row Hin. split; apply Hall; exists row; split; auto.
Qed.

End WalkingOrder.

(** ** The resolver on the sample traverses *)

Section ResolverSamples.

Local Open Scope R_scope.

Lemma returns_first_complete_table_witness :
  exists n, (n <= 5)%nat
    /\ <["A0"%string := Some (mkPoint 0 0 0 None)]> (init backward_sheet)
       = after n backward_sheet
    /\ none_in_values (after n backward_sheet) = false
    /\ forall j, (j < n)%nat -> none_in_values (after j backward_sheet) = true.
Proof.
  apply (proj1 (returns_first_complete_table backward_sheet _)).
  exact backward_sheet_outcome.
Defined.

(** The traverse written from its far end is complete after the sixth
    sweep, and the call raises all the same. *)
Lemma raises_iff_unresolved_after_five_witness :
  none_in_values (after 5 far_end_first_sheet) = true
  /\ excel_tiein far_end_first_sheet = Failed 6 (after 6 far_end_first_sheet)
  /\ none_in_values (after 6 far_end_first_sheet) = false.
Proof.
  split; [reflexivity |]. split; [| reflexivity].
  apply (proj1 (raises_iff_unresolved_after_five far_end_first_sheet)).
  reflexivity.
Defined.

Lemma returned_table_places_every_station_witness :
  (exists p, get (<["A0"%string := Some (mkPoint 0 0 0 None)]>
                    (init backward_sheet)) "A0" = Some p)
  /\ (exists q, get (<["A0"%string := Some (mkPoint 0 0 0 None)]>
                       (init backward_sheet)) "B0" = Some q).
Proof.
  apply (returned_table_places_every_station backward_sheet _
           backward_sheet_outcome
           (mkTie "A0" "B0" 5 90 0 (Some 5) (Some 0) (Some (Num 0)))).
  left. reflexivity.
Defined.

Lemma complete_table_is_stable_witness :
  after (2 + 1) backward_sheet = after 1 backward_sheet.
Proof. apply complete_table_is_stable. reflexivity. Defined.

Lemma no_fixed_station_no_coordinates_witness :
  excel_tiein loose_sheet = Failed 6 (init loose_sheet)
  /\ forall k, get (init loose_sheet) k = None.
Proof.
  apply (no_fixed_station_no_coordinates loose_sheet).
  - intros row [<- | []] [alt Halt]. discriminate Halt.
  - discriminate.
Defined.

Lemma backward_placement_fits_the_sight_witness :
  exists p,
    get (visit (init backward_sheet)
           (mkTie "A0" "B0" 5 90 0 (Some 5) (Some 0) (Some (Num 0)))) "A0"
    = Some p
    /\ get (visit (init backward_sheet)
              (mkTie "A0" "B0" 5 90 0 (Some 5) (Some 0) (Some (Num 0)))) "B0"
       = Some (mkPoint 5 0 0 None)
    /\ coords (shot0 p 5 90 0) = coords (mkPoint 5 0 0 None).
Proof.
  apply (backward_placement_fits_the_sight (init backward_sheet)
           (mkTie "A0" "B0" 5 90 0 (Some 5) (Some 0) (Some (Num 0)))
           (mkPoint 5 0 0 None)); reflexivity.
Defined.

Lemma outward_sheet_placed_in_one_sweep_witness :
  excel_tiein walking_order_sheet = Returned (after 1 walking_order_sheet)
  /\ forall row, In row walking_order_sheet ->
       get (after 1 walking_order_sheet) (tie_From row) <> None
       /\ get (after 1 walking_order_sheet) (tie_To row) <> None.
Proof.
  apply (outward_sheet_placed_in_one_sweep
           (mkTie "X0" "P0" 1 90 0 (Some 0) (Some 0) (Some (Num 0)))).
  - exists 0. reflexivity.
  - simpl. repeat split; auto 10.
Defined.

End ResolverSamples.

(** ** The generator [excel_survey] on whole sheets *)

Section Generator.

Local Open Scope R_scope.

Variable float_of_text : string -> option R.

Lemma excel_survey_app (l1 l2 : list survey_row) (origin : Point) :
  excel_survey float_of_text (l1 ++ l2) origin
  = match excel_survey float_of_text l1 origin with
    | (ps, None) =>
        let '(qs, e) := excel_survey float_of_text l2 origin in (ps ++ qs, e)
    | (ps, Some e) => (ps, Some e)
    end.
Proof.
  induction l1 as [| row l1 IH]; simpl.
  - now destruct (excel_survey float_of_text l2 origin).
  - destruct (survey_row_point float_of_text origin row) as [[p |] | e].
    + rewrite IH.
      destruct (excel_survey float_of_text l1 origin) as [ps [e |]];
        [reflexivity |].
      now destruct (excel_survey float_of_text l2 origin).
    + exact IH.
    + reflexivity.
Qed.

(** Reading a sheet in two parts: when the first part ends without an
    exception the points of the second part follow those of the first, and
    an exception in the first part ends the whole reading there. *)
Theorem excel_survey_reads_in_sequence (l1 l2 : list survey_row)
    (origin : Point) :
  excel_survey float_of_text (l1 ++ l2) origin
  = match excel_survey float_of_text l1 origin with
    | (ps, None) =>
        let '(qs, e) := excel_survey float_of_text l2 origin in (ps ++ qs, e)
    | (ps, Some e) => (ps, Some e)
    end.
Proof. apply excel_survey_app. Qed.

(** A row that raises ends the generator: the points of the rows before
    it have been yielded, and no row after it is read. *)
Theorem exception_ends_the_generator (pre post : list survey_row)
    (row : survey_row) (origin : Point) (e : exn) :
  snd (excel_survey float_of_text pre origin) = None ->
  survey_row_point float_of_text origin row = Raise e ->
  excel_survey float_of_text (pre ++ row :: post) origin
  = (fst (excel_survey float_of_text pre origin), Some e).
Proof.
  intros Hpre Hrow. rewrite excel_survey_app.
  destruct (excel_survey float_of_text pre origin) as [ps [e' |]];
    [discriminate |].
  simpl. rewrite Hrow. now rewrite app_nil_r.
Qed.

(** The generator yields at most one point per row that has a distance,
    and exactly one per such row when it ends without an exception. *)
Theorem points_per_row_with_distance (rows : list survey_row)
    (origin : Point) :
  (length (fst (excel_survey float_of_text rows origin))
   <= length (List.filter has_distance rows))%nat
  /\ (snd (excel_survey float_of_text rows origin) = None ->
      length (fst (excel_survey float_of_text rows origin))
      = length (List.filter has_distance rows)).
Proof.
  induction rows as [| row rows [IHle IHeq]]; [split; reflexivity |].
  simpl. destruct (has_distance row) eqn:Hd.
  - pose proof (survey_row_point_not_skipped float_of_text origin row Hd)
      as Hns.
    destruct (survey_row_point float_of_text origin row) as [[p |] | e].
    + destruct (excel_survey float_of_text rows origin) as [ps e'].
      simpl in *. split; [lia |]. intros He. now rewrite IHeq.
    + now elim Hns.
    + simpl. split; [lia | discriminate].
  - rewrite survey_row_point_blank by exact Hd. split; assumption.
Qed.

(** A yielded point carries the [Point] cell of its row as its name, and
    no name at all when that cell is missing, empty or zero. *)
Theorem yielded_point_is_named_by_its_row (origin : Point) (row : survey_row)
    (p : Point) :
  survey_row_point float_of_text origin row = Ok (Some p) ->
  name p = (let nm := default (VStr "") (row_Point row) in
            if truthy nm then Some nm else None).
Proof.
  unfold survey_row_point.
  destruct (negb (has_distance row)); [discriminate |].
  destruct (getitem "Dist m" (row_Dist_m row)); simpl; [| discriminate].
  destruct (float float_of_text a); simpl; [| discriminate].
  destruct (getitem "Azm" (row_Azm row)); simpl; [| discriminate].
  destruct (float float_of_text a1); simpl; [| discriminate].
  destruct (getitem "Inc" (row_Inc row)); simpl; [| discriminate].
  destruct (float float_of_text a3); simpl; [| discriminate].
  destruct (shot _ _ _ _ _ _ _) as [q |] eqn:Hs; simpl; [| discriminate].
  intros [= <-]. apply shot_name in Hs. exact Hs.
Qed.

(** *** Moving the origin *)

Lemma shot0_translate dx dy dz (p : Point) (d az inc : R) :
  shot0 (translate dx dy dz p) d az inc
  = translate dx dy dz (shot0 p d az inc).
Proof. unfold shot0, translate. simpl. apply point_eq; ring. Qed.

Lemma shot_translate dx dy dz (origin : Point) (d az inc : R)
    (down back : value) (nm : option value) :
  shot (translate dx dy dz origin) d az inc down back nm
  = match shot origin d az inc down back nm with
    | Ok p => Ok (translate dx dy dz p)
    | Raise e => Raise e
    end.
Proof.
  unfold shot. rewrite shot0_translate.
  destruct (truthy down); [destruct (number down); simpl |];
    try reflexivity;
    rewrite ?shot0_translate;
    (destruct (truthy back); [destruct (number back); simpl |]);
    try reflexivity;
    rewrite ?shot0_translate;
    destruct (truthy_opt nm); reflexivity.
Qed.

Lemma survey_row_point_translate dx dy dz (origin : Point)
    (row : survey_row) :
  survey_row_point float_of_text (translate dx dy dz origin) row
  = match survey_row_point float_of_text origin row with
    | Ok o => Ok (option_map (translate dx dy dz) o)
    | Raise e => Raise e
    end.
Proof.
  unfold survey_row_point.
  destruct (negb (has_distance row)); [reflexivity |].
  destruct (getitem "Dist m" (row_Dist_m row)); simpl; [| reflexivity].
  destruct (float float_of_text a); simpl; [| reflexivity].
  destruct (getitem "Azm" (row_Azm row)); simpl; [| reflexivity].
  destruct (float float_of_text a1); simpl; [| reflexivity].
  destruct (getitem "Inc" (row_Inc row)); simpl; [| reflexivity].
  destruct (float float_of_text a3); simpl; [| reflexivity].
  rewrite shot_translate.
  destruct (shot _ _ _ _ _ _ _); reflexivity.
Qed.

(** In exact arithmetic the survey is rigidly attached to its origin:
    moving the origin station by a vector moves every yielded point by
    that vector, and changes neither the names nor the exception. *)
Theorem survey_moves_with_its_origin dx dy dz (rows : list survey_row)
    (origin : Point) :
  excel_survey float_of_text rows (translate dx dy dz origin)
  = (List.map (translate dx dy dz)
       (fst (excel_survey float_of_text rows origin)),
     snd (excel_survey float_of_text rows origin)).
Proof.
  induction rows as [| row rows IH]; [reflexivity |].
  simpl. rewrite survey_row_point_translate.
  destruct (survey_row_point float_of_text origin row) as [[p |] | e]; simpl.
  - rewrite IH.
    now destruct (excel_survey float_of_text rows origin).
  - exact IH.
  - reflexivity.
Qed.

End Generator.

(** ** The shots of a whole survey *)

Section Fan.

Local Open Scope R_scope.

Variable float_of_text : string -> option R.
Variable int_of_text : string -> option Z.
Variable m2ft : R -> R.

Lemma ice2survey_row_group sid o survey i (row : survey_row) survey' :
  has_distance row = true ->
  ice2survey_row float_of_text int_of_text m2ft sid o survey i row
  = Ok survey' ->
  exists g, survey' = survey ++ g /\ row_group sid o g.
Proof.
  intros Hd. unfold ice2survey_row. rewrite Hd. simpl.
  destruct (getitem "Point" (row_Point row)) as [pv |]; simpl;
    [| discriminate].
  destruct (point_number int_of_text i pv) as [point |]; simpl;
    [| discriminate].
  destruct (getitem "Azm" (row_Azm row)) as [av |]; simpl; [| discriminate].
  destruct (float float_of_text av) as [az |]; simpl; [| discriminate].
  destruct (getitem "Dist m" (row_Dist_m row)) as [dv |]; simpl;
    [| discriminate].
  destruct (float float_of_text dv) as [d |]; simpl; [| discriminate].
  destruct (getitem "Inc" (row_Inc row)) as [iv |]; simpl; [| discriminate].
  destruct (float float_of_text iv) as [inc |]; simpl; [| discriminate].
  destruct (truthy_opt (row_Down_m row)); destruct (truthy_opt (row_Back_m row));
    simpl.
  - destruct (getitem "Down m" (row_Down_m row)) as [wv |]; simpl;
      [| discriminate].
    destruct (float float_of_text wv) as [w |]; simpl; [| discriminate].
    destruct (getitem "Back m" (row_Back_m row)) as [bv |]; simpl;
      [| discriminate].
    destruct (float float_of_text bv) as [b |]; simpl; [| discriminate].
    intros [= <-]. eexists. unfold add_shot. rewrite <- !app_assoc.
    split; [reflexivity |].
    exists point, az, inc, (m2ft d), (m2ft w), (m2ft b). cbv zeta.
    right. right. right. reflexivity.
  - destruct (getitem "Down m" (row_Down_m row)) as [wv |]; simpl;
      [| discriminate].
    destruct (float float_of_text wv) as [w |]; simpl; [| discriminate].
    intros [= <-]. eexists. unfold add_shot. rewrite <- !app_assoc.
    split; [reflexivity |].
    exists point, az, inc, (m2ft d), (m2ft w), 0. cbv zeta.
    right. left. reflexivity.
  - destruct (getitem "Back m" (row_Back_m row)) as [bv |]; simpl;
      [| discriminate].
    destruct (float float_of_text bv) as [b |]; simpl; [| discriminate].
    intros [= <-]. eexists. unfold add_shot. rewrite <- !app_assoc.
    split; [reflexivity |].
    exists point, az, inc, (m2ft d), 0, (m2ft b). cbv zeta.
    right. right. left. reflexivity.
  - intros [= <-]. eexists. unfold add_shot.
    split; [reflexivity |].
    exists point, az, inc, (m2ft d), 0, 0. cbv zeta.
    left. reflexivity.
Qed.

Lemma ice2survey_loop_groups sid o (irows : list (nat * survey_row)) :
  forall survey shots,
    ice2survey_loop float_of_text int_of_text m2ft sid o survey irows
    = Ok shots ->
    exists groups,
      shots = survey ++ concat groups
      /\ length groups
         = length (List.filter (fun ir => has_distance (snd ir)) irows)
      /\ Forall (row_group sid o) groups.
Proof.
  induction irows as [| [i row] irows IH]; intros survey shots.
  - simpl. intros [= <-]. exists []. simpl. rewrite app_nil_r.
    repeat split. constructor.
  - simpl.
    destruct (ice2survey_row float_of_text int_of_text m2ft sid o
                survey i row) as [survey' |] eqn:Hrow; simpl;
      [| discriminate].
    intros Hloop. apply IH in Hloop. destruct Hloop as (gs & -> & Hlen & Hall).
    destruct (has_distance row) eqn:Hd.
    + destruct (ice2survey_row_group sid o survey i row survey' Hd Hrow)
        as (g & -> & Hg).
      exists (g :: gs). simpl. rewrite <- app_assoc.
      repeat split; [now f_equal | now constructor].
    + rewrite ice2survey_row_blank in Hrow by exact Hd.
      injection Hrow as <-. exists gs. repeat split; assumption.
Qed.

Lemma enumerate_filter_length (rows : list survey_row) :
  forall g : nat -> nat,
    length (List.filter (fun ir : nat * survey_row => has_distance (snd ir))
              (imap (fun i a => (g i, a)) rows))
    = length (List.filter has_distance rows).
Proof.
  induction rows as [| row rows IH]; intros g; [reflexivity |].
  simpl. specialize (IH (fun i => g (S i))).
  destruct (has_distance row); simpl; now rewrite <- IH.
Qed.

Lemma ice2survey_groups (rows : list survey_row) sid org shots :
  ice2survey float_of_text int_of_text m2ft rows sid org = Ok shots ->
  exists groups,
    shots = concat groups
    /\ length groups = length (List.filter has_distance rows)
    /\ Forall (row_group sid (origin_station sid org)) groups.
Proof.
  unfold ice2survey.
  destruct (upper_startswith_S sid); [discriminate |].
  intros H. apply ice2survey_loop_groups in H.
  destruct H as (gs & -> & Hlen & Hall).
  exists gs. repeat split; [| exact Hall].
  rewrite Hlen. apply (enumerate_filter_length rows (fun i => i)).
Qed.

(** A survey is a fan: its shots come in groups, one group per row with
    a distance and in the order of the rows; each group is a path of one to
    three shots that leaves the origin station. *)
Theorem survey_is_a_fan_of_paths (rows : list survey_row) (sid : string)
    (org : option string) (shots : list Shot) :
  ice2survey float_of_text int_of_text m2ft rows sid org = Ok shots ->
  exists groups,
    shots = concat groups
    /\ length groups = length (List.filter has_distance rows)
    /\ Forall (fun g => path_from (origin_station sid org) g
                        /\ (1 <= length g <= 3)%nat) groups.
Proof.
  intros H. apply ice2survey_groups in H.
  destruct H as (gs & -> & Hlen & Hall).
  exists gs. repeat split; [exact Hlen |].
  eapply Forall_impl; [exact Hall |].
  intros g (point & az & inc & l1 & l2 & l3 & [-> | [-> | [-> | ->]]]);
    simpl; repeat split; lia.
Qed.

(** A string of digits, or of a sign and digits, does not open with [S]. *)
Lemma fmt_02d_not_S (n : Z) : ~ starts_with "S" (fmt_02d n).
Proof.
  unfold fmt_02d, starts_with.
  destruct (String.length (NilZero.string_of_int (Z.to_int n)) <? 2)%nat.
  - intros [rest H]. discriminate H.
  - destruct (Z.to_int n) as [u | u]; simpl.
    + destruct u; simpl; intros [rest H]; discriminate H.
    + intros [rest H]. discriminate H.
Qed.

Lemma base_not_S sid (n : Z) :
  upper_startswith_S sid = false ->
  ~ starts_with "S" (sid ++ fmt_02d n)%string.
Proof.
  intros Hs. destruct sid as [| c sid']; simpl.
  - apply fmt_02d_not_S.
  - intros [rest H]. injection H as -> _. discriminate Hs.
Qed.

(** The letter [S] marks the ice surface: in every group the last shot,
    and only the last, goes to a station whose name opens with ["S_"]; no
    other station of the survey opens with [S]. *)
Theorem surface_station_ends_each_group (rows : list survey_row)
    (sid : string) (org : option string) (shots : list Shot) :
  ice2survey float_of_text int_of_text m2ft rows sid org = Ok shots ->
  exists groups,
    shots = concat groups
    /\ Forall (fun g =>
                 exists front last rest,
                   g = front ++ [last]
                   /\ TO last = ("S_" ++ rest)%string
                   /\ Forall (fun s => ~ starts_with "S" (TO s)) front)
              groups.
Proof.
  intros H.
  assert (Hs : upper_startswith_S sid = false).
  { unfold ice2survey in H. now destruct (upper_startswith_S sid). }
  apply ice2survey_groups in H.
  destruct H as (gs & -> & _ & Hall).
  exists gs. split; [reflexivity |].
  eapply Forall_impl; [exact Hall |].
  intros g (point & az & inc & l1 & l2 & l3 & Hg). cbv zeta in Hg.
  pose proof (base_not_S sid point Hs) as Hbase.
  destruct Hg as [-> | [-> | [-> | ->]]].
  - exists [], (mkShot (origin_station sid org)
                  ("S_" ++ sid ++ fmt_02d point)%string az inc l1),
      (sid ++ fmt_02d point)%string.
    repeat split. constructor.
  - eexists [_], _, _. repeat split.
    constructor; [exact Hbase | constructor].
  - eexists [_], _, _. repeat split.
    constructor; [exact Hbase | constructor].
  - eexists [_; _], _, _. repeat split.
    constructor; [exact Hbase |].
    constructor; [| constructor].
    simpl. intros [rest H]. discriminate H.
Qed.

End Fan.

(** ** The readers on further sample rows *)

Section ReaderSamples.

Local Open Scope R_scope.

Lemma plain_row_point :
  survey_row_point no_float zero_point plain_row
  = Ok (Some (set_name (shot0 zero_point 10 90 0) (Some (VNum 1)))).
Proof.
  unfold plain_row. rewrite survey_row_point_numeric by lra.
  rewrite shot_plain by reflexivity.
  cbv zeta. unfold truthy_opt. simpl default.
  rewrite truthy_nonzero by lra. reflexivity.
Qed.

Lemma plain_row_read :
  excel_survey no_float [plain_row] zero_point
  = ([set_name (shot0 zero_point 10 90 0) (Some (VNum 1))], None).
Proof. rewrite excel_survey_one_row, plain_row_point. reflexivity. Qed.

Lemma no_azimuth_row_raises :
  survey_row_point no_float zero_point no_azimuth_row
  = Raise (KeyError "Azm").
Proof.
  unfold survey_row_point, has_distance, no_azimuth_row. simpl.
  destruct (Req_dec_T 10 0) as [E | _]; [lra | reflexivity].
Qed.

Lemma plain_and_blank_read :
  excel_survey no_float [plain_row; blank_row] zero_point
  = ([set_name (shot0 zero_point 10 90 0) (Some (VNum 1))], None).
Proof.
  change [plain_row; blank_row] with ([plain_row] ++ [blank_row]).
  rewrite excel_survey_app, plain_row_read, excel_survey_one_row.
  rewrite survey_row_point_blank by reflexivity. reflexivity.
Qed.

Lemma plain_and_blank_distances :
  List.filter has_distance [plain_row; blank_row] = [plain_row].
Proof.
  unfold List.filter, has_distance, plain_row, blank_row. simpl.
  destruct (Req_dec_T 10 0) as [E | _]; [lra | reflexivity].
Qed.

Lemma down_back_row_shots :
  ice2survey no_float no_int feet [down_back_row] "A" None
  = Ok [mkShot "A0" "A01" 90 0 (feet 10);
        mkShot "A01" "dA01" 90 (-90) (feet 2);
        mkShot "dA01" "S_bA01" 90 0 (feet 3)].
Proof.
  rewrite ice2survey_one_row by reflexivity. unfold down_back_row.
  rewrite ice2survey_row_numeric with (point := 1%Z);
    [| lra | apply (point_number_IZR no_int 0 1); lia].
  rewrite (truthy_nonzero 2), (truthy_nonzero 3) by lra. reflexivity.
Qed.

Lemma blank_and_down_back_shots :
  ice2survey no_float no_int feet [blank_row; down_back_row] "A" None
  = Ok [mkShot "A0" "A01" 90 0 (feet 10);
        mkShot "A01" "dA01" 90 (-90) (feet 2);
        mkShot "dA01" "S_bA01" 90 0 (feet 3)].
Proof.
  unfold ice2survey. simpl upper_startswith_S. cbv iota.
  change (enumerate [blank_row; down_back_row])
    with [(0%nat, blank_row); (1%nat, down_back_row)].
  simpl ice2survey_loop.
  unfold down_back_row.
  rewrite ice2survey_row_numeric with (point := 1%Z);
    [| lra | apply (point_number_IZR no_int 1 1); lia].
  rewrite (truthy_nonzero 2), (truthy_nonzero 3) by lra. reflexivity.
Qed.

Lemma rows_without_distance_are_skipped_witness :
  exists groups : list (list Shot),
    [mkShot "A0" "A01" 90 0 (feet 10);
     mkShot "A01" "dA01" 90 (-90) (feet 2);
     mkShot "dA01" "S_bA01" 90 0 (feet 3)] = concat groups
    /\ Forall2 (fun ir g =>
                  ice2survey_row no_float no_int feet "A"
                    (origin_station "A" None) [] (fst ir) (snd ir)
                  = Ok g)
         (List.filter (fun ir => has_distance (snd ir))
            (enumerate [blank_row; down_back_row]))
         groups.
Proof.
  destruct (rows_without_distance_are_skipped no_float no_int feet)
    as (_ & _ & _ & _ & Hshots & _).
  apply (Hshots [blank_row; down_back_row] "A"%string None).
  exact blank_and_down_back_shots.
Defined.

Lemma exception_ends_the_generator_witness :
  excel_survey no_float ([plain_row] ++ no_azimuth_row :: [down_row])
    zero_point
  = (fst (excel_survey no_float [plain_row] zero_point),
     Some (KeyError "Azm")).
Proof.
  apply exception_ends_the_generator.
  - rewrite plain_row_read. reflexivity.
  - exact no_azimuth_row_raises.
Defined.

Lemma points_per_row_with_distance_witness :
  length (fst (excel_survey no_float [plain_row; blank_row] zero_point))
  = length (List.filter has_distance [plain_row; blank_row]).
Proof.
  apply (proj2 (points_per_row_with_distance no_float
                  [plain_row; blank_row] zero_point)).
  rewrite plain_and_blank_read. reflexivity.
Defined.

Lemma yielded_point_is_named_by_its_row_witness :
  name (set_name (shot0 zero_point 10 90 0) (Some (VNum 1)))
  = (let nm := default (VStr "") (row_Point plain_row) in
     if truthy nm then Some nm else None).
Proof.
  apply (yielded_point_is_named_by_its_row no_float zero_point plain_row).
  exact plain_row_point.
Defined.

Lemma survey_is_a_fan_of_paths_witness :
  exists groups,
    [mkShot "A0" "A01" 90 0 (feet 10);
     mkShot "A01" "dA01" 90 (-90) (feet 2);
     mkShot "dA01" "S_bA01" 90 0 (feet 3)] = concat groups
    /\ length groups = length (List.filter has_distance [down_back_row])
    /\ Forall (fun g => path_from (origin_station "A" None) g
                        /\ (1 <= length g <= 3)%nat) groups.
Proof.
  apply (survey_is_a_fan_of_paths no_float no_int feet [down_back_row]
           "A" None).
  exact down_back_row_shots.
Defined.

Lemma surface_station_ends_each_group_witness :
  exists groups,
    [mkShot "A0" "A01" 90 0 (feet 10);
     mkShot "A01" "dA01" 90 (-90) (feet 2);
     mkShot "dA01" "S_bA01" 90 0 (feet 3)] = concat groups
    /\ Forall (fun g =>
                 exists front last rest,
                   g = front ++ [last]
                   /\ TO last = ("S_" ++ rest)%string
                   /\ Forall (fun s => ~ starts_with "S" (TO s)) front)
              groups.
Proof.
  apply (surface_station_ends_each_group no_float no_int feet
           [down_back_row] "A" None).
  exact down_back_row_shots.
Defined.

End ReaderSamples.

(** ** Kinds of worksheets *)

Section SheetKinds.

Import ice_process_book.

(** The characters of a text. *)
Abbreviation chars := list_ascii_of_string.

Lemma prefix_chars (a b : string) (c : ascii) :
  String.prefix a b = true -> In c (chars a) -> In c (chars b).
Proof.
  revert b. induction a as [| x a IH]; intros b Hp Hin; [destruct Hin |].
  destruct b as [| y b]; [discriminate Hp |].
  simpl in Hp. destruct (ascii_dec x y) as [-> | Hne]; [| discriminate Hp].
  destruct Hin as [<- | Hin]; [now left | right; now apply IH].
Qed.

Lemma contains_chars (needle s : string) (c : ascii) :
  contains needle s = true -> In c (chars needle) -> In c (chars s).
Proof.
  intros Hc Hin. induction s as [| y s IH].
  - simpl in Hc. rewrite orb_false_r in Hc.
    now apply (prefix_chars needle EmptyString).
  - simpl in Hc. apply orb_true_iff in Hc. destruct Hc as [Hp | Hc].
    + now apply (prefix_chars needle (String y s)).
    + right. now apply IH.
Qed.

Lemma lower_chars (s : string) (c : ascii) :
  In c (chars (lower s)) -> exists a, In a (chars s) /\ lower_char a = c.
Proof.
  induction s as [| y s IH]; simpl; [intros [] |].
  intros [<- | Hin].
  - exists y. split; [now left | reflexivity].
  - destruct (IH Hin) as (a & Ha & Hl). exists a. split; [now right | exact Hl].
Qed.

Lemma chars_lower (s : string) (a : ascii) :
  In a (chars s) -> In (lower_char a) (chars (lower s)).
Proof.
  induction s as [| y s IH]; simpl; [intros [] |].
  intros [<- | Hin]; [now left | right; now apply IH].
Qed.

Lemma chars_remove (s : string) (a d : ascii) :
  In a (chars s) -> a <> d -> In a (chars (remove_char d s)).
Proof.
  intros Hin Hne. induction s as [| y s IH]; [destruct Hin |].
  simpl. destruct (Ascii.eqb_spec y d) as [-> | Hyd].
  - destruct Hin as [-> | Hin]; [now elim Hne | now apply IH].
  - destruct Hin as [-> | Hin]; [now left | right; now apply IH].
Qed.

(** A tie-in sheet is never a transect sheet: its name, dashes and case
    aside, is [tiein], and that has no [r] in it. *)
Lemma tiein_not_transect (sheet : worksheet) :
  is_tiein_survey sheet = true -> is_transect_survey sheet = false.
Proof.
  unfold is_tiein_survey, is_transect_survey. intros Ht.
  apply String.eqb_eq in Ht.
  destruct (contains "transect" (lower (sheet_name sheet))) eqn:Hc;
    [| reflexivity].
  exfalso.
  assert (Hr : In "r"%char (chars (lower (sheet_name sheet)))).
  { apply (contains_chars "transect" _ _ Hc). simpl. tauto. }
  apply lower_chars in Hr. destruct Hr as (a & Ha & Hl).
  assert (Hdash : a <> "-"%char).
  { intros ->. discriminate Hl. }
  pose proof (chars_lower _ _ (chars_remove _ _ _ Ha Hdash)) as Hin.
  rewrite Hl, Ht in Hin. simpl in Hin.
  repeat (destruct Hin as [Hin | Hin]; [discriminate Hin |]).
  exact Hin.
Qed.

(** Every worksheet is of exactly one kind, tie-in, transect or
    perimeter, and the two tools agree on which sheets are tie-in sheets;
    so every sheet [process] goes through is handled by one of its two
    branches, and the survey sheets are the perimeter sheets and the
    transect sheets together. *)
Theorem every_sheet_has_one_kind :
  (forall sheet,
      (is_tiein_survey sheet = true /\ is_transect_survey sheet = false
       /\ is_perimeter_survey sheet = false)
      \/ (is_tiein_survey sheet = false /\ is_transect_survey sheet = true
          /\ is_perimeter_survey sheet = false)
      \/ (is_tiein_survey sheet = false /\ is_transect_survey sheet = false
          /\ is_perimeter_survey sheet = true))
  /\ (forall sheet, ice2dat_book.is_tiein sheet = is_tiein_survey sheet)
  /\ (forall book,
      length (find_survey_sheets book)
      = (length (find_perimeter_survey_sheets book)
         + length (find_transect_survey_sheets book))%nat
      /\ length book
         = (length (find_survey_sheets book)
            + length (List.filter is_tiein_survey book))%nat).
Proof.
  assert (Hkind : forall sheet,
      (is_tiein_survey sheet = true /\ is_transect_survey sheet = false
       /\ is_perimeter_survey sheet = false)
      \/ (is_tiein_survey sheet = false /\ is_transect_survey sheet = true
          /\ is_perimeter_survey sheet = false)
      \/ (is_tiein_survey sheet = false /\ is_transect_survey sheet = false
          /\ is_perimeter_survey sheet = true)).
  { intros sheet. unfold is_perimeter_survey.
    destruct (is_tiein_survey sheet) eqn:Ht.
    - rewrite (tiein_not_transect sheet Ht). left. repeat split.
    - destruct (is_transect_survey sheet); [right; left | right; right];
        repeat split. }
  split; [exact Hkind |]. split; [reflexivity |].
  intros book. unfold find_survey_sheets, find_perimeter_survey_sheets,
    find_transect_survey_sheets.
  induction book as [| sheet book [IH1 IH2]]; [split; reflexivity |].
  simpl.
  destruct (Hkind sheet) as [(-> & -> & ->) | [(-> & -> & ->) | (-> & -> & ->)]];
    simpl; split; lia.
Qed.

(** [find_tiein_sheet] gives the first tie-in sheet of the workbook, and
    fails exactly when the workbook has none; [process] then ends with
    nothing handed to its writers: no point record, no row of the CSV
    file below its header, no polygon.  (The header row itself is written
    before the tie-in sheet is looked for.) *)
Theorem first_tiein_sheet_is_found (book : list worksheet) :
  (find_tiein_sheet book = None
   <-> forall sheet, In sheet book -> is_tiein_survey sheet = false)
  /\ (forall tie, find_tiein_sheet book = Some tie ->
      exists pre post,
        book = pre ++ tie :: post
        /\ is_tiein_survey tie = true
        /\ forall sheet, In sheet pre -> is_tiein_survey sheet = false)
  /\ (forall float_of_text tiein_rows,
      find_tiein_sheet book = None ->
      process float_of_text tiein_rows book
      = (no_outputs, Some NoTieInSheet)).
Proof.
  split; [| split].
  - induction book as [| s book IH]; simpl.
    + split; [intros _ sheet [] | reflexivity].
    + destruct (is_tiein_survey s) eqn:Hs; split.
      * discriminate.
      * intros H. rewrite (H s (or_introl eq_refl)) in Hs. discriminate Hs.
      * intros Hn sheet [<- | Hin]; [exact Hs | now apply IH].
      * intros H. apply IH. intros sheet Hin. apply H. now right.
  - induction book as [| s book IH]; simpl; intros tie Hf; [discriminate |].
    destruct (is_tiein_survey s) eqn:Hs.
    + injection Hf as <-. exists [], book. repeat split; [exact Hs |].
      intros sheet [].
    + destruct (IH tie Hf) as (pre & post & -> & Ht & Hpre).
      exists (s :: pre), post. repeat split; [exact Ht |].
      intros sheet [<- | Hin]; [exact Hs | now apply Hpre].
  - intros ft tr Hn. unfold process. now rewrite Hn.
Qed.

End SheetKinds.

(** ** The station a survey sheet is shot from *)

Section OriginNames.

Import ice_process_book.

Lemma take_word_before_space (s : string) :
  (forall c, In c (list_ascii_of_string s) -> is_space c = true ->
             c = " "%char) ->
  take_word s = before_space s.
Proof.
  induction s as [| c s IH]; intros Hsp; [reflexivity |].
  simpl. destruct (is_space c) eqn:Hc.
  - rewrite (Hsp c (or_introl eq_refl) Hc). reflexivity.
  - destruct (Ascii.eqb_spec c " "%char) as [-> | Hne]; [discriminate Hc |].
    f_equal. apply IH. intros a Ha. apply Hsp. now right.
Qed.

(** For sheet names of characters below U+0100: both tools shoot a
    survey sheet from the same tie-in station, the first word of the
    sheet name followed by [0], as long as the name opens with a character
    that is not whitespace and holds no whitespace but the space (no tab,
    no no-break space).  They part on other names: for a name that opens
    with a space [ice2dat] takes the station ["0"], and for a name without
    any word [tripod_station_name] raises where [ice2dat] again takes
    ["0"]. *)
Theorem tools_agree_on_the_origin_station (sheet : worksheet) :
  ((forall c, In c (list_ascii_of_string (sheet_name sheet)) ->
              is_space c = true -> c = " "%char) ->
   (exists c rest, sheet_name sheet = String c rest /\ is_space c = false) ->
   tripod_station_name sheet
   = Some (before_space (sheet_name sheet) ++ "0")%string)
  /\ ((exists rest, sheet_name sheet = String " " rest) ->
      before_space (sheet_name sheet) = EmptyString)
  /\ (tripod_station_name sheet = None
      <-> forall c, In c (list_ascii_of_string (sheet_name sheet)) ->
                    is_space c = true).
Proof.
  split; [| split].
  - intros Hsp (c & rest & Hname & Hc).
    unfold tripod_station_name.
    rewrite <- (take_word_before_space _ Hsp).
    rewrite Hname. simpl. rewrite Hc. reflexivity.
  - intros [rest ->]. reflexivity.
  - unfold tripod_station_name.
    induction (sheet_name sheet) as [| c s IH]; simpl.
    + split; [intros _ c [] | reflexivity].
    + destruct (is_space c) eqn:Hc.
      * split.
        -- intros H a [<- | Ha]; [exact Hc | now apply IH].
        -- intros H. apply IH. intros a Ha. apply H. now right.
      * split; [discriminate |].
        intros H. rewrite (H c (or_introl eq_refl)) in Hc. discriminate Hc.
Qed.

End OriginNames.

(** ** Rows as the reader builds them *)

Section Reader.

Lemma zip_insert_other (keys : list string) :
  forall (vals : list value) (d : gmap string value) (k : string),
    ~ In k keys ->
    fold_left (fun d kv => <[fst kv := snd kv]> d) (zip keys vals) d !! k
    = d !! k.
Proof.
  induction keys as [| k0 keys IH]; intros vals d k Hk; [reflexivity |].
  destruct vals as [| v0 vals]; [reflexivity |].
  simpl. rewrite IH by (intros H; apply Hk; now right).
  apply lookup_insert_ne. intros ->. apply Hk. now left.
Qed.

Lemma zip_insert_lookup (keys : list string) :
  forall (vals : list value) (d : gmap string value) (j : nat)
         (k : string) (v : value),
    List.NoDup keys ->
    nth_error keys j = Some k -> nth_error vals j = Some v ->
    fold_left (fun d kv => <[fst kv := snd kv]> d) (zip keys vals) d !! k
    = Some v.
Proof.
  induction keys as [| k0 keys IH]; intros vals d j k v Hnd Hk Hv.
  - destruct j; discriminate Hk.
  - destruct vals as [| v0 vals]; [destruct j; discriminate Hv |].
    inversion Hnd as [| ? ? Hnotin Hnd']; subst.
    destruct j as [| j]; simpl in Hk, Hv.
    + injection Hk as <-. injection Hv as <-. simpl.
      rewrite zip_insert_other by exact Hnotin.
      apply lookup_insert_eq.
    + simpl. now apply (IH vals _ j).
Qed.

(** The reader gives one [dict] per row below the headers.  A header
    that the sheet does not have is missing from every row; and when no
    header occurs twice, looking a header up in a row gives the cell that
    stands in its column. *)
Theorem reader_rows_follow_the_headers (sheet : worksheet) :
  length (ExcelWorksheetReader sheet) = length (sheet_cells sheet)
  /\ (forall k d,
      ~ In k (sheet_headers sheet) -> In d (ExcelWorksheetReader sheet) ->
      d !! k = None)
  /\ (forall i j cells k v,
      List.NoDup (sheet_headers sheet) ->
      nth_error (sheet_cells sheet) i = Some cells ->
      nth_error (sheet_headers sheet) j = Some k ->
      nth_error cells j = Some v ->
      exists d, nth_error (ExcelWorksheetReader sheet) i = Some d
                /\ d !! k = Some v).
Proof.
  unfold ExcelWorksheetReader. split; [| split].
  - apply length_map.
  - intros k d Hk Hd. apply in_map_iff in Hd.
    destruct Hd as (cells & <- & _). unfold dict_of_zip.
    rewrite zip_insert_other by exact Hk. apply lookup_empty.
  - intros i j cells k v Hnd Hi Hj Hv.
    exists (dict_of_zip (sheet_headers sheet) cells). split.
    + rewrite nth_error_map, Hi. reflexivity.
    + unfold dict_of_zip. now apply (zip_insert_lookup _ _ _ j).
Qed.

Lemma blank_rows_enumerate (rows : list survey_row) :
  Forall (fun row => has_distance row = false) rows ->
  forall g : nat -> nat,
    List.filter (fun ir : nat * survey_row => has_distance (snd ir))
      (imap (fun i a => (g i, a)) rows) = [].
Proof.
  induction 1 as [| row rows Hrow _ IH]; intros g; [reflexivity |].
  simpl. rewrite Hrow. apply (IH (fun i => g (S i))).
Qed.

(** A survey sheet that has its header row, but no [Dist m] column in
    it, is read as an empty survey by both tools, without any exception.
    (On a sheet with no row at all both readers raise [IndexError].) *)
Theorem sheet_without_distance_column_is_empty (sheet : worksheet) :
  sheet_headers sheet <> [] ->
  ~ In "Dist m"%string (sheet_headers sheet) ->
  (forall float_of_text origin,
      ice_process_book.excel_survey_sheet float_of_text sheet origin
      = ([], None))
  /\ (forall float_of_text int_of_text m2ft sid,
      upper_startswith_S sid = false ->
      ice2dat_book.excel_survey float_of_text int_of_text m2ft sheet sid
      = Ok []).
Proof.
  intros _ Hcol.
  assert (Hblank : Forall (fun row => has_distance row = false)
                     (survey_rows sheet)).
  { unfold survey_rows. apply List.Forall_forall. intros row Hrow.
    apply in_map_iff in Hrow. destruct Hrow as (d & <- & Hd).
    unfold has_distance, survey_row_of. simpl.
    apply in_map_iff in Hd. destruct Hd as (cells & <- & _).
    unfold dict_of_zip. rewrite zip_insert_other by exact Hcol.
    now rewrite lookup_empty. }
  split.
  - intros ft origin. unfold ice_process_book.excel_survey_sheet.
    rewrite excel_survey_filter.
    replace (List.filter has_distance (survey_rows sheet)) with
      (@nil survey_row); [reflexivity |].
    induction Hblank as [| row rows Hrow _ IH]; [reflexivity |].
    simpl. now rewrite Hrow.
  - intros ft it m2ft sid Hs. unfold ice2dat_book.excel_survey, ice2survey.
    rewrite Hs, ice2survey_loop_filter.
    unfold enumerate.
    rewrite (blank_rows_enumerate _ Hblank (fun i => i)). reflexivity.
Qed.

End Reader.

(** ** Survey ids and station names of a workbook *)

Section Ids.

Import ice2dat_book.

Variable float_of_text : string -> option R.
Variable int_of_text : string -> option Z.
Variable m2ft : R -> R.
Variable tiein_rows : worksheet -> list tiein_row.

Lemma excel2datfile_loop_reserved (sheets : list worksheet) :
  forall (i j : nat) (dat : datfile) (sheet : worksheet),
    nth_error sheets j = Some sheet ->
    (i + j = 18 \/ i + j = 50)%nat ->
    is_tiein sheet = false ->
    exists e,
      excel2datfile_loop float_of_text int_of_text m2ft tiein_rows
        i sheets dat = Raise e.
Proof.
  induction sheets as [| s sheets IH]; intros i j dat sheet Hj Hi Ht.
  - destruct j; discriminate Hj.
  - destruct j as [| j]; simpl in Hj.
    + injection Hj as ->. simpl. rewrite Ht.
      assert (Hid : i = 18%nat \/ i = 50%nat) by lia.
      destruct Hid as [-> | ->]; simpl; eexists; reflexivity.
    + simpl.
      match goal with
      | |- exists e, bind ?m _ = _ => destruct m as [dat' | e]
      end; simpl.
      * apply (IH (S i) j dat' sheet Hj); [lia | exact Ht].
      * now exists e.
Qed.

(** [excel2datfile] names the survey of the sheet at index [i] by the
    letter [chr(ord('A') + i)], tie-in sheets counted.  The sheet at index
    18 gets [S] and the one at index 50 gets [s], the letters [ice2survey]
    refuses: a workbook with a survey sheet in its 19th or 51st place
    cannot be converted. *)
Theorem reserved_letter_stops_the_workbook (sheets : list worksheet)
    (i : nat) (sheet : worksheet) :
  (i = 18 \/ i = 50)%nat ->
  nth_error sheets i = Some sheet ->
  is_tiein sheet = false ->
  exists e,
    excel2datfile float_of_text int_of_text m2ft tiein_rows sheets = Raise e.
Proof.
  intros Hi Hs Ht. unfold excel2datfile.
  apply (excel2datfile_loop_reserved sheets 0 i _ sheet Hs); [lia | exact Ht].
Qed.

End Ids.

Section Names.

Lemma to_int_not_nil (n : Z) :
  Z.to_int n <> Pos Nil /\ Z.to_int n <> Neg Nil.
Proof.
  destruct n as [| p | p]; simpl; split; try discriminate;
    intros [= H]; now apply (Unsigned.to_uint_nonnil p).
Qed.

Lemma decimal_inj (n m : Z) :
  NilZero.string_of_int (Z.to_int n) = NilZero.string_of_int (Z.to_int m) ->
  n = m.
Proof.
  intros H. apply to_int_inj.
  destruct (to_int_not_nil n) as [Hn1 Hn2].
  destruct (to_int_not_nil m) as [Hm1 Hm2].
  pose proof (NilZero.isi (Z.to_int n) Hn1 Hn2) as En.
  pose proof (NilZero.isi (Z.to_int m) Hm1 Hm2) as Em.
  rewrite H in En. rewrite En in Em. now injection Em.
Qed.

Lemma to_uint_normal (p : positive) : unorm (Pos.to_uint p) = Pos.to_uint p.
Proof.
  pose proof (Unsigned.to_of (Pos.to_uint p)) as H.
  rewrite Unsigned.of_to in H. simpl in H. now symmetry.
Qed.

Lemma to_uint_no_leading_zero (p : positive) (u : uint) :
  Pos.to_uint p <> D0 u.
Proof.
  intros H. pose proof (to_uint_normal p) as Hn.
  rewrite H, unorm_D0 in Hn.
  destruct (uint_eq_dec (nzhead u) Nil) as [Hz | Hnz].
  - apply unorm_0 in Hz. rewrite Hz in Hn.
    injection Hn as <-.
    apply (Unsigned.to_uint_nonzero p). exact H.
  - rewrite (unorm_nzhead u Hnz) in Hn.
    now apply (nzhead_nonzero u u).
Qed.

(** A decimal numeral opens with [0] only when it is ["0"] itself. *)
Lemma decimal_leading_zero (n : Z) (rest : string) :
  NilZero.string_of_int (Z.to_int n) = String "0" rest -> rest = EmptyString.
Proof.
  destruct n as [| p | p]; simpl.
  - now intros [= <-].
  - intros H. exfalso.
    destruct (Pos.to_uint p) as [| u | u | u | u | u | u | u | u | u | u] eqn:E;
      simpl in H; try discriminate H.
    + now apply (Unsigned.to_uint_nonnil p).
    + now apply (to_uint_no_leading_zero p u).
  - discriminate.
Qed.

Lemma append_inj_l (a b c : string) :
  (a ++ b = a ++ c)%string -> b = c.
Proof.
  induction a as [| x a IH]; intros H; [exact H |].
  change (String x (a ++ b) = String x (a ++ c))%string in H.
  injection H as H. now apply IH.
Qed.

Lemma fmt_02d_inj (n m : Z) : fmt_02d n = fmt_02d m -> n = m.
Proof.
  unfold fmt_02d.
  remember (NilZero.string_of_int (Z.to_int n)) as sn eqn:Esn.
  remember (NilZero.string_of_int (Z.to_int m)) as sm eqn:Esm.
  destruct (String.length sn <? 2)%nat eqn:Ln;
    destruct (String.length sm <? 2)%nat eqn:Lm; intros H.
  - apply append_inj_l in H. apply decimal_inj. congruence.
  - exfalso. change (String "0" sn = sm) in H.
    assert (Hm : NilZero.string_of_int (Z.to_int m) = String "0" sn)
      by congruence.
    apply decimal_leading_zero in Hm.
    rewrite <- H, Hm in Lm. discriminate Lm.
  - exfalso. change (sn = String "0" sm) in H.
    assert (Hn : NilZero.string_of_int (Z.to_int n) = String "0" sm)
      by congruence.
    apply decimal_leading_zero in Hn.
    rewrite H, Hn in Ln. discriminate Ln.
  - apply decimal_inj. congruence.
Qed.

(** Station names tell points apart: within a survey two different
    point numbers never give the same name, in any of the five forms a
    name takes (bare, or behind [S_], [d], [S_d] or [S_b]). *)
Theorem station_names_tell_points_apart (mark sid : string) (n m : Z) :
  n <> m ->
  (mark ++ sid ++ fmt_02d n)%string <> (mark ++ sid ++ fmt_02d m)%string.
Proof.
  intros Hne H. apply Hne.
  apply fmt_02d_inj. now apply (append_inj_l sid), (append_inj_l mark).
Qed.

End Names.

(** ** What [process] hands to its writers *)

Section ProcessOutputs.

Import ice_process_book.

Variable float_of_text : string -> option R.
Variable tiein_rows : worksheet -> list tiein_row.

Lemma write_point_alike (out : outputs) (p : Point) :
  written_alike out -> written_alike (write_point out p).
Proof.
  intros [Hcsv Hz]. unfold written_alike, write_point. simpl. split.
  - rewrite map_app, Hcsv. reflexivity.
  - apply Forall_app. split; [exact Hz |].
    constructor; [reflexivity | constructor].
Qed.

Lemma write_points_alike (ps : list Point) (out : outputs) :
  written_alike out -> written_alike (fold_left write_point ps out).
Proof.
  revert out. induction ps as [| p ps IH]; intros out H; [exact H |].
  simpl. apply IH. now apply write_point_alike.
Qed.

Lemma write_points_perimeter (ps : list Point) (out : outputs) :
  out_perimeter (fold_left write_point ps out) = out_perimeter out.
Proof.
  revert out. induction ps as [| p ps IH]; intros out; [reflexivity |].
  simpl. now rewrite IH.
Qed.

Lemma process_sheet_alike fixed (out : outputs) (sheet : worksheet) :
  written_alike out ->
  written_alike
    (fst (process_sheet float_of_text fixed out sheet)).
Proof.
  intros H. unfold process_sheet.
  destruct (tripod_station_name sheet) as [k |]; [| exact H].
  destruct (fixed !! k) as [[origin |] |]; try exact H.
  destruct (excel_survey_sheet float_of_text sheet origin) as [points e].
  destruct (is_perimeter_survey sheet).
  - destruct e as [e |]; [exact H |].
    pose proof (write_points_alike points out H) as [Hcsv Hz].
    split; assumption.
  - destruct (is_transect_survey sheet); [| exact H].
    now apply write_points_alike.
Qed.

Lemma process_sheets_alike fixed (sheets : list worksheet) :
  forall out,
    written_alike out ->
    written_alike (fst (process_sheets float_of_text fixed out sheets)).
Proof.
  induction sheets as [| sheet sheets IH]; intros out H; [exact H |].
  simpl.
  pose proof (process_sheet_alike fixed out sheet H) as Hs.
  destruct (process_sheet float_of_text fixed out sheet) as [out' [f |]];
    [exact Hs | now apply IH].
Qed.

Lemma process_sheets_placed fixed (sheets : list worksheet) :
  none_in_values fixed = false ->
  forall out k,
    snd (process_sheets float_of_text fixed out sheets)
    <> Some (UnplacedStation k).
Proof.
  intros Hn. rewrite none_in_values_false in Hn.
  induction sheets as [| sheet sheets IH]; intros out k; [discriminate |].
  simpl.
  destruct (process_sheet float_of_text fixed out sheet) as [out' [f |]] eqn:E;
    [| apply IH].
  simpl. intros [= ->]. revert E. unfold process_sheet.
  destruct (tripod_station_name sheet) as [k' |]; [| discriminate].
  destruct (fixed !! k') as [[origin |] |] eqn:Ek; try discriminate.
  - destruct (excel_survey_sheet float_of_text sheet origin) as [points e].
    destruct (is_perimeter_survey sheet).
    + destruct e; discriminate.
    + destruct (is_transect_survey sheet); [destruct e |]; discriminate.
  - now elim (Hn k').
Qed.

(** Whatever the workbook and however [process] ends, the CSV file and
    the point layer have been given the same points in the same order, each
    point with its height as elevation.  Of the ways the model can end, two
    are never taken: the resolver does not run out of sweeps, and the
    station a sheet is shot from is never an unplaced one. *)
Theorem process_writes_points_alike (book : list worksheet) :
  written_alike (fst (process float_of_text tiein_rows book))
  /\ snd (process float_of_text tiein_rows book) <> Some OutOfSweeps
  /\ forall k, snd (process float_of_text tiein_rows book)
               <> Some (UnplacedStation k).
Proof.
  assert (Hempty : written_alike no_outputs)
    by (split; [reflexivity | constructor]).
  unfold process.
  destruct (find_tiein_sheet book) as [tie |];
    [| repeat split; try exact Hempty; try discriminate; constructor].
  destruct (excel_tiein (tiein_rows tie)) as [fixed | passes st |] eqn:E.
  - split; [now apply process_sheets_alike |]. split.
    + clear E. generalize no_outputs.
      induction (find_survey_sheets book) as [| sheet sheets IH];
        intros out; [discriminate |].
      simpl. destruct (process_sheet float_of_text fixed out sheet)
        as [out' [f |]] eqn:Es; [| apply IH].
      simpl. intros [= ->]. revert Es. unfold process_sheet.
      destruct (tripod_station_name sheet) as [k' |]; [| discriminate].
      destruct (fixed !! k') as [[origin |] |]; try discriminate.
      destruct (excel_survey_sheet float_of_text sheet origin) as [points e].
      destruct (is_perimeter_survey sheet).
      * destruct e; discriminate.
      * destruct (is_transect_survey sheet); [destruct e |]; discriminate.
    + apply process_sheets_placed.
      apply excel_tiein_returned in E. destruct E as (n & _ & -> & Hc & _).
      exact Hc.
  - repeat split; try exact Hempty; try discriminate; constructor.
  - exfalso. revert E. apply while_loop_ends; lia.
Qed.

Lemma perimeter_of_survey_sheets (book : list worksheet) :
  List.filter is_perimeter_survey (find_survey_sheets book)
  = find_perimeter_survey_sheets book.
Proof.
  unfold find_survey_sheets, find_perimeter_survey_sheets.
  induction book as [| sheet book IH]; [reflexivity |].
  simpl. unfold is_perimeter_survey at 2.
  destruct (is_tiein_survey sheet) eqn:Ht; simpl.
  - rewrite andb_false_r. exact IH.
  - rewrite andb_true_r. unfold is_perimeter_survey at 1.
    rewrite Ht, andb_true_r.
    destruct (is_transect_survey sheet); simpl; now rewrite IH.
Qed.

Lemma process_sheets_perimeters fixed (sheets : list worksheet) :
  forall out out',
    process_sheets float_of_text fixed out sheets = (out', None) ->
    List.map fst (out_perimeter out')
    = List.map fst (out_perimeter out)
      ++ List.map sheet_name (List.filter is_perimeter_survey sheets).
Proof.
  induction sheets as [| sheet sheets IH]; intros out out'.
  - simpl. intros [= <-]. now rewrite app_nil_r.
  - simpl.
    destruct (process_sheet float_of_text fixed out sheet) as [out1 [f |]] eqn:E;
      [discriminate |].
    intros H. rewrite (IH out1 out' H). clear H IH.
    revert E. unfold process_sheet.
    destruct (tripod_station_name sheet) as [k |]; [| discriminate].
    destruct (fixed !! k) as [[origin |] |]; try discriminate.
    destruct (excel_survey_sheet float_of_text sheet origin) as [points e].
    destruct (is_perimeter_survey sheet).
    + destruct e as [e |]; [discriminate |]. intros [= <-]. simpl.
      rewrite write_points_perimeter, map_app. simpl.
      now rewrite <- app_assoc.
    + destruct (is_transect_survey sheet).
      * destruct e; [discriminate |]. intros [= <-].
        now rewrite write_points_perimeter.
      * intros [= <-]. reflexivity.
Qed.

(** When [process] gets through the workbook, the perimeter layer holds
    one polygon per perimeter sheet, under the name of the sheet and in the
    order of the workbook; transect sheets and the tie-in sheet add none. *)
Theorem process_draws_each_perimeter (book : list worksheet) :
  snd (process float_of_text tiein_rows book) = None ->
  List.map fst (out_perimeter (fst (process float_of_text tiein_rows book)))
  = List.map sheet_name (find_perimeter_survey_sheets book).
Proof.
  unfold process.
  destruct (find_tiein_sheet book) as [tie |]; [| discriminate].
  destruct (excel_tiein (tiein_rows tie)) as [fixed | passes st |];
    try discriminate.
  destruct (process_sheets float_of_text fixed no_outputs
              (find_survey_sheets book)) as [out f] eqn:E.
  simpl. intros ->.
  rewrite (process_sheets_perimeters fixed _ _ _ E).
  now rewrite perimeter_of_survey_sheets.
Qed.

End ProcessOutputs.

(** ** The workbook functions on the sample sheets *)

Section BookSamples.

Import ice_process_book.

Local Open Scope R_scope.

Lemma first_tiein_sheet_is_found_witness :
  (exists pre post,
      small_book = pre ++ tie_sheet :: post
      /\ is_tiein_survey tie_sheet = true
      /\ forall sheet, In sheet pre -> is_tiein_survey sheet = false)
  /\ find_tiein_sheet [empty_room; empty_transect] = None
  /\ process no_float read_tiein [empty_room; empty_transect]
     = (no_outputs, Some NoTieInSheet).
Proof.
  destruct (first_tiein_sheet_is_found small_book) as (_ & Hfirst & _).
  destruct (first_tiein_sheet_is_found [empty_room; empty_transect])
    as (Hnone & _ & Hstop).
  split; [| split].
  - apply (Hfirst tie_sheet). reflexivity.
  - apply Hnone. intros sheet [<- | [<- | []]]; reflexivity.
  - apply Hstop. reflexivity.
Defined.

Lemma tools_agree_on_the_origin_station_witness :
  tripod_station_name front_room = Some "A0"%string
  /\ tripod_station_name (mkSheet "   " [] []) = None.
Proof.
  split.
  - apply (proj1 (tools_agree_on_the_origin_station front_room)).
    + intros c Hin Hc. simpl in Hin.
      repeat (destruct Hin as [<- | Hin]; [try reflexivity; discriminate Hc |]).
      destruct Hin.
    + exists "A"%char, " Front Room"%string. split; reflexivity.
  - apply (proj2 (proj2 (tools_agree_on_the_origin_station
                           (mkSheet "   " [] [])))).
    intros c Hin. simpl in Hin.
    repeat (destruct Hin as [<- | Hin]; [reflexivity |]).
    destruct Hin.
Defined.

Lemma survey_headers_nodup : List.NoDup survey_headers.
Proof.
  unfold survey_headers.
  repeat (constructor; [simpl; intuition discriminate |]). constructor.
Qed.

Lemma reader_rows_follow_the_headers_witness :
  (forall d, In d (ExcelWorksheetReader misnamed_sheet) ->
             d !! "Dist m"%string = None)
  /\ exists d, nth_error (ExcelWorksheetReader front_room) 0 = Some d
               /\ d !! "Dist m"%string = Some (VNum 10).
Proof.
  destruct (reader_rows_follow_the_headers misnamed_sheet) as (_ & Hmiss & _).
  destruct (reader_rows_follow_the_headers front_room) as (_ & _ & Hcell).
  split.
  - intros d Hd. apply Hmiss; [| exact Hd].
    simpl. intuition discriminate.
  - apply (Hcell 0%nat 2%nat
             [VNum 1; VNum 90; VNum 10; VNum 0; VStr ""; VStr ""; VStr ""]).
    + exact survey_headers_nodup.
    + reflexivity.
    + reflexivity.
    + reflexivity.
Defined.

Lemma sheet_without_distance_column_is_empty_witness :
  excel_survey_sheet no_float misnamed_sheet zero_point = ([], None)
  /\ ice2dat_book.excel_survey no_float no_int feet misnamed_sheet "C"
     = Ok [].
Proof.
  assert (Hcol : ~ In "Dist m"%string (sheet_headers misnamed_sheet))
    by (simpl; intuition discriminate).
  assert (Hrow : sheet_headers misnamed_sheet <> []) by discriminate.
  destruct (sheet_without_distance_column_is_empty misnamed_sheet Hrow Hcol)
    as [Hpoints Hshots].
  split.
  - apply Hpoints.
  - apply Hshots. reflexivity.
Defined.

Lemma reserved_letter_stops_the_workbook_witness :
  exists e,
    ice2dat_book.excel2datfile no_float no_int feet read_tiein long_book
    = Raise e.
Proof.
  apply (reserved_letter_stops_the_workbook no_float no_int feet read_tiein
           long_book 18 misnamed_sheet).
  - left. reflexivity.
  - reflexivity.
  - reflexivity.
Defined.

Lemma station_names_tell_points_apart_witness :
  ("S_" ++ "A" ++ fmt_02d 7)%string <> ("S_" ++ "A" ++ fmt_02d 12)%string.
Proof. apply station_names_tell_points_apart. lia. Defined.

Lemma process_draws_each_perimeter_witness :
  List.map fst (out_perimeter (fst (process no_float read_tiein small_book)))
  = List.map sheet_name (find_perimeter_survey_sheets small_book).
Proof. apply process_draws_each_perimeter. reflexivity. Defined.

End BookSamples.
